(** * Chart-To-Image: the rendering and analytics core, embedded in Rocq

    A shallow embedding of the renderer of Chart-To-Image
    (renderer/utils.ts, elements.ts, charts.ts, index.ts, comparison.ts and
    the comparison service) together with the properties its specification
    states about it.

    Numbers.  A JavaScript [number] that holds a price, a volume or a pixel
    coordinate is modelled by an exact rational ([Q]): finite doubles with
    rounding idealised away.  Equalities between computed numbers are
    therefore stated with [==] ([Qeq]).  The inputs of the renderer (candles,
    levels, options, canvas sizes) are finite numbers.  Pixel coordinates are
    computed with divisions whose divisor can be zero, so they live in [num],
    which adds NaN and the two infinities to [Q] and follows the arithmetic
    of doubles on them.  Timestamps, counts and column numbers are integers
    ([Z], [nat]).  A double can differ from the exact value in its last
    bits, and overflow where the exact value is finite.  The properties of
    computed values are stated with that in mind: they repeat the
    expression the code evaluates, or rest on steps that doubles take
    exactly (comparisons, [x - x], [x / x], [0 * x], a product with 0 or
    1), or are bounds that a difference in the last bits does not reach. *)

From Stdlib Require Import QArith Qminmax Qround Qabs Lqa.
From Stdlib Require Import ZArith Lia List String Ascii Bool DecimalString.
Import ListNotations.

Local Open Scope string_scope.
Local Open Scope list_scope.
Local Open Scope Q_scope.

(* ------------------------------------------------------------------ *)
(** ** JavaScript idioms *)

(** Truthiness, as used by [if (v)] and [v || d]. *)
Class Truthy (A : Type) := truthy : A -> bool.

#[export] Instance Truthy_bool : Truthy bool := fun b => b.
#[export] Instance Truthy_Q : Truthy Q := fun q => negb (Qeq_bool q 0).
#[export] Instance Truthy_Z : Truthy Z := fun z => negb (Z.eqb z 0).
#[export] Instance Truthy_string : Truthy string :=
  fun s => match s with EmptyString => false | _ => true end.
(** An optional property: [undefined] is falsy. *)
#[export] Instance Truthy_option {A} `{Truthy A} : Truthy (option A) :=
  fun o => match o with Some a => truthy a | None => false end.

(** [v || d] for an optional property [v]. *)
Definition or_else {A} `{Truthy A} (v : option A) (d : A) : A :=
  match v with
  | Some a => if truthy a then a else d
  | None => d
  end.

(** [Math.min(...xs)] and [Math.max(...xs)].  On an empty argument list
    JavaScript answers [Infinity] and [-Infinity]: [None]. *)
Definition Math_min (xs : list Q) : option Q :=
  match xs with
  | [] => None
  | x :: rest => Some (fold_left Qmin rest x)
  end.

Definition Math_max (xs : list Q) : option Q :=
  match xs with
  | [] => None
  | x :: rest => Some (fold_left Qmax rest x)
  end.

(** Comparisons of finite numbers as booleans. *)
Definition Qltb (a b : Q) : bool := negb (Qle_bool b a).
Definition Qleb (a b : Q) : bool := Qle_bool a b.

(* ------------------------------------------------------------------ *)
(** ** Numbers that need not be finite *)

Inductive num :=
  | Fin (q : Q)
  | PInf
  | NInf
  | NaN.

Declare Scope num_scope.
Delimit Scope num_scope with num.
Bind Scope num_scope with num.

(** The infinity a non-zero finite number produces when divided by zero
    or multiplied by [Infinity]; a zero gives NaN.  The zero divisors of
    this code are lengths and differences [x - x], which are [+0]. *)
Definition inf_of_sign (c : comparison) : num :=
  match c with
  | Gt => PInf
  | Lt => NInf
  | Eq => NaN
  end.

Definition nadd (a b : num) : num :=
  match a, b with
  | NaN, _ | _, NaN => NaN
  | Fin x, Fin y => Fin (x + y)
  | PInf, NInf | NInf, PInf => NaN
  | PInf, _ | _, PInf => PInf
  | NInf, _ | _, NInf => NInf
  end.

Definition nsub (a b : num) : num :=
  match a, b with
  | NaN, _ | _, NaN => NaN
  | Fin x, Fin y => Fin (x - y)
  | PInf, PInf | NInf, NInf => NaN
  | PInf, _ | _, NInf => PInf
  | NInf, _ | _, PInf => NInf
  end.

Definition nmul (a b : num) : num :=
  match a, b with
  | NaN, _ | _, NaN => NaN
  | Fin x, Fin y => Fin (x * y)
  | Fin x, PInf | PInf, Fin x => inf_of_sign (x ?= 0)
  | Fin x, NInf | NInf, Fin x => inf_of_sign (0 ?= x)
  | PInf, PInf | NInf, NInf => PInf
  | PInf, NInf | NInf, PInf => NInf
  end.

Definition ndiv (a b : num) : num :=
  match a, b with
  | NaN, _ | _, NaN => NaN
  | Fin x, Fin y => if Qeq_bool y 0 then inf_of_sign (x ?= 0) else Fin (x / y)
  | Fin _, PInf | Fin _, NInf => Fin 0
  | PInf, Fin y => if Qltb y 0 then NInf else PInf
  | NInf, Fin y => if Qltb y 0 then PInf else NInf
  | _, _ => NaN
  end.

(** [Math.abs], [Math.max] and [Math.min] of two arguments. *)
Definition nabs (a : num) : num :=
  match a with
  | Fin q => Fin (Qabs q)
  | PInf | NInf => PInf
  | NaN => NaN
  end.

Definition nmax (a b : num) : num :=
  match a, b with
  | NaN, _ | _, NaN => NaN
  | PInf, _ | _, PInf => PInf
  | NInf, c | c, NInf => c
  | Fin x, Fin y => Fin (Qmax x y)
  end.

Definition nmin (a b : num) : num :=
  match a, b with
  | NaN, _ | _, NaN => NaN
  | NInf, _ | _, NInf => NInf
  | PInf, c | c, PInf => c
  | Fin x, Fin y => Fin (Qmin x y)
  end.

Infix "+" := nadd : num_scope.
Infix "-" := nsub : num_scope.
Infix "*" := nmul : num_scope.
Infix "/" := ndiv : num_scope.

(** Equality of numbers up to the representation of the rationals. *)
Definition num_eq (a b : num) : Prop :=
  match a, b with
  | Fin x, Fin y => x == y
  | PInf, PInf | NInf, NInf | NaN, NaN => True
  | _, _ => False
  end.

(** A count or an index as a number. *)
Definition Qn (n : nat) : Q := inject_Z (Z.of_nat n).

(* ------------------------------------------------------------------ *)
(** ** Data model (renderer/types.ts and the uses of [ChartOptions]) *)

(** [ChartOHLC]: one candle. *)
Record ChartOHLC := mkOHLC {
  time : Z;
  open : Q;
  high : Q;
  low : Q;
  close : Q;
  volume : option Q
}.

(** [PriceRange]. *)
Record PriceRange := mkPriceRange {
  minPrice : Q;
  maxPrice : Q;
  priceRange : Q
}.

(** [ChartDimensions]. *)
Record ChartDimensions := mkDimensions {
  width : Q;
  height : Q;
  margin_top : Q;
  margin_bottom : Q;
  margin_left : Q;
  margin_right : Q;
  chartWidth : Q;
  chartHeight : Q
}.

(** [ChartOptions.scale]. *)
Record ScaleOptions := mkScale {
  scale_x : option Q;
  scale_y : option Q;
  autoScale : option bool;
  minScale : option Q;
  maxScale : option Q
}.

Record BarColors := mkBarColors {
  bullish : option string;
  bearish : option string;
  wick : option string;
  border : option string
}.

(** [ChartOptions.margin]. *)
Record Margin := mkMargin {
  top : option Q;
  bottom : option Q;
  left : option Q;
  right : option Q
}.

(** The chart types the switch of [drawChartType] knows. *)
Inductive ChartType :=
  | Candlestick
  | Line
  | Area
  | HeikinAshi
  | Renko
  | LineBreak.

Inductive WatermarkPosition :=
  | wm_top
  | wm_center
  | wm_bottom
  | top_left
  | top_right
  | bottom_left
  | bottom_right.

Record WatermarkConfig := mkWatermark {
  wm_text : string;
  wm_position : option WatermarkPosition;
  wm_color : option string;
  wm_fontSize : option Q;
  wm_opacity : option Q
}.

(** The fields of [ChartOptions] the renderer reads. *)
Record ChartOptions := mkOptions {
  backgroundColor : option string;
  textColor : option string;
  gridColor : option string;
  borderColor : option string;
  chartType : option ChartType;
  customBarColors : option BarColors;
  title : option string;
  showTitle : option bool;
  showTimeAxis : option bool;
  showGrid : option bool;
  showVWAP : option bool;
  showEMA : option bool;
  emaPeriod : option Q;
  margin : option Margin;
  scale : option ScaleOptions;
  watermark : option (string + WatermarkConfig)
}.

Inductive LineStyle := solid | dotted.

(** An entry of [NodeChartData.levels]. *)
Record HorizontalLevel := mkLevel {
  lv_value : Q;
  lv_color : string;
  lv_lineStyle : LineStyle;
  lv_label : option string
}.

(** [NodeChartData]. *)
Record NodeChartData := mkData {
  ohlc : list ChartOHLC;
  levels : option (list HorizontalLevel);
  config : ChartOptions
}.

(** Optional chaining [config.scale?.f] and [config.customBarColors?.f]. *)
Definition scale_field {A} (f : ScaleOptions -> option A) (config : ChartOptions)
  : option A :=
  match scale config with Some s => f s | None => None end.

Definition bar_color (f : BarColors -> option string) (config : ChartOptions)
  : option string :=
  match customBarColors config with Some c => f c | None => None end.

(** [v !== false] for an optional boolean. *)
Definition not_false (v : option bool) : bool :=
  match v with Some false => false | _ => true end.

(** A configuration with every option left out, and one that only sets
    [scale]. *)
Definition no_options : ChartOptions :=
  mkOptions None None None None None None None None None None None None None
            None None None.

Definition with_scale (s : ScaleOptions) : ChartOptions :=
  mkOptions None None None None None None None None None None None None None
            None (Some s) None.

(* ------------------------------------------------------------------ *)
(** ** The drawing surface

    A render is the sequence of calls and property assignments it makes on
    the [CanvasRenderingContext2D]; the pixels are a function of it. *)

(** Strings the renderer builds from numbers or dates are kept as the call
    that builds them.  The two date formats print local time: they are
    given the instant shifted to local time. *)
Inductive Text :=
  | Str (s : string)
  | toFixed (value : Q) (digits : nat)
  | toLocaleTimeString (localTime : Z)
  | toLocaleDateString (localTime : Z)
  | Template (before : string) (value : Q) (after : string).

Inductive Style :=
  | Color (c : string)
  | LinearGradient (x0 y0 x1 y1 : num) (stops : list (Q * string)).

Inductive Cmd :=
  | clearRect (x y w h : num)
  | fillStyle (s : Style)
  | strokeStyle (c : string)
  | lineWidth (w : Q)
  | font (f : Text)
  | textAlign (a : string)
  | globalAlpha (a : Q)
  | setLineDash (segments : list Q)
  | beginPath
  | moveTo (x y : num)
  | lineTo (x y : num)
  | closePath
  | stroke
  | fill
  | fillRect (x y w h : num)
  | strokeRect (x y w h : num)
  | fillText (text : Text) (x y : num).

(** [xs.forEach((a, index) => ...)]. *)
Fixpoint forEach_from {A} (f : A -> nat -> list Cmd) (xs : list A) (index : nat)
  : list Cmd :=
  match xs with
  | [] => []
  | a :: rest => f a index ++ forEach_from f rest (S index)
  end.

Definition forEach {A} (f : A -> nat -> list Cmd) (xs : list A) : list Cmd :=
  forEach_from f xs 0.

(** [xs.findIndex(p)]; [None] is [-1]. *)
Fixpoint findIndex_from {A} (p : A -> bool) (xs : list A) (index : nat)
  : option nat :=
  match xs with
  | [] => None
  | a :: rest => if p a then Some index else findIndex_from p rest (S index)
  end.

Definition findIndex {A} (p : A -> bool) (xs : list A) : option nat :=
  findIndex_from p xs 0.

(** The pixel row of a price: the expression
    [margin.top + ((maxPrice - value) / priceRange) * chartHeight] that every
    renderer repeats. *)
Definition priceY (dimensions : ChartDimensions) (maxPrice priceRange : Q)
           (value : num) : num :=
  (Fin (margin_top dimensions)
   + ((Fin maxPrice - value) / Fin priceRange) * Fin (chartHeight dimensions))%num.

Definition DEFAULT_FONT : string := "12px Arial".

(* ------------------------------------------------------------------ *)
(** ** renderer/utils.ts *)

Definition formatPrice (price : Q) : Text :=
  if Qleb 1000 price then toFixed price 0
  else if Qleb 100 price then toFixed price 1
  else if Qleb 10 price then toFixed price 2
  else toFixed price 4.

(** What [new Date()] and the local time zone contribute: the current
    instant and the offset of local time from UTC, in milliseconds (one
    offset for all instants: no change of daylight-saving time between
    them). *)
Record Clock := mkClock {
  now : Z;
  utc_offset : Z
}.

(** [toDateString()] names the local calendar day of an instant; two
    instants have the same string exactly when they fall on the same
    day. *)
Definition toDateString (clock : Clock) (instant : Z) : Z :=
  ((instant + utc_offset clock) / 86400000)%Z.

(** [date.toDateString() === now.toDateString()]. *)
Definition isToday (clock : Clock) (timestamp : Z) : bool :=
  Z.eqb (toDateString clock timestamp) (toDateString clock (now clock)).

Definition formatTime (clock : Clock) (timestamp : Z) : Text :=
  if isToday clock timestamp
  then toLocaleTimeString (timestamp + utc_offset clock)
  else toLocaleDateString (timestamp + utc_offset clock).

(** The centred rescale that both multipliers apply, and the padding of
    [autoScale]. *)
Definition rescale (factor : Q) (b : Q * Q) : Q * Q :=
  let '(minPrice, maxPrice) := b in
  let center := (minPrice + maxPrice) / 2 in
  let range := (maxPrice - minPrice) * factor in
  (center - range / 2, center + range / 2).

Definition pad (b : Q * Q) : Q * Q :=
  let '(minPrice, maxPrice) := b in
  let padding := 0.05 in
  let range := maxPrice - minPrice in
  (minPrice - range * padding, maxPrice + range * padding).

Definition prices_of (ohlc : list ChartOHLC) : list Q :=
  flat_map (fun candle => [high candle; low candle]) ohlc.

(** [calculatePriceRange]; [None] is the range of infinities an empty
    array gives. *)
Definition calculatePriceRange (ohlc : list ChartOHLC) (config : ChartOptions)
  : option PriceRange :=
  let prices := prices_of ohlc in
  match Math_min prices, Math_max prices with
  | Some minPrice0, Some maxPrice0 =>
      let b := (minPrice0, maxPrice0) in
      let b := if truthy (scale_field autoScale config) then pad b else b in
      let b := match scale_field scale_x config with
               | Some x => if truthy x then rescale x b else b
               | None => b
               end in
      let b := match scale_field scale_y config with
               | Some y => if truthy y then rescale y b else b
               | None => b
               end in
      let '(minPrice, maxPrice) := b in
      let minPrice := match scale_field minScale config with
                      | Some m => Qmax minPrice m
                      | None => minPrice
                      end in
      let maxPrice := match scale_field maxScale config with
                      | Some m => Qmin maxPrice m
                      | None => maxPrice
                      end in
      Some (mkPriceRange minPrice maxPrice (maxPrice - minPrice))
  | _, _ => None
  end.

Definition hasVolumeData (ohlc : list ChartOHLC) : bool :=
  existsb (fun candle =>
             match volume candle with
             | Some v => Qltb 0 v
             | None => false
             end) ohlc.

(* ------------------------------------------------------------------ *)
(** ** renderer/elements.ts *)

Module AxesRenderer.

Definition drawPriceLabels (dimensions : ChartDimensions)
           (range : PriceRange) (config : ChartOptions) : list Cmd :=
  [fillStyle (Color (or_else (textColor config) "#ffffff"));
   font (Str DEFAULT_FONT);
   textAlign "right"]
  ++ let numLabels := 5%nat in
     flat_map
       (fun i =>
          let price :=
            minPrice range + (Qn i / Qn numLabels) * priceRange range in
          let y := priceY dimensions (maxPrice range) (priceRange range)
                          (Fin price) in
          let formattedPrice := formatPrice price in
          [fillText formattedPrice (Fin (margin_left dimensions - 10))
                    (y + Fin 4)%num;
           strokeStyle (or_else (gridColor config) "#2b2b43");
           lineWidth 0.5;
           beginPath;
           moveTo (Fin (margin_left dimensions - 5)) y;
           lineTo (Fin (margin_left dimensions)) y;
           stroke])
       (seq 0 (S numLabels)).

(** The indices [i, i + step, ...] below [len] that
    [for (let i = 0; i < len; i += step)] visits ([step >= 1]). *)
Fixpoint stepped (fuel i step len : nat) : list nat :=
  match fuel with
  | O => []
  | S fuel' =>
      if Nat.ltb i len then i :: stepped fuel' (i + step) step len else []
  end.

Definition drawTimeLabels (clock : Clock) (dimensions : ChartDimensions)
           (config : ChartOptions) (ohlc : list ChartOHLC) : list Cmd :=
  let len := List.length ohlc in
  if Nat.eqb len 0 then []
  else if negb (not_false (showTimeAxis config)) then []
  else
    [fillStyle (Color (or_else (textColor config) "#ffffff"));
     font (Str "11px Arial");
     textAlign "center"]
    ++ let step := Nat.max 1 (len / 6) in
       flat_map
         (fun i =>
            match nth_error ohlc i with
            | None => []
            | Some candle =>
                let x :=
                  (Fin (margin_left dimensions)
                   + (Fin (Qn i) / Fin (Qn len - 1))
                     * Fin (chartWidth dimensions))%num in
                let y :=
                  Fin (margin_top dimensions + chartHeight dimensions + 20) in
                let timeLabel := formatTime clock (time candle) in
                [fillText timeLabel x y;
                 strokeStyle (or_else (gridColor config) "#2b2b43");
                 lineWidth 0.5;
                 beginPath;
                 moveTo x (Fin (margin_top dimensions + chartHeight dimensions));
                 lineTo x (Fin (margin_top dimensions + chartHeight dimensions + 5));
                 stroke]
            end)
         (stepped len 0 step len).

Definition render (clock : Clock) (dimensions : ChartDimensions)
           (range : PriceRange) (config : ChartOptions)
           (ohlc : list ChartOHLC) : list Cmd :=
  [strokeStyle (or_else (borderColor config) "#2b2b43");
   lineWidth 1;
   beginPath;
   moveTo (Fin (margin_left dimensions)) (Fin (margin_top dimensions));
   lineTo (Fin (margin_left dimensions))
          (Fin (margin_top dimensions + chartHeight dimensions));
   stroke;
   beginPath;
   moveTo (Fin (margin_left dimensions))
          (Fin (margin_top dimensions + chartHeight dimensions));
   lineTo (Fin (margin_left dimensions + chartWidth dimensions))
          (Fin (margin_top dimensions + chartHeight dimensions));
   stroke]
  ++ drawPriceLabels dimensions range config
  ++ drawTimeLabels clock dimensions config ohlc.

End AxesRenderer.

Module GridRenderer.

Definition render (dimensions : ChartDimensions) (config : ChartOptions)
  : list Cmd :=
  if negb (not_false (showGrid config)) then []
  else
    [strokeStyle (or_else (gridColor config) "#2b2b43");
     lineWidth 0.5]
    ++ flat_map
         (fun i =>
            let x := Fin (margin_left dimensions
                          + (Qn i / 10) * chartWidth dimensions) in
            [beginPath;
             moveTo x (Fin (margin_top dimensions));
             lineTo x (Fin (margin_top dimensions + chartHeight dimensions));
             stroke])
         (seq 0 11)
    ++ flat_map
         (fun i =>
            let y := Fin (margin_top dimensions
                          + (Qn i / 5) * chartHeight dimensions) in
            [beginPath;
             moveTo (Fin (margin_left dimensions)) y;
             lineTo (Fin (margin_left dimensions + chartWidth dimensions)) y;
             stroke])
         (seq 0 6).

End GridRenderer.

(** [VWAPData] and [EMAData]: a point of an overlay. *)
Record IndicatorPoint := mkPoint {
  p_time : Z;
  p_value : num
}.

(** The polyline the overlay renderers draw through their points:
    [points.forEach(point => ...)] between [beginPath] and [stroke]. *)
Definition overlay_path (dimensions : ChartDimensions) (range : PriceRange)
           (ohlc : list ChartOHLC) (spacing : num)
           (points : list IndicatorPoint) : list Cmd :=
  forEach
    (fun point _ =>
       match findIndex (fun candle => Z.eqb (time candle) (p_time point)) ohlc with
       | None => []
       | Some originalIndex =>
           let x := (Fin (margin_left dimensions)
                     + Fin (Qn originalIndex) * spacing
                     + spacing / Fin 2)%num in
           let y := priceY dimensions (maxPrice range) (priceRange range)
                           (p_value point) in
           if Nat.eqb originalIndex 0 then [moveTo x y] else [lineTo x y]
       end)
    points.

Module VWAPRenderer.

(** Loop state: [cumulativeVolumePrice], [cumulativeVolume], [vwapData]. *)
Definition state : Type := Q * Q * list IndicatorPoint.

Definition typicalPrice (candle : ChartOHLC) : Q :=
  (high candle + low candle + close candle) / 3.

(** The callback of [ohlc.forEach] in [calculateVWAP]. *)
Definition step (st : state) (candle : ChartOHLC) : state :=
  let '(cumulativeVolumePrice, cumulativeVolume, vwapData) := st in
  let volume := or_else (volume candle) 0 in
  let typicalPrice := typicalPrice candle in
  let cumulativeVolumePrice := cumulativeVolumePrice + typicalPrice * volume in
  let cumulativeVolume := cumulativeVolume + volume in
  let vwap := if Qltb 0 cumulativeVolume
              then cumulativeVolumePrice / cumulativeVolume
              else typicalPrice in
  (cumulativeVolumePrice, cumulativeVolume,
   vwapData ++ [mkPoint (time candle) (Fin vwap)]).

Definition calculateVWAP (ohlc : list ChartOHLC) : list IndicatorPoint :=
  if Nat.eqb (List.length ohlc) 0 then []
  else snd (fold_left step ohlc (0, 0, [])).

Definition render (dimensions : ChartDimensions) (range : PriceRange)
           (config : ChartOptions) (ohlc : list ChartOHLC) : list Cmd :=
  let vwapData := calculateVWAP ohlc in
  if Nat.eqb (List.length vwapData) 0 then []
  else
    let spacing := (Fin (chartWidth dimensions) / Fin (Qn (List.length ohlc)))%num in
    [strokeStyle (or_else (bar_color bullish config) "#ff6b6b");
     lineWidth 2;
     setLineDash [5; 5];
     beginPath]
    ++ overlay_path dimensions range ohlc spacing vwapData
    ++ [stroke;
        fillStyle (Color (or_else (bar_color bullish config) "#ff6b6b"));
        font (Str DEFAULT_FONT);
        textAlign "left";
        fillText (Str "VWAP") (Fin (margin_left dimensions + 5))
                 (Fin (margin_top dimensions + 20))].

End VWAPRenderer.

Module EMARenderer.

(** Loop state: [ema] and [emaData]. *)
Definition state : Type := num * list IndicatorPoint.

Definition step (multiplier : num) (st : state) (candle : ChartOHLC)
           (index : nat) : state :=
  let '(ema, emaData) := st in
  let ema := if Nat.eqb index 0 then Fin (close candle)
             else ((Fin (close candle) - ema) * multiplier + ema)%num in
  (ema, emaData ++ [mkPoint (time candle) ema]).

Fixpoint run (multiplier : num) (st : state) (candles : list ChartOHLC)
         (index : nat) : state :=
  match candles with
  | [] => st
  | candle :: rest => run multiplier (step multiplier st candle index) rest (S index)
  end.

Definition calculateEMA (period : Q) (ohlc : list ChartOHLC)
  : list IndicatorPoint :=
  match ohlc with
  | [] => []
  | first :: _ =>
      let multiplier := (Fin 2 / Fin (period + 1))%num in
      snd (run multiplier (Fin (close first), []) ohlc 0)
  end.

Definition render (dimensions : ChartDimensions) (range : PriceRange)
           (config : ChartOptions) (period : Q) (ohlc : list ChartOHLC)
  : list Cmd :=
  let emaData := calculateEMA period ohlc in
  if Nat.eqb (List.length emaData) 0 then []
  else
    let spacing := (Fin (chartWidth dimensions) / Fin (Qn (List.length ohlc)))%num in
    [strokeStyle (or_else (bar_color bearish config) "#ff6b6b");
     lineWidth 2;
     setLineDash [];
     beginPath]
    ++ overlay_path dimensions range ohlc spacing emaData
    ++ [stroke;
        fillStyle (Color (or_else (bar_color bearish config) "#ff6b6b"));
        font (Str DEFAULT_FONT);
        textAlign "left";
        fillText (Template "EMA(" period ")") (Fin (margin_left dimensions + 5))
                 (Fin (margin_top dimensions + 20))].

End EMARenderer.

Module LevelsRenderer.

Definition render (dimensions : ChartDimensions) (range : PriceRange)
           (levels : list HorizontalLevel) : list Cmd :=
  forEach
    (fun level _ =>
       let y := priceY dimensions (maxPrice range) (priceRange range)
                       (Fin (lv_value level)) in
       [strokeStyle (lv_color level);
        lineWidth 1;
        setLineDash (match lv_lineStyle level with
                     | dotted => [5; 5]
                     | solid => []
                     end);
        beginPath;
        moveTo (Fin (margin_left dimensions)) y;
        lineTo (Fin (width dimensions - margin_right dimensions)) y;
        stroke;
        setLineDash []]
       ++ (if truthy (lv_label level) then
             [fillStyle (Color (lv_color level));
              font (Str DEFAULT_FONT);
              textAlign "right";
              fillText (Str (or_else (lv_label level) ""))
                       (Fin (margin_left dimensions - 10)) (y - Fin 5)%num]
           else []))
    levels.

End LevelsRenderer.

Module TitleRenderer.

Definition render (width : Q) (config : ChartOptions) (title : string)
  : list Cmd :=
  if negb (not_false (showTitle config)) then []
  else
    [fillStyle (Color (or_else (textColor config) "#ffffff"));
     font (Str "bold 16px Arial");
     textAlign "center";
     fillText (Str title) (Fin (width / 2)) (Fin 30)].

End TitleRenderer.

Module WatermarkRenderer.

Definition render (width height : Q) (watermark : string + WatermarkConfig)
  : list Cmd :=
  let DEFAULT_POSITION := bottom_right in
  let DEFAULT_COLOR := "#ffffff" in
  let DEFAULT_FONT_SIZE := 12 in
  let DEFAULT_OPACITY := 0.3 in
  let '(text, position, color, fontSize, opacity) :=
    match watermark with
    | inl s =>
        (s, DEFAULT_POSITION, DEFAULT_COLOR, DEFAULT_FONT_SIZE, DEFAULT_OPACITY)
    | inr w =>
        (wm_text w,
         match wm_position w with Some p => p | None => DEFAULT_POSITION end,
         or_else (wm_color w) DEFAULT_COLOR,
         or_else (wm_fontSize w) DEFAULT_FONT_SIZE,
         or_else (wm_opacity w) DEFAULT_OPACITY)
    end in
  let '(x, y, align) :=
    match position with
    | top_left => (20, 20, "left")
    | top_right => (width - 20, 20, "right")
    | bottom_left => (20, height - 20, "left")
    | wm_center => (width / 2, height / 2, "center")
    | bottom_right | wm_top | wm_bottom =>
        (width - 20, height - 20, "right")
    end in
  [globalAlpha opacity;
   fillStyle (Color color);
   font (Template "" fontSize "px Arial");
   textAlign align;
   fillText (Str text) (Fin x) (Fin y);
   globalAlpha 1].

End WatermarkRenderer.

(* ------------------------------------------------------------------ *)
(** ** renderer/charts.ts

    Every chart-type renderer is constructed with the dimensions, the price
    range and the options ([ChartTypeRenderer]) and draws with [render]. *)

(** The wick and body of one candle, shared by the candlestick and the
    Heikin-Ashi renderer, which differ in the range they project with, in
    their default colours and in the optional border. *)
Definition candle_shape (dimensions : ChartDimensions) (config : ChartOptions)
           (maxPrice priceRange : Q) (candleWidth spacing : num)
           (bullishDefault bearishDefault wickDefault : string)
           (withBorder : bool) (candle : ChartOHLC) (index : nat) : list Cmd :=
  let x := (Fin (margin_left dimensions) + Fin (Qn index) * spacing
            + spacing / Fin 2)%num in
  let openY := priceY dimensions maxPrice priceRange (Fin (open candle)) in
  let closeY := priceY dimensions maxPrice priceRange (Fin (close candle)) in
  let highY := priceY dimensions maxPrice priceRange (Fin (high candle)) in
  let lowY := priceY dimensions maxPrice priceRange (Fin (low candle)) in
  let isBullish := Qleb (open candle) (close candle) in
  let color := if isBullish
               then or_else (bar_color bullish config) bullishDefault
               else or_else (bar_color bearish config) bearishDefault in
  let bodyHeight := nmax (Fin 1) (nabs (closeY - openY)%num) in
  let bodyY := nmin openY closeY in
  [strokeStyle (or_else (bar_color wick config) wickDefault);
   lineWidth 1;
   beginPath;
   moveTo x highY;
   lineTo x lowY;
   stroke;
   fillStyle (Color color);
   fillRect (x - candleWidth / Fin 2)%num bodyY candleWidth bodyHeight]
  ++ (if withBorder && truthy (bar_color border config) then
        [strokeStyle (or_else (bar_color border config) "");
         lineWidth 1;
         strokeRect (x - candleWidth / Fin 2)%num bodyY candleWidth bodyHeight]
      else []).

Module CandlestickRenderer.

Definition render (dimensions : ChartDimensions) (range : PriceRange)
           (config : ChartOptions) (candles : list ChartOHLC) : list Cmd :=
  let candleWidth :=
    nmax (Fin 1)
         ((Fin (chartWidth dimensions) / Fin (Qn (List.length candles)))
          * Fin 0.8)%num in
  let spacing :=
    (Fin (chartWidth dimensions) / Fin (Qn (List.length candles)))%num in
  forEach
    (candle_shape dimensions config (maxPrice range) (priceRange range)
                  candleWidth spacing "#26a69a" "#ef5350" "#424242" true)
    candles.

End CandlestickRenderer.

(** The polyline through the closes that the line and the area renderer
    draw. *)
Definition close_path (dimensions : ChartDimensions) (range : PriceRange)
           (spacing : num) (candles : list ChartOHLC) : list Cmd :=
  forEach
    (fun candle index =>
       let x := (Fin (margin_left dimensions) + Fin (Qn index) * spacing)%num in
       let y := priceY dimensions (maxPrice range) (priceRange range)
                       (Fin (close candle)) in
       if Nat.eqb index 0 then [moveTo x y] else [lineTo x y])
    candles.

Module LineRenderer.

Definition render (dimensions : ChartDimensions) (range : PriceRange)
           (config : ChartOptions) (candles : list ChartOHLC) : list Cmd :=
  let spacing :=
    (Fin (chartWidth dimensions) / Fin (Qn (List.length candles) - 1))%num in
  [strokeStyle (or_else (bar_color bullish config) "#26a69a");
   lineWidth 2;
   beginPath]
  ++ close_path dimensions range spacing candles
  ++ [stroke].

End LineRenderer.

Module AreaRenderer.

Definition render (dimensions : ChartDimensions) (range : PriceRange)
           (config : ChartOptions) (candles : list ChartOHLC) : list Cmd :=
  let spacing :=
    (Fin (chartWidth dimensions) / Fin (Qn (List.length candles) - 1))%num in
  let gradient :=
    LinearGradient
      (Fin 0) (Fin (margin_top dimensions))
      (Fin 0) (Fin (margin_top dimensions + chartHeight dimensions))
      [(0, or_else (bar_color bullish config) "#26a69a");
       (1, (or_else (bar_color bullish config) "#26a69a" ++ "40")%string)] in
  [fillStyle gradient;
   beginPath]
  ++ close_path dimensions range spacing candles
  ++ [lineTo (Fin (margin_left dimensions + chartWidth dimensions))
             (Fin (margin_top dimensions + chartHeight dimensions));
      lineTo (Fin (margin_left dimensions))
             (Fin (margin_top dimensions + chartHeight dimensions));
      closePath;
      fill;
      strokeStyle (or_else (bar_color bullish config) "#26a69a");
      lineWidth 2;
      beginPath]
  ++ close_path dimensions range spacing candles
  ++ [stroke].

End AreaRenderer.

Module HeikinAshiRenderer.

(** The body of the [for] loop of [calculateHeikinAshi] at index [i],
    with [ha] the array built so far.  [ohlc[i]] and [ha[i - 1]] exist
    whenever the loop reads them; the [None] branches are never taken. *)
Definition body (ohlc ha : list ChartOHLC) (i : nat) : list ChartOHLC :=
  match nth_error ohlc i with
  | None => ha
  | Some candle =>
      if Nat.eqb i 0 then
        ha ++ [mkOHLC (time candle) (open candle) (high candle)
                      (low candle) (close candle) (volume candle)]
      else
        match nth_error ha (i - 1) with
        | None => ha
        | Some prev =>
            let haClose :=
              (open candle + high candle + low candle + close candle) / 4 in
            let haOpen := (open prev + close prev) / 2 in
            let haHigh := Qmax (Qmax (high candle) haOpen) haClose in
            let haLow := Qmin (Qmin (low candle) haOpen) haClose in
            ha ++ [mkOHLC (time candle) haOpen haHigh haLow haClose
                          (volume candle)]
        end
  end.

(** The array [ha] after the iterations [0 .. n-1]. *)
Fixpoint loop (ohlc : list ChartOHLC) (n : nat) : list ChartOHLC :=
  match n with
  | O => []
  | S i => body ohlc (loop ohlc i) i
  end.

Definition calculateHeikinAshi (ohlc : list ChartOHLC) : list ChartOHLC :=
  loop ohlc (List.length ohlc).

(** [render] does not read the price range it was constructed with: it
    projects with the extremes of the Heikin-Ashi values.  For an empty
    series those are infinities, and nothing is drawn. *)
Definition render (dimensions : ChartDimensions) (range : PriceRange)
           (config : ChartOptions) (candles : list ChartOHLC) : list Cmd :=
  let haData := calculateHeikinAshi candles in
  let prices := prices_of haData in
  match Math_min prices, Math_max prices with
  | Some minPrice, Some maxPriceHA =>
      let priceRangeHA := maxPriceHA - minPrice in
      let candleWidth :=
        nmax (Fin 1)
             ((Fin (chartWidth dimensions) / Fin (Qn (List.length haData)))
              * Fin 0.8)%num in
      let spacing :=
        (Fin (chartWidth dimensions) / Fin (Qn (List.length haData)))%num in
      forEach
        (candle_shape dimensions config maxPriceHA priceRangeHA
                      candleWidth spacing "#4CAF50" "#F44336" "#666666" false)
        haData
  | _, _ => []
  end.

End HeikinAshiRenderer.

(** What can happen when a function of the source is called. *)
Inductive outcome (A : Type) : Type :=
  | Returns (a : A)
  | Throws
  | Diverges.
Arguments Returns {A} a.
Arguments Throws {A}.
Arguments Diverges {A}.

Definition bind {A B} (m : outcome A) (k : A -> outcome B) : outcome B :=
  match m with
  | Returns a => k a
  | Throws => Throws
  | Diverges => Diverges
  end.

Module RenkoRenderer.

(** [RenkoBlock]. *)
Record RenkoBlock := mkBlock {
  b_time : Z;
  b_open : Q;
  b_close : Q;
  b_high : Q;
  b_low : Q;
  direction : Q
}.

(** How often the inner loop runs for one candle: [Some n] for [n]
    iterations ([n <= 0]: none), [None] when [blocksNeeded] is [Infinity]
    and the loop never ends.  The cases with a zero divisor follow the
    doubles: [0 / 0] is NaN, which fails every comparison; [c / 0] with
    [c <> 0] is an infinity.  With a divisor that is not zero the quotient
    and its floor are the exact ones: the doubles of the code can floor a
    quotient that is a whole number of bricks one brick lower, and overflow
    to [Infinity] for a ratio beyond their range. *)
Definition blocksNeeded (priceChange currentPrice brickSize : Q) : option Z :=
  if Qeq_bool currentPrice 0 then
    if Qeq_bool priceChange 0 then Some 0%Z
    else if Qleb 0 brickSize then None
    else Some 0%Z
  else
    let priceChangePercent := Qabs (priceChange / currentPrice) in
    if Qleb brickSize priceChangePercent then
      if Qeq_bool brickSize 0 then
        if Qeq_bool priceChangePercent 0 then Some 0%Z else None
      else Some (Qfloor (priceChangePercent / brickSize))
    else Some 0%Z.

(** Loop state: [currentPrice] and the array [renko]. *)
Definition state : Type := Q * list RenkoBlock.

(** [n] iterations of the inner loop. *)
Fixpoint push_blocks (candle_time : Z) (direction brickSize : Q) (n : nat)
         (st : state) : state :=
  match n with
  | O => st
  | S n' =>
      let '(currentPrice, renko) := st in
      let newPrice := currentPrice + direction * brickSize * currentPrice in
      push_blocks candle_time direction brickSize n'
        (newPrice,
         renko ++ [mkBlock candle_time currentPrice newPrice
                           (Qmax currentPrice newPrice)
                           (Qmin currentPrice newPrice) direction])
  end.

(** One iteration of the outer loop. *)
Definition step (brickSize : Q) (st : state) (candle : ChartOHLC)
  : outcome state :=
  let currentPrice := fst st in
  let priceChange := close candle - currentPrice in
  match blocksNeeded priceChange currentPrice brickSize with
  | None => Diverges
  | Some n =>
      let direction := if Qltb 0 priceChange then 1 else -1 in
      Returns (push_blocks (time candle) direction brickSize (Z.to_nat n) st)
  end.

Fixpoint run (brickSize : Q) (st : state) (candles : list ChartOHLC)
  : outcome state :=
  match candles with
  | [] => Returns st
  | candle :: rest =>
      bind (step brickSize st candle) (fun st' => run brickSize st' rest)
  end.

(** [calculateRenko(ohlc, brickSize)]; reading [ohlc[0].close] throws on
    an empty array. *)
Definition calculateRenko (ohlc : list ChartOHLC) (brickSize : Q)
  : outcome (list RenkoBlock) :=
  match ohlc with
  | [] => Throws
  | first :: rest =>
      bind (run brickSize (close first, []) rest) (fun st => Returns (snd st))
  end.

Definition block_shape (dimensions : ChartDimensions) (config : ChartOptions)
           (maxPriceRenko priceRangeRenko : Q) (blockWidth spacing : num)
           (block : RenkoBlock) (index : nat) : list Cmd :=
  let x := (Fin (margin_left dimensions) + Fin (Qn index) * spacing
            + spacing / Fin 2)%num in
  let openY :=
    priceY dimensions maxPriceRenko priceRangeRenko (Fin (b_open block)) in
  let closeY :=
    priceY dimensions maxPriceRenko priceRangeRenko (Fin (b_close block)) in
  let isUp := Qltb 0 (direction block) in
  let color := if isUp
               then or_else (bar_color bullish config) "#26a69a"
               else or_else (bar_color bearish config) "#ef5350" in
  let blockHeight := nmax (Fin 1) (nabs (closeY - openY)%num) in
  let blockY := nmin openY closeY in
  [fillStyle (Color color);
   fillRect (x - blockWidth / Fin 2)%num blockY blockWidth blockHeight]
  ++ (if negb isUp then
        [strokeStyle color;
         lineWidth 2;
         strokeRect (x - blockWidth / Fin 2)%num blockY blockWidth blockHeight]
      else []).

(** [render] does not read the price range it was constructed with
    either: it projects with the extremes of the blocks. *)
Definition render (dimensions : ChartDimensions) (range : PriceRange)
           (config : ChartOptions) (candles : list ChartOHLC)
  : outcome (list Cmd) :=
  bind (calculateRenko candles 0.02)
    (fun renkoData =>
       if Nat.eqb (List.length renkoData) 0 then Returns []
       else
         let prices :=
           flat_map (fun block => [b_high block; b_low block]) renkoData in
         match Math_min prices, Math_max prices with
         | Some minPrice, Some maxPriceRenko =>
             let priceRangeRenko := maxPriceRenko - minPrice in
             let blockWidth :=
               nmax (Fin 10)
                    ((Fin (chartWidth dimensions)
                      / Fin (Qn (List.length renkoData))) * Fin 0.9)%num in
             let spacing :=
               (Fin (chartWidth dimensions)
                / Fin (Qn (List.length renkoData)))%num in
             Returns
               (forEach
                  (block_shape dimensions config maxPriceRenko priceRangeRenko
                               blockWidth spacing)
                  renkoData)
         | _, _ => Returns []
         end).

End RenkoRenderer.

(** The SMA overlay of renderer/elements.ts. *)
Module SMARenderer.

(** The inner loop of [calculateSMA]: [sum += ohlc[j].close] for the
    [period] indices from [start]. *)
Definition window_sum (ohlc : list ChartOHLC) (start period : nat) : Q :=
  fold_left (fun sum j =>
               match nth_error ohlc j with
               | Some candle => sum + close candle
               | None => sum
               end)
            (seq start period) 0.

(** [calculateSMA] for a period that is a non-negative integer.  With the
    period 0 the loop starts at index -1 and reading [ohlc[-1].time]
    throws. *)
Definition calculateSMA (period : nat) (ohlc : list ChartOHLC)
  : outcome (list IndicatorPoint) :=
  match period with
  | O => Throws
  | S _ =>
      if Nat.ltb (List.length ohlc) period then Returns []
      else
        Returns
          (flat_map
             (fun i =>
                match nth_error ohlc i with
                | None => []
                | Some candle =>
                    let sum := window_sum ohlc (i + 1 - period) period in
                    let sma := sum / Qn period in
                    [mkPoint (time candle) (Fin sma)]
                end)
             (seq (period - 1) (List.length ohlc - (period - 1))))
  end.

Definition render (dimensions : ChartDimensions) (range : PriceRange)
           (config : ChartOptions) (period : nat) (ohlc : list ChartOHLC)
  : outcome (list Cmd) :=
  bind (calculateSMA period ohlc)
    (fun smaData =>
       if Nat.eqb (List.length smaData) 0 then Returns []
       else
         let spacing :=
           (Fin (chartWidth dimensions) / Fin (Qn (List.length ohlc)))%num in
         Returns
           ([strokeStyle (or_else (bar_color bullish config) "#4ecdc4");
             lineWidth 2;
             setLineDash [];
             beginPath]
            ++ overlay_path dimensions range ohlc spacing smaData
            ++ [stroke;
                fillStyle (Color (or_else (bar_color bullish config) "#4ecdc4"));
                font (Str DEFAULT_FONT);
                textAlign "left";
                fillText (Template "SMA(" (Qn period) ")")
                         (Fin (margin_left dimensions + 5))
                         (Fin (margin_top dimensions + 40))])).

End SMARenderer.

(* ------------------------------------------------------------------ *)
(** ** renderer/index.ts *)

(** [config.watermark]: a non-empty string or a configuration object. *)
#[export] Instance Truthy_watermark : Truthy (string + WatermarkConfig) :=
  fun w => match w with inl s => truthy s | inr _ => true end.

Module NodeChartRenderer.

Section Renderer.

(** [LineBreakRenderer.render] is imported from renderer/charts but is
    not part of the sources at hand. *)
Variable LineBreakRenderer_render :
  ChartDimensions -> PriceRange -> ChartOptions -> list ChartOHLC -> list Cmd.

(** The wall clock and time zone of the process. *)
Variable clock : Clock.

(** [this.width] and [this.height]. *)
Variable width height : Q.

Definition drawChartType (ohlc : list ChartOHLC) (dimensions : ChartDimensions)
           (range : PriceRange) (config : ChartOptions)
  : outcome (list Cmd) :=
  match chartType config with
  | None | Some Candlestick =>
      Returns (CandlestickRenderer.render dimensions range config ohlc)
  | Some Line => Returns (LineRenderer.render dimensions range config ohlc)
  | Some Area => Returns (AreaRenderer.render dimensions range config ohlc)
  | Some HeikinAshi =>
      Returns (HeikinAshiRenderer.render dimensions range config ohlc)
  | Some Renko => RenkoRenderer.render dimensions range config ohlc
  | Some LineBreak =>
      Returns (LineBreakRenderer_render dimensions range config ohlc)
  end.

Definition dimensions_of (config : ChartOptions) : ChartDimensions :=
  let margin :=
    match margin config with
    | Some m => m
    | None => mkMargin (Some 60) (Some 40) (Some 60) (Some 40)
    end in
  let chartWidth := width - or_else (left margin) 0 - or_else (right margin) 0 in
  let chartHeight := height - or_else (top margin) 0 - or_else (bottom margin) 0 in
  mkDimensions width height
               (or_else (top margin) 0) (or_else (bottom margin) 0)
               (or_else (left margin) 0) (or_else (right margin) 0)
               chartWidth chartHeight.

(** The layers drawn after the chart type, all with the one
    [priceRange] of [drawChart]. *)
Definition overlays (chartData : NodeChartData) (dimensions : ChartDimensions)
           (range : PriceRange) : list Cmd :=
  let ohlc := ohlc chartData in
  let config := config chartData in
  (if truthy (showVWAP config) && hasVolumeData ohlc
   then VWAPRenderer.render dimensions range config ohlc else [])
  ++ (if truthy (showEMA config) && truthy (emaPeriod config)
      then EMARenderer.render dimensions range config
                              (or_else (emaPeriod config) 0) ohlc
      else [])
  ++ (match levels chartData with
      | Some levels => LevelsRenderer.render dimensions range levels
      | None => []
      end)
  ++ (if not_false (showGrid config)
      then GridRenderer.render dimensions config else [])
  ++ AxesRenderer.render clock dimensions range config ohlc.

Definition drawChart (chartData : NodeChartData) : outcome (list Cmd) :=
  let ohlc := ohlc chartData in
  let config := config chartData in
  if Nat.eqb (List.length ohlc) 0 then Returns []
  else
    let dimensions := dimensions_of config in
    match calculatePriceRange ohlc config with
    | None => Returns []  (* not reached: [ohlc] is not empty *)
    | Some priceRange =>
        bind (drawChartType ohlc dimensions priceRange config)
          (fun shape => Returns (shape ++ overlays chartData dimensions priceRange))
    end.

Definition renderChart (data : NodeChartData) : outcome (list Cmd) :=
  let config := config data in
  bind (drawChart data)
    (fun chart =>
       Returns
         ([clearRect (Fin 0) (Fin 0) (Fin width) (Fin height);
           fillStyle (Color (or_else (backgroundColor config) "#1e222d"));
           fillRect (Fin 0) (Fin 0) (Fin width) (Fin height)]
          ++ chart
          ++ (if not_false (showTitle config) && truthy (title config)
              then TitleRenderer.render width config (or_else (title config) "")
              else [])
          ++ (match watermark config with
              | Some w => if truthy w
                          then WatermarkRenderer.render width height w else []
              | None => []
              end))).

End Renderer.

End NodeChartRenderer.

(* ------------------------------------------------------------------ *)
(** ** renderer/comparison.ts *)

Inductive LayoutType := side_by_side | grid_layout.

(** [ComparisonLayout]; column and row counts are integers. *)
Record ComparisonLayout := mkLayout {
  layout_type : LayoutType;
  columns : option Z;
  rows : option Z;
  gap : option Q
}.

(** The [position] of a chart on the comparison canvas. *)
Record Position := mkPosition {
  pos_x : num;
  pos_y : num;
  pos_width : num;
  pos_height : num
}.

Module ComparisonRenderer.

(** [ComparisonChart]. *)
Record ComparisonChart := mkChart {
  data : NodeChartData;
  position : Position
}.

Section Renderer.

(** [this.width], [this.height], [this.layout]. *)
Variable width height : Q.
Variable layout : ComparisonLayout.

(** [calculatePosition(index, totalCharts)], with [charts] the value of
    [this.charts] at the call.  In the grid branch a negative column
    count makes [rows] the negative zero when the quotient rounds up
    to zero, and the division by it flips the sign of the infinity. *)
Definition calculatePosition (charts : list ComparisonChart) (index : nat)
           (totalCharts : option nat) : Position :=
  let gap := or_else (gap layout) 10 in
  match layout_type layout with
  | side_by_side =>
      let chartWidth := (width - gap) / Qn (Nat.max (List.length charts) 2) in
      mkPosition (Fin (Qn index * (chartWidth + gap))) (Fin 0)
                 (Fin chartWidth) (Fin height)
  | grid_layout =>
      let total := match totalCharts with
                   | Some (S n) => S n
                   | _ => List.length charts
                   end in
      let maxCharts := Z.of_nat (Nat.min total 2) in
      let columns := Z.min (or_else (columns layout) 2%Z) 2 in
      let rows := Qceiling (inject_Z maxCharts / inject_Z columns) in
      let chartWidth :=
        (width - inject_Z (columns - 1) * gap) / inject_Z columns in
      let chartHeight :=
        let numerator := height - inject_Z (rows - 1) * gap in
        if Z.eqb rows 0 then
          if Z.ltb columns 0 then inf_of_sign (0 ?= numerator)
          else inf_of_sign (numerator ?= 0)
        else Fin (numerator / inject_Z rows) in
      let row := Qfloor (Qn index / inject_Z columns) in
      let col := Z.rem (Z.of_nat index) columns in
      mkPosition (Fin (inject_Z col * (chartWidth + gap)))
                 (Fin (inject_Z row) * (chartHeight + Fin gap))%num
                 (Fin chartWidth) chartHeight
  end.

(** [addChart(chartData, position)]: the new value of [this.charts]. *)
Definition addChart (charts : list ComparisonChart) (chartData : NodeChartData)
           (position : option Position) : list ComparisonChart :=
  let defaultPosition :=
    calculatePosition charts (List.length charts) (Some (S (List.length charts))) in
  charts ++ [mkChart chartData
                     (match position with
                      | Some p => p
                      | None => defaultPosition
                      end)].

(** [this.charts] after [addChart] was called for each chart in
    turn, without a custom position. *)
Definition addCharts (chartsData : list NodeChartData) : list ComparisonChart :=
  fold_left (fun charts chartData => addChart charts chartData None)
            chartsData [].

(** [adjustMargins(originalMargin, width, height)]. *)
Definition adjustMargins (originalMargin : option Margin) (width height : Q)
  : Margin :=
  let scale := Qmin (width / 800) (height / 600) in
  let defaultMargin := mkMargin (Some 60) (Some 40) (Some 60) (Some 40) in
  let margin := match originalMargin with
                | Some m => m
                | None => defaultMargin
                end in
  mkMargin (Some (Qmax (or_else (top margin) 60 * scale) 20))
           (Some (Qmax (or_else (bottom margin) 40 * scale) 15))
           (Some (Qmax (or_else (left margin) 60 * scale) 20))
           (Some (Qmax (or_else (right margin) 40 * scale) 15)).

(** The [adjustedData] of [renderChartInPosition] for a cell of a finite
    size: the data of the chart with the margins adjusted to the cell
    (the renderer itself is constructed with the size of the cell). *)
Definition adjustedData (chartData : NodeChartData) (cellWidth cellHeight : Q)
  : NodeChartData :=
  let c := config chartData in
  mkData (ohlc chartData) (levels chartData)
         (mkOptions (backgroundColor c) (textColor c) (gridColor c)
                    (borderColor c) (chartType c) (customBarColors c)
                    (title c) (showTitle c) (showTimeAxis c) (showGrid c)
                    (showVWAP c) (showEMA c) (emaPeriod c)
                    (Some (adjustMargins (margin c) cellWidth cellHeight))
                    (scale c) (watermark c)).

End Renderer.

End ComparisonRenderer.

(* ------------------------------------------------------------------ *)
(** ** The chart utilities *)

(** [ChartData]: a candle as the data provider returns it. *)
Record ChartData := mkChartData {
  timestamp : Z;
  cd_open : Q;
  cd_high : Q;
  cd_low : Q;
  cd_close : Q;
  cd_volume : option Q
}.

Module ChartUtils.

(** [xs.slice(a, b)] for [0 <= a]. *)
Definition slice {A} (xs : list A) (a b : nat) : list A :=
  firstn (b - a) (skipn a xs).

(** [calculateMovingAverage(data, period)] for a period that is a
    natural number.  With the period 0 the loop starts at [-1] and every
    slice is empty: each of the [length + 1] results is [0 / 0]. *)
Definition calculateMovingAverage (data : list Q) (period : nat) : list num :=
  if Nat.ltb (List.length data) period then []
  else
    match period with
    | O => repeat NaN (S (List.length data))
    | S p =>
        map (fun i =>
               let sum := fold_left Qplus (slice data (i - p) (i + 1)) 0 in
               (Fin sum / Fin (Qn period))%num)
            (seq p (List.length data - p))
    end.

(** [calculateRSIForPeriod(data, index, period)]; [calculateRSI] calls it
    with [period <= index < data.length], so that every index it reads is
    one of the array. *)
Definition calculateRSIForPeriod (data : list Q) (index period : nat) : num :=
  let '(gains, losses) :=
    fold_left
      (fun '(gains, losses) i =>
         let change := nth i data 0 - nth (i - 1) data 0 in
         if Qltb 0 change then (gains + change, losses)
         else (gains, losses - change))
      (seq (index + 1 - period) period) (0, 0) in
  let avgGain := (Fin gains / Fin (Qn period))%num in
  let avgLoss := (Fin losses / Fin (Qn period))%num in
  if match avgLoss with Fin l => Qeq_bool l 0 | _ => false end then Fin 100
  else
    let rs := (avgGain / avgLoss)%num in
    (Fin 100 - Fin 100 / (Fin 1 + rs))%num.

(** [calculateRSI(data, period)]. *)
Definition calculateRSI (data : list Q) (period : nat) : list num :=
  if Nat.ltb (List.length data) (period + 1) then []
  else
    map (fun i => calculateRSIForPeriod data i period)
        (seq period (List.length data - period)).

(** [calculateVWAP(data)]: one value for the whole series. *)
Definition calculateVWAP (data : list ChartData) : Q :=
  if Nat.eqb (List.length data) 0 then 0
  else
    let '(totalVolume, totalVolumePrice) :=
      fold_left
        (fun '(totalVolume, totalVolumePrice) item =>
           let volume := or_else (cd_volume item) 0 in
           let typicalPrice := (cd_high item + cd_low item + cd_close item) / 3 in
           (totalVolume + volume, totalVolumePrice + volume * typicalPrice))
        data (0, 0) in
    if Qltb 0 totalVolume then totalVolumePrice / totalVolume else 0.

End ChartUtils.

(* ------------------------------------------------------------------ *)
(** ** The comparison service: [ComparisonService] *)

Module ComparisonService.

(** [ComparisonConfig]; in a [Partial<ComparisonConfig>] [symbols] is
    optional as well. *)
Record PartialConfig := mkConfig {
  symbols : option (list string);
  timeframe : option string;
  timeframes : option (list string);
  exchange : option string;
  layout : option ComparisonLayout;
  cfg_width : option Q;
  cfg_height : option Q;
  theme : option string;
  cfg_chartType : option string;
  cfg_showVWAP : option bool;
  cfg_showEMA : option bool;
  cfg_emaPeriod : option Q;
  outputPath : option string;
  cfg_customBarColors : option BarColors
}.

(** [{ ...base, ...config }]: a property of [config] that is present
    wins. *)
Definition over {A} (later earlier : option A) : option A :=
  match later with Some a => Some a | None => earlier end.

Definition spread (base config : PartialConfig) : PartialConfig :=
  mkConfig (over (symbols config) (symbols base))
           (over (timeframe config) (timeframe base))
           (over (timeframes config) (timeframes base))
           (over (exchange config) (exchange base))
           (over (layout config) (layout base))
           (over (cfg_width config) (cfg_width base))
           (over (cfg_height config) (cfg_height base))
           (over (theme config) (theme base))
           (over (cfg_chartType config) (cfg_chartType base))
           (over (cfg_showVWAP config) (cfg_showVWAP base))
           (over (cfg_showEMA config) (cfg_showEMA base))
           (over (cfg_emaPeriod config) (cfg_emaPeriod base))
           (over (outputPath config) (outputPath base))
           (over (cfg_customBarColors config) (cfg_customBarColors base)).

Definition empty_config : PartialConfig :=
  mkConfig None None None None None None None None None None None None None None.

(** [symbols.join(', ')]. *)
Fixpoint join (sep : string) (xs : list string) : string :=
  match xs with
  | [] => ""
  | [x] => x
  | x :: rest => x ++ sep ++ join sep rest
  end.

(** A count and an integer in a template literal. *)
Definition string_of_nat (n : nat) : string :=
  NilZero.string_of_uint (Nat.to_uint n).

Definition string_of_Z (z : Z) : string :=
  NilZero.string_of_int (Z.to_int z).

(** The [ohlc] of [createChartData(data, config)]: the candles of the data
    provider with [timestamp] renamed to [time]. *)
Definition createChartData_ohlc (data : list ChartData) : list ChartOHLC :=
  map (fun item =>
         mkOHLC (timestamp item) (cd_open item) (cd_high item) (cd_low item)
                (cd_close item) (cd_volume item))
      data.

Section Service.

(** The image buffer, and what a run of [generateComparison] does to
    the outside (fetching, rendering, writing the file) together with
    its result. *)
Variable Buffer : Type.
Variable Effect : Type.

(** [ComparisonResult]. *)
Record ComparisonResult := mkResult {
  success : bool;
  res_outputPath : option string;
  error : option string;
  buffer : option Buffer
}.

Variable generateComparison : PartialConfig -> list Effect * ComparisonResult.

(** [ComparisonService.grid(symbols, columns, outputPath, config)]. *)
Definition grid (symbols : list string) (columns : Z) (outputPath : string)
           (config : option PartialConfig) : list Effect * ComparisonResult :=
  if Nat.ltb 2 (List.length symbols) then
    ([], mkResult false None
           (Some ("Grid layout supports maximum 2 symbols. Got "
                  ++ string_of_nat (List.length symbols)
                  ++ " symbols: " ++ join ", " symbols)%string)
           None)
  else if Z.ltb 2 columns then
    ([], mkResult false None
           (Some ("Grid layout supports maximum 2 columns. Got "
                  ++ string_of_Z columns ++ " columns")%string)
           None)
  else
    generateComparison
      (spread (mkConfig (Some symbols) None None None
                        (Some (mkLayout grid_layout (Some columns) None (Some 15)))
                        None None None None None None None
                        (Some outputPath) None)
              (match config with Some c => c | None => empty_config end)).

(** [ComparisonService.sideBySide(symbols, outputPath, config)]. *)
Definition sideBySide (symbols : list string) (outputPath : string)
           (config : option PartialConfig) : list Effect * ComparisonResult :=
  generateComparison
    (spread (mkConfig (Some symbols) None None None
                      (Some (mkLayout side_by_side None None (Some 20)))
                      None None None None None None None
                      (Some outputPath) None)
            (match config with Some c => c | None => empty_config end)).

End Service.

Section Charts.

(** [generateChartData(symbol, timeframe)]: the chart data fetched for a
    symbol, or [null] ([None]) when the chart could not be generated. *)
Variable generateChartData : string -> option string -> option NodeChartData.

(** The canvas size and layout of the comparison renderer. *)
Variable width height : Q.
Variable layout : ComparisonLayout.

(** [if (chartData) comparisonRenderer.addChart(chartData)]. *)
Definition add_if_generated (charts : list ComparisonRenderer.ComparisonChart)
           (chartData : option NodeChartData)
  : list ComparisonRenderer.ComparisonChart :=
  match chartData with
  | Some d => ComparisonRenderer.addChart width height layout charts d None
  | None => charts
  end.

(** [addTimeframeCharts]: the charts of the renderer after the loop. *)
Definition addTimeframeCharts (timeframes : list string)
           (charts : list ComparisonRenderer.ComparisonChart)
           (symbols : list string)
  : list ComparisonRenderer.ComparisonChart :=
  let maxCharts := Nat.min (List.length symbols) (List.length timeframes) in
  fold_left
    (fun charts i =>
       match nth_error symbols 0, nth_error timeframes i with
       | Some symbol, Some timeframe =>
           add_if_generated charts (generateChartData symbol (Some timeframe))
       | _, _ => charts
       end)
    (seq 0 maxCharts) charts.

(** [addSymbolCharts]. *)
Definition addSymbolCharts (charts : list ComparisonRenderer.ComparisonChart)
           (symbols : list string)
  : list ComparisonRenderer.ComparisonChart :=
  fold_left
    (fun charts symbol => add_if_generated charts (generateChartData symbol None))
    symbols charts.

(** [addChartsToRenderer], started on a new renderer. *)
Definition addChartsToRenderer (timeframes : option (list string))
           (symbols : list string)
  : list ComparisonRenderer.ComparisonChart :=
  match timeframes with
  | Some (t :: ts) => addTimeframeCharts (t :: ts) [] symbols
  | _ => addSymbolCharts [] symbols
  end.

End Charts.

(** The charts [generateComparison] renders for a configuration: those of
    a renderer of the configured size (1600 by 800 unless given) and layout
    (side by side unless given). *)
Definition comparison_charts
           (generateChartData : string -> option string -> option NodeChartData)
           (config : PartialConfig)
  : list ComparisonRenderer.ComparisonChart :=
  addChartsToRenderer
    generateChartData
    (match cfg_width config with Some w => w | None => 1600 end)
    (match cfg_height config with Some h => h | None => 800 end)
    (match layout config with
     | Some l => l
     | None => mkLayout side_by_side None None None
     end)
    (timeframes config)
    (match symbols config with Some s => s | None => [] end).

(** The configuration [timeframeComparison(symbol, timeframes, outputPath,
    config)] builds its service with. *)
Definition timeframeComparison_config (symbol : string) (timeframes : list string)
           (outputPath : string) (config : option PartialConfig) : PartialConfig :=
  spread (mkConfig (Some [symbol]) None (Some timeframes) None
                   (Some (mkLayout side_by_side None None (Some 20)))
                   None None None None None None None
                   (Some outputPath) None)
         (match config with Some c => c | None => empty_config end).

Arguments mkResult {Buffer} success res_outputPath error buffer.
Arguments success {Buffer} c.
Arguments error {Buffer} c.
Arguments grid {Buffer Effect} generateComparison symbols columns outputPath config.
Arguments sideBySide {Buffer Effect} generateComparison symbols outputPath config.

End ComparisonService.

(* ------------------------------------------------------------------ *)
(** ** Vocabulary of the specification *)

(** [m] is the least (greatest) element of [xs]. *)
Definition is_minimum (m : Q) (xs : list Q) : Prop :=
  (exists x, In x xs /\ x == m) /\ forall x, In x xs -> m <= x.

Definition is_maximum (m : Q) (xs : list Q) : Prop :=
  (exists x, In x xs /\ x == m) /\ forall x, In x xs -> x <= m.

(** The invariant of a candle in the data model, and the part of it the
    price range relies on. *)
Definition Candle_invariant (c : ChartOHLC) : Prop :=
  Qmax (open c) (close c) <= high c /\ low c <= Qmin (open c) (close c).

Definition low_below_high (c : ChartOHLC) : Prop := low c <= high c.

(** No scale option is set: no auto-scale, no multiplier, no clamp. *)
Definition no_scale_options (config : ChartOptions) : Prop :=
  truthy (scale_field autoScale config) = false
  /\ truthy (scale_field scale_x config) = false
  /\ truthy (scale_field scale_y config) = false
  /\ scale_field minScale config = None
  /\ scale_field maxScale config = None.

(** A multiplier that is set and not zero rescales; otherwise the bounds
    stay. *)
Definition multiplied (m : option Q) (b : Q * Q) : Q * Q :=
  if truthy m then rescale (or_else m 0) b else b.

(** The series is flat: all its highs and lows are one price. *)
Definition flat (ohlc : list ChartOHLC) : Prop :=
  forall p q, In p (prices_of ohlc) -> In q (prices_of ohlc) -> p == q.

(** A message cites a phrase when the phrase occurs in it. *)
Definition cites (message phrase : string) : Prop :=
  exists before after, message = (before ++ phrase ++ after)%string.

(** A volume that is absent counts as zero. *)
Definition volume_or_zero (c : ChartOHLC) : Q :=
  match volume c with Some v => v | None => 0 end.

Definition Qsum (xs : list Q) : Q := fold_right Qplus 0 xs.

(** The running sums of VWAP up to and including candle [i]. *)
Definition running_volume (ohlc : list ChartOHLC) (i : nat) : Q :=
  Qsum (map volume_or_zero (firstn (S i) ohlc)).

Definition running_volume_price (ohlc : list ChartOHLC) (i : nat) : Q :=
  Qsum (map (fun c => volume_or_zero c * ((high c + low c + close c) / 3))
            (firstn (S i) ohlc)).






(** ** Sample inputs *)

(** Two candles of 1 January 1970, an hour apart. *)
Definition two_candles : list ChartOHLC :=
  [mkOHLC 0 100 110 90 105 None; mkOHLC 3600000 105 120 95 98 None].

(** A single candle whose prices are all 100. *)
Definition flat_candle : ChartOHLC := mkOHLC 0 100 100 100 100 None.


Definition renko_options : ChartOptions :=
  mkOptions None None None None (Some Renko) None None None None None None None
            None None None None.

(** A stand-in for the line-break renderer, for renders of other chart
    types. *)
Definition no_line_break (_ : ChartDimensions) (_ : PriceRange)
           (_ : ChartOptions) (_ : list ChartOHLC) : list Cmd := [].

(** ** Vocabulary of the further properties *)

(** The configuration with the two clamps taken out. *)
Definition unclamped (config : ChartOptions) : ChartOptions :=
  mkOptions (backgroundColor config) (textColor config) (gridColor config)
            (borderColor config) (chartType config) (customBarColors config)
            (title config) (showTitle config) (showTimeAxis config)
            (showGrid config) (showVWAP config) (showEMA config)
            (emaPeriod config) (margin config)
            (match scale config with
             | Some s => Some (mkScale (scale_x s) (scale_y s) (autoScale s)
                                       None None)
             | None => None
             end)
            (watermark config).

(** Bricks that continue one another: the first opens at [start] and
    each next one opens where the one before closed. *)
Fixpoint chained (start : Q) (blocks : list RenkoRenderer.RenkoBlock) : Prop :=
  match blocks with
  | [] => True
  | block :: rest =>
      RenkoRenderer.b_open block = start
      /\ chained (RenkoRenderer.b_close block) rest
  end.

(** A brick of the given relative size: it moves its open by that fraction
    of the open, up or down, and its high and low are its two ends. *)
Definition brick_of_size (brickSize : Q) (block : RenkoRenderer.RenkoBlock)
  : Prop :=
  (RenkoRenderer.direction block = 1 \/ RenkoRenderer.direction block = -1)
  /\ RenkoRenderer.b_close block
     = RenkoRenderer.b_open block
       + RenkoRenderer.direction block * brickSize * RenkoRenderer.b_open block
  /\ RenkoRenderer.b_high block
     = Qmax (RenkoRenderer.b_open block) (RenkoRenderer.b_close block)
  /\ RenkoRenderer.b_low block
     = Qmin (RenkoRenderer.b_open block) (RenkoRenderer.b_close block).

(** The close of the last brick of a chain that starts at [start]. *)
Definition last_close (start : Q) (blocks : list RenkoRenderer.RenkoBlock) : Q :=
  fold_left (fun _ b => RenkoRenderer.b_close b) blocks start.

(** What the loops of [calculateRenko] keep: the bricks are chained from
    the first close, the current price is the close of the last brick, each
    brick has the brick size, and each carries the time of a candle. *)
Definition renko_invariant (brickSize start : Q) (candles : list ChartOHLC)
           (st : RenkoRenderer.state) : Prop :=
  chained start (snd st)
  /\ fst st = last_close start (snd st)
  /\ Forall (brick_of_size brickSize) (snd st)
  /\ Forall (fun b => exists c, In c candles /\ RenkoRenderer.b_time b = time c)
            (snd st).

(** The chart data the symbol mode of the comparison service obtains:
    those of the symbols whose chart could be generated, in the order of
    the symbols. *)
Definition generated
           (generateChartData : string -> option string -> option NodeChartData)
           (symbols : list string) : list NodeChartData :=
  flat_map (fun symbol =>
              match generateChartData symbol None with
              | Some d => [d]
              | None => []
              end) symbols.

(** The plot area of a chart drawn in a cell of a comparison. *)
Definition cell_dimensions (chartData : NodeChartData) (cellWidth cellHeight : Q)
  : ChartDimensions :=
  NodeChartRenderer.dimensions_of
    cellWidth cellHeight
    (config (ComparisonRenderer.adjustedData chartData cellWidth cellHeight)).

(** The number of texts a sequence of drawing commands writes. *)
Definition is_fillText (cmd : Cmd) : bool :=
  match cmd with
  | fillText _ _ _ => true
  | _ => false
  end.

Definition texts_drawn (cmds : list Cmd) : nat :=
  List.length (filter is_fillText cmds).

(** A point of the canvas lies in the plot area, and every vertex of the
    paths of a sequence of drawing commands does. *)
Definition in_plot_area (dimensions : ChartDimensions) (x y : num) : Prop :=
  match x, y with
  | Fin x, Fin y =>
      margin_left dimensions <= x
      /\ x <= margin_left dimensions + chartWidth dimensions
      /\ margin_top dimensions <= y
      /\ y <= margin_top dimensions + chartHeight dimensions
  | _, _ => False
  end.

Definition vertices_in_plot_area (dimensions : ChartDimensions)
           (cmds : list Cmd) : Prop :=
  Forall (fun cmd =>
            match cmd with
            | moveTo x y | lineTo x y => in_plot_area dimensions x y
            | _ => True
            end) cmds.

(** The vertex an overlay draws for the point of the candle at an index:
    at the centre of the slot of that candle. *)
Definition vertex_at (dimensions : ChartDimensions) (range : PriceRange)
           (spacing : num) (point : IndicatorPoint) (index : nat) : list Cmd :=
  let x := (Fin (margin_left dimensions) + Fin (Qn index) * spacing
            + spacing / Fin 2)%num in
  let y := priceY dimensions (maxPrice range) (priceRange range)
                  (p_value point) in
  if Nat.eqb index 0 then [moveTo x y] else [lineTo x y].

(* ================================================================== *)
(** * Properties *)

(** ** Minimum and maximum of an argument list *)

Lemma Qmin_cases (x y : Q) : Qmin x y = x \/ Qmin x y = y.
Proof.
  unfold Qmin, GenericMinMax.gmin. destruct (x ?= y); auto.
Qed.

Lemma Qmax_cases (x y : Q) : Qmax x y = x \/ Qmax x y = y.
Proof.
  unfold Qmax, GenericMinMax.gmax. destruct (x ?= y); auto.
Qed.

Lemma fold_min_in (xs : list Q) : forall x, In (fold_left Qmin xs x) (x :: xs).
Proof.
  induction xs as [|y ys IH]; intros x; simpl.
  - now left.
  - destruct (IH (Qmin x y)) as [H|H].
    + rewrite <- H. destruct (Qmin_cases x y) as [E|E]; rewrite E; auto.
    + auto.
Qed.

Lemma fold_max_in (xs : list Q) : forall x, In (fold_left Qmax xs x) (x :: xs).
Proof.
  induction xs as [|y ys IH]; intros x; simpl.
  - now left.
  - destruct (IH (Qmax x y)) as [H|H].
    + rewrite <- H. destruct (Qmax_cases x y) as [E|E]; rewrite E; auto.
    + auto.
Qed.

Lemma fold_min_le (xs : list Q) :
  forall x z, In z (x :: xs) -> fold_left Qmin xs x <= z.
Proof.
  induction xs as [|y ys IH]; intros x z Hz; simpl.
  - destruct Hz as [<-|[]]. apply Qle_refl.
  - destruct Hz as [<-|[<-|Hz]].
    + apply Qle_trans with (Qmin x y); [apply IH; now left | apply Q.le_min_l].
    + apply Qle_trans with (Qmin x y); [apply IH; now left | apply Q.le_min_r].
    + apply IH. now right.
Qed.

Lemma fold_max_ge (xs : list Q) :
  forall x z, In z (x :: xs) -> z <= fold_left Qmax xs x.
Proof.
  induction xs as [|y ys IH]; intros x z Hz; simpl.
  - destruct Hz as [<-|[]]. apply Qle_refl.
  - destruct Hz as [<-|[<-|Hz]].
    + apply Qle_trans with (Qmax x y); [apply Q.le_max_l | apply IH; now left].
    + apply Qle_trans with (Qmax x y); [apply Q.le_max_r | apply IH; now left].
    + apply IH. now right.
Qed.

Lemma Math_min_spec (xs : list Q) (m : Q) :
  Math_min xs = Some m -> In m xs /\ forall z, In z xs -> m <= z.
Proof.
  destruct xs as [|x xs]; simpl; [discriminate|].
  intros [= <-]. split; [apply fold_min_in | apply fold_min_le].
Qed.

Lemma Math_max_spec (xs : list Q) (m : Q) :
  Math_max xs = Some m -> In m xs /\ forall z, In z xs -> z <= m.
Proof.
  destruct xs as [|x xs]; simpl; [discriminate|].
  intros [= <-]. split; [apply fold_max_in | apply fold_max_ge].
Qed.

Lemma prices_of_in (ohlc : list ChartOHLC) (p : Q) :
  In p (prices_of ohlc) <-> exists c, In c ohlc /\ (p = high c \/ p = low c).
Proof.
  unfold prices_of. rewrite in_flat_map. split.
  - intros (c & Hc & [E|[E|[]]]); exists c; auto.
  - intros (c & Hc & [E|E]); exists c; subst; simpl; auto.
Qed.

Lemma prices_nonempty (ohlc : list ChartOHLC) :
  ohlc <> [] ->
  exists lo hi, Math_min (prices_of ohlc) = Some lo
                /\ Math_max (prices_of ohlc) = Some hi.
Proof.
  destruct ohlc as [|c rest]; [congruence|]. intros _. simpl. eauto.
Qed.

Lemma base_min_le_max (ohlc : list ChartOHLC) (lo hi : Q) :
  Math_min (prices_of ohlc) = Some lo ->
  Math_max (prices_of ohlc) = Some hi -> lo <= hi.
Proof.
  intros Hlo Hhi.
  apply Math_min_spec in Hlo as [Hin Hle].
  apply Math_max_spec in Hhi as [_ Hge]. now apply Hge.
Qed.

(** ** The scaling engine *)

(** [calculatePriceRange] as the chain of its stages. *)
Lemma calculatePriceRange_stages (ohlc : list ChartOHLC) (config : ChartOptions)
      (lo hi : Q) :
  Math_min (prices_of ohlc) = Some lo ->
  Math_max (prices_of ohlc) = Some hi ->
  calculatePriceRange ohlc config =
  let b := if truthy (scale_field autoScale config) then pad (lo, hi) else (lo, hi) in
  let b := multiplied (scale_field scale_y config)
                      (multiplied (scale_field scale_x config) b) in
  let minPrice := match scale_field minScale config with
                  | Some m => Qmax (fst b) m
                  | None => fst b
                  end in
  let maxPrice := match scale_field maxScale config with
                  | Some m => Qmin (snd b) m
                  | None => snd b
                  end in
  Some (mkPriceRange minPrice maxPrice (maxPrice - minPrice)).
Proof.
  intros Hlo Hhi. unfold calculatePriceRange. rewrite Hlo, Hhi.
  unfold multiplied.
  destruct (truthy (scale_field autoScale config));
    destruct (scale_field scale_x config) as [x|];
    destruct (scale_field scale_y config) as [y|];
    cbn [truthy Truthy_option or_else];
    repeat match goal with
           | |- context [if truthy ?v then _ else _] => destruct (truthy v)
           end;
    repeat match goal with
           | |- context [let '(_, _) := ?p in _] => destruct p
           end;
    reflexivity.
Qed.

Lemma calculatePriceRange_plain (ohlc : list ChartOHLC) (config : ChartOptions)
      (lo hi : Q) :
  Math_min (prices_of ohlc) = Some lo ->
  Math_max (prices_of ohlc) = Some hi ->
  no_scale_options config ->
  calculatePriceRange ohlc config = Some (mkPriceRange lo hi (hi - lo)).
Proof.
  intros Hlo Hhi (Ha & Hx & Hy & Hmin & Hmax).
  rewrite (calculatePriceRange_stages _ _ _ _ Hlo Hhi).
  unfold multiplied. rewrite Ha, Hx, Hy, Hmin, Hmax. reflexivity.
Qed.

Lemma Candle_invariant_low_below_high (c : ChartOHLC) :
  Candle_invariant c -> low_below_high c.
Proof.
  intros [Hh Hl]. unfold low_below_high.
  apply Qle_trans with (Qmin (open c) (close c)); [exact Hl|].
  apply Qle_trans with (open c); [apply Q.le_min_l|].
  apply Qle_trans with (Qmax (open c) (close c)); [apply Q.le_max_l | exact Hh].
Qed.

(** C1.  For a non-empty series of candles (each with its low at most its
    high, as the invariant of a candle has it) and no scale option set,
    [calculatePriceRange] returns a range whose [minPrice] is the least low,
    whose [maxPrice] is the greatest high and whose [priceRange] is their
    difference. *)
Theorem price_range_is_min_low_max_high
        (ohlc : list ChartOHLC) (config : ChartOptions) :
  ohlc <> [] ->
  Forall low_below_high ohlc ->
  no_scale_options config ->
  exists r, calculatePriceRange ohlc config = Some r
            /\ is_minimum (minPrice r) (map low ohlc)
            /\ is_maximum (maxPrice r) (map high ohlc)
            /\ priceRange r == maxPrice r - minPrice r.
Proof.
  intros Hne Hord Hcfg.
  destruct (prices_nonempty ohlc Hne) as (lo & hi & Hlo & Hhi).
  exists (mkPriceRange lo hi (hi - lo)).
  split; [now apply calculatePriceRange_plain|].
  rewrite Forall_forall in Hord.
  apply Math_min_spec in Hlo as [Hlo_in Hlo_le].
  apply Math_max_spec in Hhi as [Hhi_in Hhi_ge].
  apply prices_of_in in Hlo_in as (cl & Hcl & Hl).
  apply prices_of_in in Hhi_in as (ch & Hch & Hh).
  assert (Hbelow : forall c, In c ohlc -> lo <= low c).
  { intros c Hc. apply Hlo_le. apply prices_of_in. exists c; auto. }
  assert (Habove : forall c, In c ohlc -> high c <= hi).
  { intros c Hc. apply Hhi_ge. apply prices_of_in. exists c; auto. }
  cbn [minPrice maxPrice priceRange].
  split; [split | split; [split | reflexivity]].
  - exists (low cl). split; [now apply in_map|].
    destruct Hl as [->| ->]; [|reflexivity].
    apply Qle_antisym; [apply Hord, Hcl | apply Hbelow, Hcl].
  - intros x Hx. apply in_map_iff in Hx as (c & <- & Hc). now apply Hbelow.
  - exists (high ch). split; [now apply in_map|].
    destruct Hh as [->| ->]; [reflexivity|].
    apply Qle_antisym; [apply Habove, Hch | apply Hord, Hch].
  - intros x Hx. apply in_map_iff in Hx as (c & <- & Hc). now apply Habove.
Qed.

Lemma price_range_is_min_low_max_high_witness :
  exists r, calculatePriceRange
              [mkOHLC 0 100 110 90 105 None; mkOHLC 60000 105 120 95 98 None]
              no_options = Some r
            /\ is_minimum (minPrice r) [90; 95]
            /\ is_maximum (maxPrice r) [110; 120]
            /\ priceRange r == maxPrice r - minPrice r.
Proof.
  apply (price_range_is_min_low_max_high
           [mkOHLC 0 100 110 90 105 None; mkOHLC 60000 105 120 95 98 None]
           no_options).
  - discriminate.
  - repeat constructor; unfold low_below_high; simpl; discriminate.
  - repeat split; reflexivity.
Defined.

(** C2.  With [autoScale] enabled, [calculatePriceRange] pads the extremes
    of the series by exactly 5% of their distance on each side: with no
    multiplier and no clamp the result is [baseMin - 0.05 * (baseMax -
    baseMin)] and [baseMax + 0.05 * (baseMax - baseMin)]; and in every case
    the multipliers (and then the clamps) act on the padded bounds, the
    padding coming first. *)
Theorem auto_scale_pads_five_percent
        (ohlc : list ChartOHLC) (config : ChartOptions) :
  ohlc <> [] ->
  truthy (scale_field autoScale config) = true ->
  exists baseMin baseMax r,
    Math_min (prices_of ohlc) = Some baseMin
    /\ Math_max (prices_of ohlc) = Some baseMax
    /\ calculatePriceRange ohlc config = Some r
    /\ let padMin := baseMin - 0.05 * (baseMax - baseMin) in
       let padMax := baseMax + 0.05 * (baseMax - baseMin) in
       padMin <= baseMin /\ baseMax <= padMax
       /\ (truthy (scale_field scale_x config) = false ->
           truthy (scale_field scale_y config) = false ->
           scale_field minScale config = None ->
           scale_field maxScale config = None ->
           minPrice r == padMin /\ maxPrice r == padMax)
       /\ exists scaledMin scaledMax,
            multiplied (scale_field scale_y config)
              (multiplied (scale_field scale_x config)
                          (baseMin - (baseMax - baseMin) * 0.05,
                           baseMax + (baseMax - baseMin) * 0.05))
            = (scaledMin, scaledMax)
            /\ minPrice r = match scale_field minScale config with
                            | Some m => Qmax scaledMin m
                            | None => scaledMin
                            end
            /\ maxPrice r = match scale_field maxScale config with
                            | Some m => Qmin scaledMax m
                            | None => scaledMax
                            end.
Proof.
  intros Hne Hauto.
  destruct (prices_nonempty ohlc Hne) as (lo & hi & Hlo & Hhi).
  pose proof (base_min_le_max _ _ _ Hlo Hhi) as Hle.
  exists lo, hi. eexists. split; [exact Hlo|]. split; [exact Hhi|].
  split.
  { rewrite (calculatePriceRange_stages _ _ _ _ Hlo Hhi), Hauto. reflexivity. }
  cbn zeta. cbn [minPrice maxPrice pad].
  split; [lra|]. split; [lra|]. split.
  - intros Hx Hy Hmin Hmax. unfold multiplied.
    rewrite Hx, Hy, Hmin, Hmax. cbn [fst snd]. split; lra.
  - destruct (multiplied (scale_field scale_y config)
                (multiplied (scale_field scale_x config)
                   (lo - (hi - lo) * 0.05, hi + (hi - lo) * 0.05)))
      as [scaledMin scaledMax] eqn:E.
    exists scaledMin, scaledMax. split; [reflexivity|].
    cbn [fst snd]. split; reflexivity.
Qed.

Lemma auto_scale_pads_five_percent_witness :
  exists baseMin baseMax r,
    Math_min (prices_of [mkOHLC 0 100 110 90 105 None]) = Some baseMin
    /\ Math_max (prices_of [mkOHLC 0 100 110 90 105 None]) = Some baseMax
    /\ calculatePriceRange [mkOHLC 0 100 110 90 105 None]
         (with_scale (mkScale None None (Some true) None None)) = Some r
    /\ minPrice r == 89 /\ maxPrice r == 111.
Proof.
  destruct (auto_scale_pads_five_percent
              [mkOHLC 0 100 110 90 105 None]
              (with_scale (mkScale None None (Some true) None None)))
    as (lo & hi & r & Hlo & Hhi & Hr & _ & _ & Hplain & _).
  - discriminate.
  - reflexivity.
  - exists lo, hi, r. split; [exact Hlo|]. split; [exact Hhi|].
    split; [exact Hr|].
    destruct Hplain as [Hmin Hmax]; try reflexivity.
    simpl in Hlo, Hhi. injection Hlo as <-. injection Hhi as <-.
    split; [rewrite Hmin | rewrite Hmax]; reflexivity.
Defined.

(** The range of a series without multipliers and clamps is positive
    exactly when the extremes differ. *)
Lemma range_positive_iff (ohlc : list ChartOHLC) (config : ChartOptions)
      (lo hi : Q) (r : PriceRange) :
  Math_min (prices_of ohlc) = Some lo ->
  Math_max (prices_of ohlc) = Some hi ->
  truthy (scale_field scale_x config) = false ->
  truthy (scale_field scale_y config) = false ->
  scale_field minScale config = None ->
  scale_field maxScale config = None ->
  calculatePriceRange ohlc config = Some r ->
  (0 < priceRange r <-> lo < hi) /\ (priceRange r == 0 <-> lo == hi).
Proof.
  intros Hlo Hhi Hx Hy Hmin Hmax.
  pose proof (base_min_le_max _ _ _ Hlo Hhi) as Hle.
  rewrite (calculatePriceRange_stages _ _ _ _ Hlo Hhi).
  unfold multiplied. rewrite Hx, Hy, Hmin, Hmax.
  destruct (truthy (scale_field autoScale config));
    cbn zeta; cbn [fst snd pad]; intros [= <-]; cbn [priceRange];
    repeat split; intros; lra.
Qed.

Lemma flat_iff_extremes_equal (ohlc : list ChartOHLC) (lo hi : Q) :
  Math_min (prices_of ohlc) = Some lo ->
  Math_max (prices_of ohlc) = Some hi ->
  flat ohlc <-> lo == hi.
Proof.
  intros Hlo Hhi.
  apply Math_min_spec in Hlo as [Hlo_in Hlo_le].
  apply Math_max_spec in Hhi as [Hhi_in Hhi_ge].
  split.
  - intros Hflat. now apply Hflat.
  - intros E p q Hp Hq.
    pose proof (Hlo_le _ Hp). pose proof (Hhi_ge _ Hp).
    pose proof (Hlo_le _ Hq). pose proof (Hhi_ge _ Hq). lra.
Qed.

(** C10, amended.  For a non-empty series scaled without multiplier and
    without clamp (with or without auto-scale), the range is never
    negative, it is positive exactly when the series is not flat, and
    a flat series gets the range zero: nothing pads it. *)
Theorem price_range_positive_unless_flat
        (ohlc : list ChartOHLC) (config : ChartOptions) :
  ohlc <> [] ->
  truthy (scale_field scale_x config) = false ->
  truthy (scale_field scale_y config) = false ->
  scale_field minScale config = None ->
  scale_field maxScale config = None ->
  exists r, calculatePriceRange ohlc config = Some r
            /\ 0 <= priceRange r
            /\ (0 < priceRange r <-> ~ flat ohlc)
            /\ (flat ohlc -> priceRange r == 0).
Proof.
  intros Hne Hx Hy Hmin Hmax.
  destruct (prices_nonempty ohlc Hne) as (lo & hi & Hlo & Hhi).
  pose proof (base_min_le_max _ _ _ Hlo Hhi) as Hle.
  pose proof (flat_iff_extremes_equal _ _ _ Hlo Hhi) as Hflat.
  destruct (calculatePriceRange ohlc config) as [r|] eqn:Hr.
  2:{ rewrite (calculatePriceRange_stages _ _ _ _ Hlo Hhi) in Hr. discriminate. }
  destruct (range_positive_iff _ _ _ _ _ Hlo Hhi Hx Hy Hmin Hmax Hr) as [Hpos Hzero].
  exists r. split; [reflexivity|]. split; [|split].
  - destruct (Qlt_le_dec lo hi) as [Hlt|Hge].
    + apply Qlt_le_weak, Hpos, Hlt.
    + assert (E : lo == hi) by lra. apply Hzero in E. lra.
  - rewrite Hpos, Hflat. split; intros; lra.
  - intros F. apply (proj2 Hzero (proj1 Hflat F)).
Qed.

Lemma price_range_positive_unless_flat_witness :
  exists r, calculatePriceRange [mkOHLC 0 100 110 90 105 None] no_options = Some r
            /\ 0 <= priceRange r
            /\ (0 < priceRange r <-> ~ flat [mkOHLC 0 100 110 90 105 None])
            /\ (flat [mkOHLC 0 100 110 90 105 None] -> priceRange r == 0).
Proof.
  apply (price_range_positive_unless_flat [mkOHLC 0 100 110 90 105 None] no_options);
    [discriminate | reflexivity | reflexivity | reflexivity | reflexivity].
Defined.

(** C10, as stated, fails: a single candle whose prices are all 100 gets
    the range 0, and the candlestick renderer divides by it, which makes
    every pixel row NaN. *)
Lemma flat_candle_has_zero_range :
  exists r,
    calculatePriceRange [flat_candle] no_options = Some r
    /\ ~ 0 < priceRange r
    /\ CandlestickRenderer.render
         (NodeChartRenderer.dimensions_of 800 600 no_options) r no_options
         [flat_candle]
       = [strokeStyle "#424242"; lineWidth 1; beginPath;
          moveTo (Fin (820 # 2)) NaN; lineTo (Fin (820 # 2)) NaN; stroke;
          fillStyle (Color "#26a69a");
          fillRect (Fin (5200 # 40)) NaN (Fin 560.0) NaN].
Proof.
  eexists. split; [reflexivity|]. split.
  - cbn. intros H. discriminate H.
  - vm_compute. reflexivity.
Qed.

(** ** Heikin-Ashi *)

Lemma copy_candle (c : ChartOHLC) :
  mkOHLC (time c) (open c) (high c) (low c) (close c) (volume c) = c.
Proof. now destruct c. Qed.

Lemma ha_loop_length (ohlc : list ChartOHLC) (n : nat) :
  (n <= List.length ohlc)%nat -> List.length (HeikinAshiRenderer.loop ohlc n) = n.
Proof.
  induction n as [|i IH]; intros Hn; [reflexivity|].
  cbn [HeikinAshiRenderer.loop]. unfold HeikinAshiRenderer.body.
  destruct (nth_error ohlc i) as [candle|] eqn:Hc.
  2:{ apply nth_error_None in Hc. lia. }
  specialize (IH ltac:(lia)).
  destruct (Nat.eqb_spec i 0) as [->|Hi].
  - rewrite length_app, IH. reflexivity.
  - destruct (nth_error (HeikinAshiRenderer.loop ohlc i) (i - 1)) as [prev|] eqn:Hp.
    + rewrite length_app, IH. simpl. lia.
    + apply nth_error_None in Hp. lia.
Qed.

(** One more iteration appends one candle: the copy of the first input
    candle, or the candle computed from the previous output. *)
Lemma ha_loop_snoc (ohlc : list ChartOHLC) (i : nat) (candle : ChartOHLC) :
  nth_error ohlc i = Some candle ->
  (i = 0%nat /\ HeikinAshiRenderer.loop ohlc (S i) = [candle])
  \/ (exists prev,
        (0 < i)%nat
        /\ nth_error (HeikinAshiRenderer.loop ohlc i) (i - 1) = Some prev
        /\ HeikinAshiRenderer.loop ohlc (S i) =
           HeikinAshiRenderer.loop ohlc i
           ++ [let haClose := (open candle + high candle + low candle + close candle) / 4 in
               let haOpen := (open prev + close prev) / 2 in
               mkOHLC (time candle) haOpen
                      (Qmax (Qmax (high candle) haOpen) haClose)
                      (Qmin (Qmin (low candle) haOpen) haClose)
                      haClose (volume candle)]).
Proof.
  intros Hc.
  assert (Hlt : (i < List.length ohlc)%nat) by (apply nth_error_Some; congruence).
  pose proof (ha_loop_length ohlc i ltac:(lia)) as Hlen.
  cbn [HeikinAshiRenderer.loop]. unfold HeikinAshiRenderer.body. rewrite Hc.
  destruct (Nat.eqb_spec i 0) as [->|Hi].
  - left. split; [reflexivity|]. simpl. now rewrite copy_candle.
  - right.
    destruct (nth_error (HeikinAshiRenderer.loop ohlc i) (i - 1)) as [prev|] eqn:Hp.
    + exists prev. repeat split. lia.
    + apply nth_error_None in Hp. lia.
Qed.

(** Later iterations leave the candles already pushed in place. *)
Lemma ha_loop_stable (ohlc : list ChartOHLC) (n j : nat) :
  (j < n)%nat -> (n <= List.length ohlc)%nat ->
  nth_error (HeikinAshiRenderer.loop ohlc n) j
  = nth_error (HeikinAshiRenderer.loop ohlc (S j)) j.
Proof.
  induction n as [|i IH]; intros Hj Hn; [lia|].
  destruct (Nat.eq_dec j i) as [->|Hne]; [reflexivity|].
  rewrite <- IH by lia.
  destruct (nth_error ohlc i) as [candle|] eqn:Hc.
  2:{ apply nth_error_None in Hc. lia. }
  pose proof (ha_loop_length ohlc i ltac:(lia)) as Hlen.
  destruct (ha_loop_snoc ohlc i candle Hc) as [[-> _]|(prev & _ & _ & ->)]; [lia|].
  apply nth_error_app1. lia.
Qed.

Lemma is_maximum_3 (a b c : Q) : is_maximum (Qmax (Qmax a b) c) [a; b; c].
Proof.
  split.
  - destruct (Qmax_cases (Qmax a b) c) as [E|E];
      [destruct (Qmax_cases a b) as [E'|E']|]; rewrite E; try rewrite E';
      eexists; (split; [|reflexivity]); simpl; auto.
  - intros x [<-|[<-|[<-|[]]]].
    + apply Qle_trans with (Qmax a b); apply Q.le_max_l.
    + apply Qle_trans with (Qmax a b); [apply Q.le_max_r | apply Q.le_max_l].
    + apply Q.le_max_r.
Qed.

Lemma is_minimum_3 (a b c : Q) : is_minimum (Qmin (Qmin a b) c) [a; b; c].
Proof.
  split.
  - destruct (Qmin_cases (Qmin a b) c) as [E|E];
      [destruct (Qmin_cases a b) as [E'|E']|]; rewrite E; try rewrite E';
      eexists; (split; [|reflexivity]); simpl; auto.
  - intros x [<-|[<-|[<-|[]]]].
    + apply Qle_trans with (Qmin a b); apply Q.le_min_l.
    + apply Qle_trans with (Qmin a b); [apply Q.le_min_l | apply Q.le_min_r].
    + apply Q.le_min_r.
Qed.

(** C3.  [calculateHeikinAshi] returns as many candles as it is given; the
    first one is the first input candle; and every later one has as close
    the mean of the four prices of the input candle at its index, as open
    the mean of the open and close of the output candle before it, as
    high the greatest of the input high and its own open and close, and as
    low the least of the input low and its own open and close. *)
Theorem heikin_ashi_recurrence (ohlc : list ChartOHLC) :
  let ha := HeikinAshiRenderer.calculateHeikinAshi ohlc in
  List.length ha = List.length ohlc
  /\ nth_error ha 0 = nth_error ohlc 0
  /\ forall i candle,
       (0 < i)%nat -> nth_error ohlc i = Some candle ->
       exists prev out,
         nth_error ha (i - 1) = Some prev
         /\ nth_error ha i = Some out
         /\ time out = time candle
         /\ volume out = volume candle
         /\ close out = (open candle + high candle + low candle + close candle) / 4
         /\ open out = (open prev + close prev) / 2
         /\ is_maximum (high out) [high candle; open out; close out]
         /\ is_minimum (low out) [low candle; open out; close out].
Proof.
  unfold HeikinAshiRenderer.calculateHeikinAshi. cbn zeta.
  split; [apply ha_loop_length; lia|]. split.
  - destruct ohlc as [|c rest]; [reflexivity|].
    rewrite ha_loop_stable by (simpl; lia).
    destruct (ha_loop_snoc (c :: rest) 0 c eq_refl) as [[_ ->]|(prev & H & _)];
      [reflexivity | lia].
  - intros i candle Hi Hc.
    assert (Hlt : (i < List.length ohlc)%nat) by (apply nth_error_Some; congruence).
    destruct (ha_loop_snoc ohlc i candle Hc) as [[-> _]|(prev & _ & Hp & Hs)]; [lia|].
    pose proof (ha_loop_length ohlc i ltac:(lia)) as Hlen.
    exists prev. eexists.
    split.
    { rewrite ha_loop_stable by lia.
      replace (S (i - 1)) with i by lia. exact Hp. }
    split.
    { rewrite ha_loop_stable by lia. rewrite Hs.
      rewrite nth_error_app2 by lia. rewrite Hlen, Nat.sub_diag. reflexivity. }
    cbn [time volume close open high low].
    repeat (split; [reflexivity|]).
    split; [apply is_maximum_3 | apply is_minimum_3].
Qed.

Lemma heikin_ashi_recurrence_witness :
  exists prev out,
    nth_error (HeikinAshiRenderer.calculateHeikinAshi two_candles) 0 = Some prev
    /\ nth_error (HeikinAshiRenderer.calculateHeikinAshi two_candles) 1 = Some out
    /\ close out = (105 + 120 + 95 + 98) / 4
    /\ open out = (open prev + close prev) / 2.
Proof.
  destruct (heikin_ashi_recurrence two_candles) as (_ & _ & H).
  destruct (H 1%nat (mkOHLC 3600000 105 120 95 98 None) ltac:(lia) eq_refl)
    as (prev & out & Hprev & Hout & _ & _ & Hclose & Hopen & _).
  exists prev, out. repeat split; assumption.
Defined.

(** ** VWAP *)

Lemma Qltb_lt (a b : Q) : Qltb a b = true <-> a < b.
Proof.
  unfold Qltb. rewrite negb_true_iff. split.
  - intros H. apply Qnot_le_lt. intros Hle.
    apply Qle_bool_iff in Hle. congruence.
  - intros H. destruct (Qle_bool b a) eqn:E; [|reflexivity].
    apply Qle_bool_iff in E. lra.
Qed.

Lemma Qltb_nlt (a b : Q) : Qltb a b = false <-> ~ a < b.
Proof.
  rewrite <- Qltb_lt. destruct (Qltb a b); split; congruence.
Qed.

Lemma or_else_volume (c : ChartOHLC) : or_else (volume c) 0 == volume_or_zero c.
Proof.
  unfold or_else, volume_or_zero, truthy, Truthy_Q.
  destruct (volume c) as [v|]; [|reflexivity].
  destruct (Qeq_bool v 0) eqn:E; simpl; [|reflexivity].
  apply Qeq_bool_eq in E. now rewrite E.
Qed.

(** The loop of [calculateVWAP] started in any state: it pushes one point
    per candle, keeps the points that are there, and the point of candle
    [i] is the quotient of the two sums accumulated so far, or the typical
    price of the candle when the accumulated volume is not positive. *)
Lemma vwap_fold (l : list ChartOHLC) :
  forall (a b : Q) (d : list IndicatorPoint) a' b' d',
    fold_left VWAPRenderer.step l (a, b, d) = (a', b', d') ->
    List.length d' = (List.length d + List.length l)%nat
    /\ (forall j, (j < List.length d)%nat -> nth_error d' j = nth_error d j)
    /\ forall i c,
         nth_error l i = Some c ->
         exists v,
           nth_error d' (List.length d + i) = Some (mkPoint (time c) (Fin v))
           /\ let cv := b + Qsum (map volume_or_zero (firstn (S i) l)) in
              let cvp :=
                a + Qsum (map (fun c => volume_or_zero c * VWAPRenderer.typicalPrice c)
                              (firstn (S i) l)) in
              (0 < cv -> v == cvp / cv)
              /\ (~ 0 < cv -> v = VWAPRenderer.typicalPrice c).
Proof.
  induction l as [|c0 l IH]; intros a b d a' b' d' H.
  - simpl in H. injection H as <- <- <-.
    split; [simpl; lia|]. split; [reflexivity|].
    intros [|i] c Hc; discriminate Hc.
  - cbn [fold_left] in H.
    unfold VWAPRenderer.step at 2 in H.
    set (p0 := mkPoint (time c0) _) in H.
    apply IH in H as (Hlen & Hkeep & Hpts).
    rewrite length_app in Hlen, Hkeep, Hpts. cbn [List.length] in *.
    split; [lia|]. split.
    { intros j Hj. rewrite Hkeep by lia. apply nth_error_app1, Hj. }
    pose proof (or_else_volume c0) as Hvol.
    intros [|i] c Hc.
    + injection Hc as <-.
      eexists. split.
      { rewrite Nat.add_0_r, Hkeep by lia.
        rewrite nth_error_app2, Nat.sub_diag by lia. reflexivity. }
      cbn zeta. cbn [firstn map Qsum fold_right].
      destruct (Qltb 0 (b + or_else (volume c0) 0)) eqn:E.
      * apply Qltb_lt in E. split; [|intros N; exfalso; apply N; lra].
        intros Hpos. rewrite Hvol.
        apply Qdiv_comp; ring.
      * apply Qltb_nlt in E. split; [intros Hpos; exfalso; apply E; lra|].
        reflexivity.
    + cbn [nth_error] in Hc.
      destruct (Hpts i c Hc) as (v & Hnth & Hpos & Hneg).
      exists v. split.
      { rewrite <- Hnth. f_equal. lia. }
      cbn zeta in *.
      change (firstn (S (S i)) (c0 :: l)) with (c0 :: firstn (S i) l).
      cbn [map Qsum fold_right].
      fold (Qsum (map volume_or_zero (firstn (S i) l))).
      fold (Qsum (map (fun c => volume_or_zero c * VWAPRenderer.typicalPrice c)
                      (firstn (S i) l))).
      set (sv := Qsum (map volume_or_zero (firstn (S i) l))) in *.
      set (svp := Qsum (map (fun c => volume_or_zero c * VWAPRenderer.typicalPrice c)
                            (firstn (S i) l))) in *.
      split.
      * intros H. rewrite Hpos by lra. apply Qdiv_comp; rewrite Hvol; ring.
      * intros H. apply Hneg. intros N. apply H. lra.
Qed.

Lemma in_firstn {A} (n : nat) (l : list A) (x : A) :
  In x (firstn n l) -> In x l.
Proof.
  intros H. rewrite <- (firstn_skipn n l). apply in_or_app. now left.
Qed.

Lemma Qsum_zero (xs : list Q) : Forall (fun x => x == 0) xs -> Qsum xs == 0.
Proof.
  induction 1 as [|x xs Hx _ IH]; simpl; [reflexivity|]. rewrite Hx, IH. ring.
Qed.

(** C4.  [calculateVWAP] returns one point per candle, at the time of the
    candle; where the volume accumulated up to candle [i] is positive the
    point is the accumulated volume times typical price divided by the
    accumulated volume, otherwise it is the typical price of candle [i],
    the typical price of a candle being [(high + low + close) / 3]; so
    for a series whose volumes are all zero or absent every point is the
    typical price of its candle. *)
Theorem vwap_is_running_quotient (ohlc : list ChartOHLC) :
  let vwapData := VWAPRenderer.calculateVWAP ohlc in
  List.length vwapData = List.length ohlc
  /\ (forall i c,
        nth_error ohlc i = Some c ->
        exists v,
          nth_error vwapData i = Some (mkPoint (time c) (Fin v))
          /\ (0 < running_volume ohlc i ->
              v == running_volume_price ohlc i / running_volume ohlc i)
          /\ (~ 0 < running_volume ohlc i ->
              v == (high c + low c + close c) / 3))
  /\ (Forall (fun c => volume_or_zero c == 0) ohlc ->
      forall i c,
        nth_error ohlc i = Some c ->
        nth_error vwapData i
        = Some (mkPoint (time c) (Fin ((high c + low c + close c) / 3)))).
Proof.
  cbn zeta. unfold VWAPRenderer.calculateVWAP.
  destruct ohlc as [|c0 rest]; [|set (ohlc := c0 :: rest)].
  { simpl. split; [reflexivity|].
    split; [|intros _]; intros [|i] c Hc; discriminate Hc. }
  change (Nat.eqb (List.length ohlc) 0) with false. cbn iota.
  destruct (fold_left VWAPRenderer.step ohlc (0, 0, [])) as [[a' b'] d'] eqn:F.
  destruct (vwap_fold ohlc 0 0 [] a' b' d' F) as (Hlen & _ & Hpts).
  cbn [snd]. split; [exact Hlen|].
  assert (Hgen : forall i c,
             nth_error ohlc i = Some c ->
             exists v,
               nth_error d' i = Some (mkPoint (time c) (Fin v))
               /\ (0 < running_volume ohlc i ->
                   v == running_volume_price ohlc i / running_volume ohlc i)
               /\ (~ 0 < running_volume ohlc i ->
                   v = (high c + low c + close c) / 3)).
  { intros i c Hc. destruct (Hpts i c Hc) as (v & Hnth & Hpos & Hneg).
    exists v. split; [exact Hnth|]. cbn zeta in Hpos, Hneg.
    unfold VWAPRenderer.typicalPrice in Hpos, Hneg.
    unfold running_volume, running_volume_price. split.
    - intros H. rewrite Hpos by lra. apply Qdiv_comp; ring.
    - intros H. apply Hneg. intros N. apply H. lra. }
  split.
  - intros i c Hc. destruct (Hgen i c Hc) as (v & Hnth & Hpos & Hneg).
    exists v. split; [exact Hnth|]. split; [exact Hpos|].
    intros H. rewrite (Hneg H). reflexivity.
  - intros Hzero i c Hc. destruct (Hgen i c Hc) as (v & Hnth & _ & Hneg).
    rewrite Hnth, Hneg; [reflexivity|].
    unfold running_volume. rewrite Qsum_zero; [lra|].
    apply Forall_map. rewrite Forall_forall in *.
    intros x Hx. apply Hzero. eapply in_firstn, Hx.
Qed.

Lemma vwap_is_running_quotient_witness :
  (exists v,
      nth_error (VWAPRenderer.calculateVWAP
                   [mkOHLC 0 100 110 90 100 (Some 5);
                    mkOHLC 60000 100 120 95 100 (Some 7)]) 1
      = Some (mkPoint 60000 (Fin v))
      /\ v == (5 * ((110 + 90 + 100) / 3) + 7 * ((120 + 95 + 100) / 3)) / (5 + 7))
  /\ nth_error (VWAPRenderer.calculateVWAP two_candles) 1
     = Some (mkPoint 3600000 (Fin ((120 + 95 + 98) / 3))).
Proof.
  split.
  - destruct (vwap_is_running_quotient
                [mkOHLC 0 100 110 90 100 (Some 5);
                 mkOHLC 60000 100 120 95 100 (Some 7)]) as (_ & H & _).
    destruct (H 1%nat (mkOHLC 60000 100 120 95 100 (Some 7)) eq_refl)
      as (v & Hnth & Hpos & _).
    exists v. split; [exact Hnth|].
    rewrite Hpos; [vm_compute; reflexivity | vm_compute; reflexivity].
  - destruct (vwap_is_running_quotient two_candles) as (_ & _ & H).
    apply (H ltac:(repeat constructor) 1%nat
             (mkOHLC 3600000 105 120 95 98 None) eq_refl).
Defined.

(** ** Renko *)

(** A candle that closes at the current price asks for no brick, whatever
    the brick size. *)
Lemma blocksNeeded_no_change (priceChange currentPrice brickSize : Q) :
  priceChange == 0 ->
  exists n, RenkoRenderer.blocksNeeded priceChange currentPrice brickSize = Some n
            /\ Z.to_nat n = 0%nat.
Proof.
  intros E. unfold RenkoRenderer.blocksNeeded.
  destruct (Qeq_bool currentPrice 0).
  - rewrite (Qeq_eq_bool _ _ E). now exists 0%Z.
  - assert (Hpct : Qabs (priceChange / currentPrice) == 0).
    { rewrite E. unfold Qdiv. rewrite Qmult_0_l. reflexivity. }
    destruct (Qleb brickSize (Qabs (priceChange / currentPrice))).
    + destruct (Qeq_bool brickSize 0).
      * rewrite (Qeq_eq_bool _ _ Hpct). now exists 0%Z.
      * eexists. split; [reflexivity|].
        assert (Hq : Qabs (priceChange / currentPrice) / brickSize == 0).
        { rewrite Hpct. unfold Qdiv. apply Qmult_0_l. }
        rewrite (Qfloor_comp _ _ Hq). reflexivity.
    + now exists 0%Z.
Qed.

Lemma renko_run_flat (brickSize currentPrice : Q)
      (blocks : list RenkoRenderer.RenkoBlock) (candles : list ChartOHLC) :
  Forall (fun c => close c == currentPrice) candles ->
  RenkoRenderer.run brickSize (currentPrice, blocks) candles
  = Returns (currentPrice, blocks).
Proof.
  induction 1 as [|c rest Hc _ IH]; [reflexivity|].
  cbn [RenkoRenderer.run]. unfold RenkoRenderer.step. cbn [fst].
  destruct (blocksNeeded_no_change (close c - currentPrice) currentPrice brickSize)
    as (n & -> & ->); [lra|].
  cbn [RenkoRenderer.push_blocks bind]. exact IH.
Qed.

(** C5.  For a series in which every candle closes where the first one
    does, [calculateRenko] returns no brick (for every brick size), and
    [RenkoRenderer.render] returns without throwing and without a single
    call on the canvas. *)
Theorem renko_flat_series_draws_nothing
        (first : ChartOHLC) (rest : list ChartOHLC)
        (dimensions : ChartDimensions) (range : PriceRange)
        (config : ChartOptions) :
  Forall (fun c => close c == close first) rest ->
  (forall brickSize,
      RenkoRenderer.calculateRenko (first :: rest) brickSize = Returns [])
  /\ RenkoRenderer.render dimensions range config (first :: rest) = Returns [].
Proof.
  intros Hflat.
  assert (H : forall brickSize,
             RenkoRenderer.calculateRenko (first :: rest) brickSize = Returns []).
  { intros brickSize. unfold RenkoRenderer.calculateRenko.
    now rewrite renko_run_flat. }
  split; [exact H|].
  unfold RenkoRenderer.render. rewrite H. reflexivity.
Qed.

Lemma renko_flat_series_draws_nothing_witness :
  (forall brickSize,
      RenkoRenderer.calculateRenko
        [mkOHLC 0 100 110 90 100 None; mkOHLC 60000 100 120 95 100 (Some 7);
         mkOHLC 120000 100 105 80 100 None] brickSize = Returns [])
  /\ RenkoRenderer.render
       (NodeChartRenderer.dimensions_of 800 600 no_options)
       (mkPriceRange 80 120 40) no_options
       [mkOHLC 0 100 110 90 100 None; mkOHLC 60000 100 120 95 100 (Some 7);
        mkOHLC 120000 100 105 80 100 None] = Returns [].
Proof.
  apply (renko_flat_series_draws_nothing
           (mkOHLC 0 100 110 90 100 None)
           [mkOHLC 60000 100 120 95 100 (Some 7); mkOHLC 120000 100 105 80 100 None]).
  repeat constructor.
Defined.

(** ** Grid comparison *)

(** C6.  Called with more than two symbols or with a column count above
    two, [ComparisonService.grid] returns a failure result at once,
    whatever [generateComparison] would do: nothing is fetched, rendered or
    written, and the error message names the limit that was exceeded (the
    symbol limit when both are). *)
Theorem grid_rejects_more_than_two
        (Buffer Effect : Type)
        (generateComparison :
           ComparisonService.PartialConfig
           -> list Effect * ComparisonService.ComparisonResult Buffer)
        (symbols : list string) (columns : Z) (outputPath : string)
        (config : option ComparisonService.PartialConfig) :
  (2 < List.length symbols)%nat \/ (2 < columns)%Z ->
  exists message,
    ComparisonService.grid generateComparison symbols columns outputPath config
    = ([], ComparisonService.mkResult false None (Some message) None)
    /\ ((2 < List.length symbols)%nat ->
        message = ("Grid layout supports maximum 2 symbols. Got "
                   ++ ComparisonService.string_of_nat (List.length symbols)
                   ++ " symbols: " ++ ComparisonService.join ", " symbols)%string
        /\ cites message "maximum 2 symbols")
    /\ ((List.length symbols <= 2)%nat ->
        message = ("Grid layout supports maximum 2 columns. Got "
                   ++ ComparisonService.string_of_Z columns ++ " columns")%string
        /\ cites message "maximum 2 columns").
Proof.
  intros H. unfold ComparisonService.grid.
  destruct (Nat.ltb_spec 2 (List.length symbols)) as [Hs|Hs].
  - eexists. split; [reflexivity|]. split; [|lia].
    intros _. split; [reflexivity|].
    exists "Grid layout supports ". eexists. cbn. reflexivity.
  - destruct H as [H|H]; [lia|].
    apply Z.ltb_lt in H. rewrite H.
    eexists. split; [reflexivity|]. split; [lia|].
    intros _. split; [reflexivity|].
    exists "Grid layout supports ". eexists. cbn. reflexivity.
Qed.

Lemma grid_rejects_more_than_two_witness :
  exists message,
    ComparisonService.grid
      (fun _ : ComparisonService.PartialConfig =>
         (["render"], ComparisonService.mkResult (Buffer := unit) true None None (Some tt)))
      ["BTC/USDT"; "ETH/USDT"] 3 "grid.png" None
    = ([], ComparisonService.mkResult false None (Some message) None)
    /\ message = "Grid layout supports maximum 2 columns. Got 3 columns".
Proof.
  destruct (grid_rejects_more_than_two
              unit string
              (fun _ => (["render"], ComparisonService.mkResult true None None (Some tt)))
              ["BTC/USDT"; "ETH/USDT"] 3 "grid.png" None)
    as (message & Hgrid & _ & Hcols).
  - right. reflexivity.
  - exists message. split; [exact Hgrid|].
    destruct Hcols as [-> _]; [simpl; lia | reflexivity].
Defined.

(** ** Side-by-side comparison *)

Lemma addCharts_snoc (width height : Q) (layout : ComparisonLayout)
      (chartsData : list NodeChartData) (chartData : NodeChartData) :
  ComparisonRenderer.addCharts width height layout (chartsData ++ [chartData])
  = ComparisonRenderer.addChart width height layout
      (ComparisonRenderer.addCharts width height layout chartsData) chartData None.
Proof.
  unfold ComparisonRenderer.addCharts. now rewrite fold_left_app.
Qed.

Lemma addCharts_length (width height : Q) (layout : ComparisonLayout)
      (chartsData : list NodeChartData) :
  List.length (ComparisonRenderer.addCharts width height layout chartsData)
  = List.length chartsData.
Proof.
  induction chartsData as [|d l IH] using rev_ind; [reflexivity|].
  rewrite addCharts_snoc. unfold ComparisonRenderer.addChart.
  rewrite !length_app, IH. reflexivity.
Qed.

(** What the side-by-side branch gives the chart added as number [i]
    (counting from 0): the width is computed from the [i] charts that are
    there when it is added, not from the number of charts of the
    comparison, and one gap is subtracted, not one per gap. *)
Lemma side_by_side_position (width height : Q) (layout : ComparisonLayout)
      (chartsData : list NodeChartData) (i : nat)
      (chart : ComparisonRenderer.ComparisonChart) :
  layout_type layout = side_by_side ->
  nth_error (ComparisonRenderer.addCharts width height layout chartsData) i
  = Some chart ->
  let gap := or_else (gap layout) 10 in
  let chartWidth := (width - gap) / Qn (Nat.max i 2) in
  ComparisonRenderer.position chart
  = mkPosition (Fin (Qn i * (chartWidth + gap))) (Fin 0) (Fin chartWidth) (Fin height).
Proof.
  intros Hside. revert i chart.
  induction chartsData as [|d l IH] using rev_ind; intros i chart Hnth.
  - destruct i; discriminate Hnth.
  - rewrite addCharts_snoc in Hnth. unfold ComparisonRenderer.addChart in Hnth.
    pose proof (addCharts_length width height layout l) as Hlen.
    destruct (Nat.lt_ge_cases i (List.length l)) as [Hlt|Hge].
    + rewrite nth_error_app1 in Hnth by lia. now apply IH.
    + rewrite nth_error_app2 in Hnth by lia.
      destruct (i - List.length (ComparisonRenderer.addCharts width height layout l))%nat
        as [|k] eqn:Hk; [|destruct k; discriminate Hnth].
      assert (i = List.length l) by lia. subst i.
      injection Hnth as <-. cbn [ComparisonRenderer.position].
      unfold ComparisonRenderer.calculatePosition. rewrite Hside, Hlen. reflexivity.
Qed.

(** With exactly two charts the code agrees with the even split. *)
Lemma side_by_side_two_charts (width height : Q) (layout : ComparisonLayout)
      (d0 d1 : NodeChartData) (i : nat)
      (chart : ComparisonRenderer.ComparisonChart) :
  layout_type layout = side_by_side ->
  nth_error (ComparisonRenderer.addCharts width height layout [d0; d1]) i
  = Some chart ->
  let gap := or_else (gap layout) 10 in
  let K := 2%nat in
  let chartWidth := (width - (Qn K - 1) * gap) / Qn K in
  num_eq (pos_width (ComparisonRenderer.position chart)) (Fin chartWidth)
  /\ num_eq (pos_x (ComparisonRenderer.position chart))
            (Fin (Qn i * (chartWidth + gap)))
  /\ pos_height (ComparisonRenderer.position chart) = Fin height.
Proof.
  intros Hside Hnth.
  assert (Hi : (i < 2)%nat).
  { change 2%nat with (List.length [d0; d1]).
    rewrite <- (addCharts_length width height layout [d0; d1]).
    apply nth_error_Some. congruence. }
  rewrite (side_by_side_position _ _ _ _ _ _ Hside Hnth).
  cbn zeta. cbn [pos_width pos_x pos_height num_eq].
  replace (Nat.max i 2) with 2%nat by lia.
  repeat split; unfold Qn; simpl inject_Z; field.
Qed.

(** C8 fails on the code for three charts.  On a 1600 by 800 canvas with
    a gap of 20, as [ComparisonService.sideBySide] sets it up, every chart
    gets the width 790 instead of (1600 - 2 * 20) / 3 = 520, and the third
    chart starts at x = 1620, beyond the right edge of the canvas. *)
Lemma side_by_side_three_charts (d0 d1 d2 : NodeChartData) :
  exists p0 p1 p2,
    map ComparisonRenderer.position
        (ComparisonRenderer.addCharts
           1600 800 (mkLayout side_by_side None None (Some 20)) [d0; d1; d2])
    = [p0; p1; p2]
    /\ num_eq (pos_width p0) (Fin 790) /\ num_eq (pos_x p0) (Fin 0)
    /\ num_eq (pos_width p1) (Fin 790) /\ num_eq (pos_x p1) (Fin 810)
    /\ num_eq (pos_width p2) (Fin 790) /\ num_eq (pos_x p2) (Fin 1620)
    /\ ~ num_eq (pos_width p2) (Fin ((1600 - (3 - 1) * 20) / 3))
    /\ ~ num_eq (pos_x p2) (Fin (2 * ((1600 - (3 - 1) * 20) / 3 + 20))).
Proof.
  do 3 eexists. split; [vm_compute; reflexivity|].
  cbn [pos_width pos_x num_eq]. repeat split; try reflexivity; discriminate.
Qed.

(** ** Determinism and the wall clock *)

(** The time labels read the clock only to tell which candles are dated
    today, and the time zone. *)
Lemma drawTimeLabels_today (c1 c2 : Clock) (dimensions : ChartDimensions)
      (config : ChartOptions) (ohlc : list ChartOHLC) :
  utc_offset c1 = utc_offset c2 ->
  (forall candle, In candle ohlc ->
                  isToday c1 (time candle) = isToday c2 (time candle)) ->
  AxesRenderer.drawTimeLabels c1 dimensions config ohlc
  = AxesRenderer.drawTimeLabels c2 dimensions config ohlc.
Proof.
  intros Hzone Hday. unfold AxesRenderer.drawTimeLabels.
  destruct (Nat.eqb (List.length ohlc) 0); [reflexivity|].
  destruct (negb (not_false (showTimeAxis config))); [reflexivity|].
  f_equal. apply flat_map_ext. intros i.
  destruct (nth_error ohlc i) as [candle|] eqn:Hc; [|reflexivity].
  unfold formatTime. rewrite Hzone, (Hday candle); [reflexivity|].
  eapply nth_error_In, Hc.
Qed.

Lemma drawTimeLabels_hidden (clock : Clock) (dimensions : ChartDimensions)
      (config : ChartOptions) (ohlc : list ChartOHLC) :
  showTimeAxis config = Some false ->
  AxesRenderer.drawTimeLabels clock dimensions config ohlc = [].
Proof.
  intros H. unfold AxesRenderer.drawTimeLabels. rewrite H.
  now destruct (Nat.eqb (List.length ohlc) 0).
Qed.

(** The line-break renderer is called for a line-break chart only. *)
Lemma renderChart_line_break
      (lineBreak1 lineBreak2 : ChartDimensions -> PriceRange -> ChartOptions
                               -> list ChartOHLC -> list Cmd)
      (clock : Clock) (width height : Q) (data : NodeChartData) :
  (chartType (config data) = Some LineBreak -> lineBreak1 = lineBreak2) ->
  NodeChartRenderer.renderChart lineBreak1 clock width height data
  = NodeChartRenderer.renderChart lineBreak2 clock width height data.
Proof.
  intros Hlb.
  unfold NodeChartRenderer.renderChart, NodeChartRenderer.drawChart,
    NodeChartRenderer.drawChartType.
  destruct (chartType (config data)) as [[| | | | |]|]; try reflexivity.
  now rewrite (Hlb eq_refl).
Qed.

(** Everything [renderChart] draws besides the time labels is the same
    under every clock. *)
Lemma renderChart_clock
      (lineBreak : ChartDimensions -> PriceRange -> ChartOptions
                   -> list ChartOHLC -> list Cmd)
      (c1 c2 : Clock) (width height : Q) (data : NodeChartData) :
  (forall dimensions,
      AxesRenderer.drawTimeLabels c1 dimensions (config data) (ohlc data)
      = AxesRenderer.drawTimeLabels c2 dimensions (config data) (ohlc data)) ->
  NodeChartRenderer.renderChart lineBreak c1 width height data
  = NodeChartRenderer.renderChart lineBreak c2 width height data.
Proof.
  intros Hlabels.
  unfold NodeChartRenderer.renderChart, NodeChartRenderer.drawChart,
    NodeChartRenderer.overlays, AxesRenderer.render.
  now rewrite Hlabels.
Qed.

(** C7, amended.  Two renders of the same data on the same canvas size, in
    the same time zone, make the same calls on the canvas whenever their
    clocks agree on which candles of the series are dated today, in
    particular when the clocks show the same local calendar day; and under
    any two clocks and time zones when the time axis is hidden.  This holds
    for every chart type whose renderer is in the sources whatever the
    line-break renderer is, and for a line-break chart when its renderer
    draws the same in both renders.  The clock enters through the time
    labels only. *)
Theorem render_deterministic_up_to_today
        (lineBreak1 lineBreak2 : ChartDimensions -> PriceRange -> ChartOptions
                                 -> list ChartOHLC -> list Cmd)
        (c1 c2 : Clock) (width height : Q) (data : NodeChartData) :
  (chartType (config data) = Some LineBreak -> lineBreak1 = lineBreak2) ->
  (utc_offset c1 = utc_offset c2 ->
   (forall candle, In candle (ohlc data) ->
                   isToday c1 (time candle) = isToday c2 (time candle)) ->
   NodeChartRenderer.renderChart lineBreak1 c1 width height data
   = NodeChartRenderer.renderChart lineBreak2 c2 width height data)
  /\ (utc_offset c1 = utc_offset c2 ->
      toDateString c1 (now c1) = toDateString c2 (now c2) ->
      NodeChartRenderer.renderChart lineBreak1 c1 width height data
      = NodeChartRenderer.renderChart lineBreak2 c2 width height data)
  /\ (showTimeAxis (config data) = Some false ->
      NodeChartRenderer.renderChart lineBreak1 c1 width height data
      = NodeChartRenderer.renderChart lineBreak2 c2 width height data).
Proof.
  intros Hlb.
  rewrite (renderChart_line_break lineBreak1 lineBreak2 c1 width height data Hlb).
  split; [|split].
  - intros Hzone Hday. apply renderChart_clock. intros dimensions.
    now apply drawTimeLabels_today.
  - intros Hzone Hnow. apply renderChart_clock. intros dimensions.
    apply drawTimeLabels_today; [exact Hzone|]. intros candle _.
    unfold isToday. rewrite <- Hnow. unfold toDateString. now rewrite Hzone.
  - intros Hhidden. apply renderChart_clock. intros dimensions.
    now rewrite !drawTimeLabels_hidden.
Qed.

Lemma render_deterministic_up_to_today_witness :
  NodeChartRenderer.renderChart
    no_line_break (mkClock 7200000 0) 800 600 (mkData two_candles None no_options)
  = NodeChartRenderer.renderChart
      (fun _ _ _ _ => [stroke]) (mkClock 80000000 0) 800 600
      (mkData two_candles None no_options).
Proof.
  apply (proj1 (render_deterministic_up_to_today
                  no_line_break (fun _ _ _ _ => [stroke])
                  (mkClock 7200000 0) (mkClock 80000000 0)
                  800 600 (mkData two_candles None no_options)
                  ltac:(intros H; discriminate H))).
  - reflexivity.
  - intros candle [<-|[<-|[]]]; reflexivity.
Defined.

(** C7, as stated, fails: the same two candles of 1 January 1970 rendered
    with the same options at two o'clock that day and at two o'clock the
    next day are labelled differently on the time axis (the time alone the
    first time, month, day and time the second). *)
Lemma render_depends_on_wall_clock :
  formatTime (mkClock 7200000 0) 0 = toLocaleTimeString 0
  /\ formatTime (mkClock 93600000 0) 0 = toLocaleDateString 0
  /\ NodeChartRenderer.renderChart
       no_line_break (mkClock 7200000 0) 800 600
       (mkData two_candles None no_options)
     <> NodeChartRenderer.renderChart
          no_line_break (mkClock 93600000 0) 800 600
          (mkData two_candles None no_options).
Proof.
  split; [reflexivity|]. split; [reflexivity|].
  vm_compute. intros H. discriminate H.
Qed.

(** ** Heikin-Ashi values stay within the range of the candles *)





(** ** Which range each layer is drawn in *)




(* ================================================================== *)
(** * Further properties of the code *)

(** ** Scaling: clamps and multipliers *)

Lemma unclamped_fields (config : ChartOptions) :
  scale_field autoScale (unclamped config) = scale_field autoScale config
  /\ scale_field scale_x (unclamped config) = scale_field scale_x config
  /\ scale_field scale_y (unclamped config) = scale_field scale_y config
  /\ scale_field minScale (unclamped config) = None
  /\ scale_field maxScale (unclamped config) = None.
Proof.
  unfold unclamped, scale_field. cbn [scale].
  destruct (scale config); repeat split.
Qed.

(** X1.  The manual clamps of [calculatePriceRange] only ever shrink the
    range: compared with the same options without [minScale] and
    [maxScale], the minimum is not lower, the maximum not higher and the
    range not larger; the minimum is at least [minScale] and the maximum at
    most [maxScale]; and a [minScale] above the unclamped maximum is
    accepted and gives a negative range. *)
Theorem clamps_only_shrink (ohlc : list ChartOHLC) (config : ChartOptions)
        (r0 r : PriceRange) :
  calculatePriceRange ohlc (unclamped config) = Some r0 ->
  calculatePriceRange ohlc config = Some r ->
  minPrice r0 <= minPrice r
  /\ maxPrice r <= maxPrice r0
  /\ priceRange r <= priceRange r0
  /\ priceRange r = maxPrice r - minPrice r
  /\ (forall m, scale_field minScale config = Some m -> m <= minPrice r)
  /\ (forall m, scale_field maxScale config = Some m -> maxPrice r <= m)
  /\ (forall m, scale_field minScale config = Some m ->
                scale_field maxScale config = None ->
                maxPrice r0 < m -> priceRange r < 0).
Proof.
  intros H0 H.
  destruct (prices_of ohlc) as [|p ps] eqn:Ep.
  { unfold calculatePriceRange in H. rewrite Ep in H. discriminate H. }
  assert (Hlo : Math_min (prices_of ohlc) = Some (fold_left Qmin ps p))
    by (rewrite Ep; reflexivity).
  assert (Hhi : Math_max (prices_of ohlc) = Some (fold_left Qmax ps p))
    by (rewrite Ep; reflexivity).
  rewrite (calculatePriceRange_stages ohlc (unclamped config) _ _ Hlo Hhi) in H0.
  rewrite (calculatePriceRange_stages ohlc config _ _ Hlo Hhi) in H.
  destruct (unclamped_fields config) as (Ea & Ex & Ey & Emin & Emax).
  rewrite Ea, Ex, Ey, Emin, Emax in H0. cbn zeta in H0, H.
  set (b := multiplied _ _) in H0, H.
  injection H0 as <-. injection H as <-. cbn [minPrice maxPrice priceRange].
  assert (Hmin : fst b <= match scale_field minScale config with
                          | Some m => Qmax (fst b) m
                          | None => fst b
                          end).
  { destruct (scale_field minScale config); [apply Q.le_max_l | apply Qle_refl]. }
  assert (Hmax : match scale_field maxScale config with
                 | Some m => Qmin (snd b) m
                 | None => snd b
                 end <= snd b).
  { destruct (scale_field maxScale config); [apply Q.le_min_l | apply Qle_refl]. }
  split; [exact Hmin|]. split; [exact Hmax|]. split; [lra|].
  split; [reflexivity|]. split; [|split].
  - intros m ->. apply Q.le_max_r.
  - intros m ->. apply Q.le_min_r.
  - intros m -> -> Hm. pose proof (Q.le_max_r (fst b) m). lra.
Qed.

Lemma clamps_only_shrink_witness :
  exists r0 r,
    calculatePriceRange
      two_candles
      (unclamped (with_scale (mkScale None None None (Some 100) (Some 115))))
    = Some r0
    /\ calculatePriceRange
         two_candles (with_scale (mkScale None None None (Some 100) (Some 115)))
       = Some r
    /\ minPrice r0 <= minPrice r /\ maxPrice r <= maxPrice r0.
Proof.
  do 2 eexists. split; [reflexivity|]. split; [reflexivity|].
  destruct (clamps_only_shrink
              two_candles (with_scale (mkScale None None None (Some 100) (Some 115)))
              _ _ eq_refl eq_refl) as (H1 & H2 & _).
  split; [exact H1 | exact H2].
Defined.



(** ** The VWAP gate *)

Lemma hasVolumeData_false (ohlc : list ChartOHLC) :
  hasVolumeData ohlc = false ->
  forall c, In c ohlc -> volume_or_zero c <= 0.
Proof.
  unfold hasVolumeData. intros H c Hc.
  assert (Hc' : match volume c with Some v => Qltb 0 v | None => false end = false).
  { destruct (match volume c with Some v => Qltb 0 v | None => false end) eqn:E;
      [|reflexivity].
    assert (existsb (fun candle => match volume candle with
                                   | Some v => Qltb 0 v
                                   | None => false
                                   end) ohlc = true)
      by (apply existsb_exists; exists c; auto).
    congruence. }
  unfold volume_or_zero. destruct (volume c) as [v|]; [|apply Qle_refl].
  apply Qltb_nlt in Hc'. lra.
Qed.

Lemma Qsum_nonpos (xs : list Q) : Forall (fun x => x <= 0) xs -> Qsum xs <= 0.
Proof.
  induction 1 as [|x xs Hx _ IH]; simpl; [apply Qle_refl | lra].
Qed.

(** X3.  When [hasVolumeData] is false (no candle has a volume above
    zero) every point of [calculateVWAP] is the typical price of its
    candle. *)
Theorem vwap_without_volume_is_typical_price (ohlc : list ChartOHLC) :
  hasVolumeData ohlc = false ->
  forall i c,
    nth_error ohlc i = Some c ->
    nth_error (VWAPRenderer.calculateVWAP ohlc) i
    = Some (mkPoint (time c) (Fin (VWAPRenderer.typicalPrice c))).
Proof.
  intros Hvol i c Hc. unfold VWAPRenderer.calculateVWAP.
  destruct ohlc as [|c0 rest] eqn:Eo; [destruct i; discriminate Hc|].
  rewrite <- Eo in *. replace (Nat.eqb (List.length ohlc) 0) with false
    by (rewrite Eo; reflexivity).
  destruct (fold_left VWAPRenderer.step ohlc (0, 0, [])) as [[a' b'] d'] eqn:F.
  destruct (vwap_fold ohlc 0 0 [] a' b' d' F) as (_ & _ & Hpts).
  destruct (Hpts i c Hc) as (v & Hnth & _ & Hneg).
  cbn [snd]. cbn [List.length Nat.add] in Hnth. rewrite Hnth, Hneg; [reflexivity|].
  cbn zeta.
  assert (Qsum (map volume_or_zero (firstn (S i) ohlc)) <= 0).
  { apply Qsum_nonpos, Forall_map, Forall_forall. intros x Hx.
    apply (hasVolumeData_false ohlc Hvol). eapply in_firstn, Hx. }
  lra.
Qed.

Lemma vwap_without_volume_is_typical_price_witness :
  nth_error (VWAPRenderer.calculateVWAP
               [mkOHLC 0 100 110 90 105 (Some 0);
                mkOHLC 3600000 105 120 95 98 (Some (-3))]) 1
  = Some (mkPoint 3600000
            (Fin (VWAPRenderer.typicalPrice (mkOHLC 3600000 105 120 95 98 (Some (-3)))))).
Proof.
  apply (vwap_without_volume_is_typical_price
           [mkOHLC 0 100 110 90 105 (Some 0);
            mkOHLC 3600000 105 120 95 98 (Some (-3))]
           eq_refl 1%nat (mkOHLC 3600000 105 120 95 98 (Some (-3))) eq_refl).
Defined.

(** ** Heikin-Ashi: invariant and causality *)

(** X4.  When the first input candle satisfies the candle invariant
    (its high is at least, and its low at most, its open and close), every
    Heikin-Ashi candle does, whatever the later input candles are. *)
Theorem heikin_ashi_keeps_invariant (ohlc : list ChartOHLC) :
  (forall c, nth_error ohlc 0 = Some c -> Candle_invariant c) ->
  Forall Candle_invariant (HeikinAshiRenderer.calculateHeikinAshi ohlc).
Proof.
  intros Hfirst. unfold HeikinAshiRenderer.calculateHeikinAshi.
  assert (H : forall n, (n <= List.length ohlc)%nat ->
                        Forall Candle_invariant (HeikinAshiRenderer.loop ohlc n)).
  { induction n as [|i IH]; intros Hn; [constructor|].
    destruct (nth_error ohlc i) as [candle|] eqn:Hc.
    2:{ apply nth_error_None in Hc. lia. }
    destruct (ha_loop_snoc ohlc i candle Hc) as [[-> ->]|(prev & _ & _ & ->)].
    - constructor; [now apply Hfirst | constructor].
    - apply Forall_app. split; [apply IH; lia|].
      constructor; [|constructor].
      unfold Candle_invariant. cbn zeta. cbn [open close high low]. split.
      + apply Q.max_lub.
        * apply Qle_trans with (Qmax (high candle) ((open prev + close prev) / 2));
            [apply Q.le_max_r | apply Q.le_max_l].
        * apply Q.le_max_r.
      + apply Q.min_glb.
        * apply Qle_trans with (Qmin (low candle) ((open prev + close prev) / 2));
            [apply Q.le_min_l | apply Q.le_min_r].
        * apply Q.le_min_r. }
  apply H. lia.
Qed.

Lemma heikin_ashi_keeps_invariant_witness :
  Forall Candle_invariant (HeikinAshiRenderer.calculateHeikinAshi two_candles).
Proof.
  apply (heikin_ashi_keeps_invariant two_candles).
  intros c [= <-]. split; cbn; discriminate.
Defined.

Lemma ha_loop_app (l l' : list ChartOHLC) (n : nat) :
  (n <= List.length l)%nat ->
  HeikinAshiRenderer.loop (l ++ l') n = HeikinAshiRenderer.loop l n.
Proof.
  induction n as [|i IH]; intros Hn; [reflexivity|].
  cbn [HeikinAshiRenderer.loop]. rewrite IH by lia.
  unfold HeikinAshiRenderer.body. rewrite nth_error_app1 by lia. reflexivity.
Qed.

Lemma ha_loop_firstn (ohlc : list ChartOHLC) (n m : nat) :
  (n <= m)%nat -> (m <= List.length ohlc)%nat ->
  firstn n (HeikinAshiRenderer.loop ohlc m) = HeikinAshiRenderer.loop ohlc n.
Proof.
  intros Hnm. induction m as [|i IH]; intros Hm.
  - replace n with 0%nat by lia. reflexivity.
  - destruct (Nat.eq_dec n (S i)) as [->|Hne].
    + rewrite <- (ha_loop_length ohlc (S i) Hm) at 1. apply firstn_all.
    + destruct (nth_error ohlc i) as [candle|] eqn:Hc.
      2:{ apply nth_error_None in Hc. lia. }
      pose proof (ha_loop_length ohlc i ltac:(lia)) as Hlen.
      assert (Hs : exists x, HeikinAshiRenderer.loop ohlc (S i)
                             = HeikinAshiRenderer.loop ohlc i ++ [x]).
      { destruct (ha_loop_snoc ohlc i candle Hc) as [[-> ->]|(prev & _ & _ & ->)];
          [exists candle; reflexivity | eauto]. }
      destruct Hs as [x ->].
      rewrite firstn_app, Hlen.
      replace (n - i)%nat with 0%nat by lia.
      rewrite firstn_O, app_nil_r. apply IH; lia.
Qed.

(** X5.  The Heikin-Ashi candles of a series do not depend on the candles
    that come later: the transform of a series extended at its end starts
    with the transform of the series. *)
Theorem heikin_ashi_prefix (l l' : list ChartOHLC) :
  firstn (List.length l) (HeikinAshiRenderer.calculateHeikinAshi (l ++ l'))
  = HeikinAshiRenderer.calculateHeikinAshi l.
Proof.
  unfold HeikinAshiRenderer.calculateHeikinAshi.
  rewrite ha_loop_firstn by (rewrite ?length_app; lia).
  apply ha_loop_app. lia.
Qed.

(** ** Renko bricks *)

Lemma last_close_snoc (start : Q) (blocks : list RenkoRenderer.RenkoBlock)
      (block : RenkoRenderer.RenkoBlock) :
  last_close start (blocks ++ [block]) = RenkoRenderer.b_close block.
Proof.
  unfold last_close. now rewrite fold_left_app.
Qed.

Lemma chained_snoc (start : Q) (blocks : list RenkoRenderer.RenkoBlock)
      (block : RenkoRenderer.RenkoBlock) :
  chained start blocks ->
  RenkoRenderer.b_open block = last_close start blocks ->
  chained start (blocks ++ [block]).
Proof.
  unfold last_close. revert start.
  induction blocks as [|b rest IH]; intros start Hch Ho; simpl in *.
  - split; [exact Ho | exact I].
  - destruct Hch as [Hb Hrest]. split; [exact Hb|]. now apply IH.
Qed.

Lemma push_blocks_invariant (brickSize start : Q) (candles : list ChartOHLC)
      (candle : ChartOHLC) (direction : Q) (n : nat) :
  In candle candles ->
  direction = 1 \/ direction = -1 ->
  forall st,
    renko_invariant brickSize start candles st ->
    renko_invariant brickSize start candles
      (RenkoRenderer.push_blocks (time candle) direction brickSize n st).
Proof.
  intros Hin Hdir. induction n as [|n IH]; intros [cp renko] Hinv; [exact Hinv|].
  cbn [RenkoRenderer.push_blocks]. apply IH.
  destruct Hinv as (Hch & Hcp & Hsize & Htime). cbn [fst snd] in *.
  unfold renko_invariant. cbn [fst snd].
  split; [|split; [|split]].
  - apply chained_snoc; [exact Hch | exact Hcp].
  - now rewrite last_close_snoc.
  - apply Forall_app. split; [exact Hsize|].
    constructor; [|constructor]. unfold brick_of_size. cbn. auto.
  - apply Forall_app. split; [exact Htime|].
    constructor; [|constructor]. exists candle. split; [exact Hin | reflexivity].
Qed.

Lemma renko_run_invariant (brickSize start : Q) (candles : list ChartOHLC) :
  forall (todo : list ChartOHLC) (st st' : RenkoRenderer.state),
    incl todo candles ->
    renko_invariant brickSize start candles st ->
    RenkoRenderer.run brickSize st todo = Returns st' ->
    renko_invariant brickSize start candles st'.
Proof.
  induction todo as [|c todo IH]; intros st st' Hincl Hinv Hrun.
  - injection Hrun as <-. exact Hinv.
  - cbn [RenkoRenderer.run] in Hrun. unfold RenkoRenderer.step in Hrun at 1.
    destruct (RenkoRenderer.blocksNeeded _ _ _) as [n|]; [|discriminate Hrun].
    cbn [bind] in Hrun.
    eapply IH; [| |exact Hrun].
    + intros x Hx. apply Hincl. now right.
    + apply push_blocks_invariant; [apply Hincl; now left | | exact Hinv].
      destruct (Qltb 0 (close c - fst st)); auto.
Qed.

(** X6.  The bricks [calculateRenko] returns form one chain: the first
    opens at the close of the first candle and every next one opens
    exactly where the one before closed.  Each brick moves its open by the
    brick-size fraction of that open, up (direction 1) or down
    (direction -1), has its two ends as high and low, and carries the
    time of one of the later candles. *)
Theorem renko_bricks_are_chained
        (first : ChartOHLC) (rest : list ChartOHLC) (brickSize : Q)
        (blocks : list RenkoRenderer.RenkoBlock) :
  RenkoRenderer.calculateRenko (first :: rest) brickSize = Returns blocks ->
  chained (close first) blocks
  /\ Forall (brick_of_size brickSize) blocks
  /\ Forall (fun b => exists c, In c rest /\ RenkoRenderer.b_time b = time c)
            blocks.
Proof.
  unfold RenkoRenderer.calculateRenko. intros H.
  destruct (RenkoRenderer.run brickSize (close first, []) rest) as [st| |] eqn:Hrun;
    try discriminate H.
  injection H as <-.
  assert (Hinv : renko_invariant brickSize (close first) rest st).
  { eapply renko_run_invariant; [apply incl_refl | | exact Hrun].
    unfold renko_invariant. cbn. repeat split; constructor. }
  destruct Hinv as (Hch & _ & Hsize & Htime). auto.
Qed.

Lemma renko_bricks_are_chained_witness :
  exists blocks,
    RenkoRenderer.calculateRenko
      [mkOHLC 0 100 110 90 100 None; mkOHLC 3600000 100 110 90 105 None] 0.02
    = Returns blocks
    /\ chained 100 blocks /\ List.length blocks = 2%nat.
Proof.
  eexists. split; [vm_compute; reflexivity|].
  split; [|reflexivity].
  apply (renko_bricks_are_chained
           (mkOHLC 0 100 110 90 100 None) [mkOHLC 3600000 100 110 90 105 None] 0.02).
  vm_compute. reflexivity.
Defined.

Lemma renko_run_from_zero (brickSize : Q) (blocks : list RenkoRenderer.RenkoBlock) :
  0 <= brickSize ->
  forall (candles : list ChartOHLC) (cp : Q),
    cp == 0 ->
    (Forall (fun c => close c == 0) candles ->
     RenkoRenderer.run brickSize (cp, blocks) candles = Returns (cp, blocks))
    /\ (Exists (fun c => ~ close c == 0) candles ->
        RenkoRenderer.run brickSize (cp, blocks) candles = Diverges).
Proof.
  intros Hbs. induction candles as [|c candles IH]; intros cp Hcp.
  - split; [reflexivity | intros H; inversion H].
  - cbn [RenkoRenderer.run]. unfold RenkoRenderer.step. cbn [fst].
    unfold RenkoRenderer.blocksNeeded. rewrite (Qeq_eq_bool _ _ Hcp).
    destruct (Qeq_bool (close c - cp) 0) eqn:E.
    + apply Qeq_bool_eq in E. cbn [bind Z.to_nat RenkoRenderer.push_blocks].
      destruct (IH cp Hcp) as [Hall Hex]. split.
      * intros H. apply Hall. now inversion H.
      * intros H. apply Hex. inversion H as [? ? Hc|]; [|assumption].
        exfalso. apply Hc. lra.
    + apply Qeq_bool_neq in E.
      replace (Qleb 0 brickSize) with true
        by (symmetry; apply Qle_bool_iff; exact Hbs).
      cbn [bind]. split; [|reflexivity].
      intros H. inversion H as [|? ? Hc]. exfalso. apply E. lra.
Qed.

(** X7.  When the first candle closes at 0 and the brick size is
    positive, [calculateRenko] returns no brick if every later candle
    closes at 0 too (the relative change is [0 / 0], which fails the
    comparison with the brick size), and never returns if some later candle
    does not: the relative change is then infinite and the loop that pushes
    bricks has no end.  [RenkoRenderer.render], which uses the brick size
    0.02, does not return either. *)
Theorem renko_from_zero_close_never_returns
        (first : ChartOHLC) (rest : list ChartOHLC) (brickSize : Q)
        (dimensions : ChartDimensions) (range : PriceRange)
        (config : ChartOptions) :
  0 < brickSize ->
  close first == 0 ->
  (Forall (fun c => close c == 0) rest ->
   RenkoRenderer.calculateRenko (first :: rest) brickSize = Returns [])
  /\ (Exists (fun c => ~ close c == 0) rest ->
      RenkoRenderer.calculateRenko (first :: rest) brickSize = Diverges
      /\ RenkoRenderer.render dimensions range config (first :: rest)
         = Diverges).
Proof.
  intros Hpos H0.
  destruct (renko_run_from_zero brickSize [] (Qlt_le_weak _ _ Hpos) rest
                                (close first) H0) as [Hr Hd].
  destruct (renko_run_from_zero 0.02 [] ltac:(discriminate) rest
                                (close first) H0) as [_ Hd2].
  split.
  - intros Hall. unfold RenkoRenderer.calculateRenko. now rewrite (Hr Hall).
  - intros Hex. split.
    + unfold RenkoRenderer.calculateRenko. now rewrite (Hd Hex).
    + unfold RenkoRenderer.render, RenkoRenderer.calculateRenko.
      now rewrite (Hd2 Hex).
Qed.

Lemma renko_from_zero_close_never_returns_witness :
  RenkoRenderer.render (NodeChartRenderer.dimensions_of 800 600 renko_options)
                       (mkPriceRange 0 10 10) renko_options
                       [mkOHLC 0 0 5 0 0 None; mkOHLC 3600000 0 10 0 8 None]
  = Diverges.
Proof.
  apply (renko_from_zero_close_never_returns
           (mkOHLC 0 0 5 0 0 None) [mkOHLC 3600000 0 10 0 8 None] 0.02
           (NodeChartRenderer.dimensions_of 800 600 renko_options)
           (mkPriceRange 0 10 10) renko_options
           ltac:(reflexivity) ltac:(reflexivity)).
  constructor. cbn. discriminate.
Defined.

Lemma Qabs_quotient_lt (a b c : Q) :
  Qabs a < c * Qabs b -> ~ b == 0 /\ Qabs (a / b) < c.
Proof.
  intros H. pose proof (Qabs_nonneg a) as Ha.
  assert (Hbpos : 0 < Qabs b).
  { destruct (Qlt_le_dec 0 (Qabs b)) as [Hp|Hn]; [exact Hp|].
    pose proof (Qabs_nonneg b) as Hb0.
    assert (E : Qabs b == 0) by lra. rewrite E in H. lra. }
  split.
  - intros E. rewrite E in Hbpos. cbn in Hbpos. lra.
  - unfold Qdiv. rewrite Qabs_Qmult, Qabs_Qinv.
    apply Qlt_shift_div_r; assumption.
Qed.

(** X8.  A series whose closes all stay closer to the first close than one
    brick (in absolute value less than the brick size times the first
    close) yields no brick. *)
Theorem renko_moves_below_brick_size_give_no_brick
        (first : ChartOHLC) (rest : list ChartOHLC) (brickSize : Q) :
  Forall (fun c => Qabs (close c - close first) < brickSize * Qabs (close first))
         rest ->
  RenkoRenderer.calculateRenko (first :: rest) brickSize = Returns [].
Proof.
  intros H. unfold RenkoRenderer.calculateRenko.
  assert (Hrun : RenkoRenderer.run brickSize (close first, []) rest
                 = Returns (close first, [])).
  { induction H as [|c rest Hc _ IH]; [reflexivity|].
    cbn [RenkoRenderer.run]. unfold RenkoRenderer.step at 1. cbn [fst].
    destruct (Qabs_quotient_lt _ _ _ Hc) as [Hnz Hlt].
    unfold RenkoRenderer.blocksNeeded.
    destruct (Qeq_bool (close first) 0) eqn:E;
      [apply Qeq_bool_eq in E; contradiction|].
    destruct (Qleb brickSize (Qabs ((close c - close first) / close first))) eqn:L.
    { apply Qle_bool_iff in L. lra. }
    cbn [bind Z.to_nat RenkoRenderer.push_blocks]. exact IH. }
  rewrite Hrun. reflexivity.
Qed.

Lemma renko_moves_below_brick_size_give_no_brick_witness :
  RenkoRenderer.calculateRenko
    [mkOHLC 0 100 110 90 100 None; mkOHLC 3600000 100 110 90 101 None;
     mkOHLC 7200000 101 110 90 (985 # 10) None] 0.02
  = Returns [].
Proof.
  apply (renko_moves_below_brick_size_give_no_brick
           (mkOHLC 0 100 110 90 100 None)
           [mkOHLC 3600000 100 110 90 101 None;
            mkOHLC 7200000 101 110 90 (985 # 10) None] 0.02).
  repeat constructor.
Defined.

(** ** The EMA overlay *)

(** The loop of [calculateEMA] with a finite multiplier, after the first
    candle: every value is finite; and a close equal to the value before
    leaves the value as it is, [(close - ema) * multiplier + ema] being
    [0 * multiplier + ema]. *)
Lemma ema_run_finite (multiplier : Q) :
  forall (candles : list ChartOHLC) (e : Q) (data : list IndicatorPoint)
         (index : nat),
    (0 < index)%nat ->
    exists e' points,
      EMARenderer.run (Fin multiplier) (Fin e, data) candles index
      = (Fin e', data ++ points)
      /\ List.length points = List.length candles
      /\ Forall (fun p => exists v, p_value p = Fin v) points
      /\ forall k,
           e == k ->
           Forall (fun c => close c == k) candles ->
           Forall (fun p => exists v, p_value p = Fin v /\ v == k) points.
Proof.
  induction candles as [|c candles IH]; intros e data index Hi.
  - exists e, []. rewrite app_nil_r. repeat split; constructor.
  - cbn [EMARenderer.run]. unfold EMARenderer.step.
    replace (Nat.eqb index 0) with false by (symmetry; apply Nat.eqb_neq; lia).
    cbn [nsub nmul nadd].
    set (e1 := (close c - e) * multiplier + e).
    destruct (IH e1 (data ++ [mkPoint (time c) (Fin e1)]) (S index) ltac:(lia))
      as (e' & points & Hrun & Hlen & Hfin & Hconst).
    exists e', (mkPoint (time c) (Fin e1) :: points).
    rewrite Hrun, <- app_assoc. split; [reflexivity|].
    split; [simpl; lia|].
    split; [constructor; [eexists; reflexivity | exact Hfin]|].
    intros k He Hall. inversion Hall as [|? ? Hc Hrest]; subst.
    assert (He1 : e1 == k) by (unfold e1; rewrite Hc, He; ring).
    constructor; [exists e1; auto | now apply Hconst].
Qed.

(** X9.  For a period other than -1, [calculateEMA] returns one value
    per candle and the first one is the first close; for a series whose
    closes are all one price every value is that price. *)
Theorem ema_of_constant_closes_is_constant
        (period : Q) (ohlc : list ChartOHLC) :
  ~ period == -1 ->
  let emaData := EMARenderer.calculateEMA period ohlc in
  List.length emaData = List.length ohlc
  /\ (forall c, nth_error ohlc 0 = Some c ->
                nth_error emaData 0 = Some (mkPoint (time c) (Fin (close c))))
  /\ (forall k,
        Forall (fun c => close c == k) ohlc ->
        Forall (fun p => exists v, p_value p = Fin v /\ v == k) emaData).
Proof.
  intros Hp. cbn zeta.
  destruct ohlc as [|c rest].
  { repeat split; try constructor. intros c H; discriminate H. }
  assert (Hcalc : exists points,
             EMARenderer.calculateEMA period (c :: rest)
             = mkPoint (time c) (Fin (close c)) :: points
             /\ List.length points = List.length rest
             /\ Forall (fun p => exists v, p_value p = Fin v) points
             /\ forall k,
                  close c == k ->
                  Forall (fun c => close c == k) rest ->
                  Forall (fun p => exists v, p_value p = Fin v /\ v == k) points).
  { unfold EMARenderer.calculateEMA.
    cbn [EMARenderer.run]. unfold EMARenderer.step. cbn [Nat.eqb app].
    assert (Hk : exists m, (Fin 2 / Fin (period + 1))%num = Fin m).
    { cbn [ndiv]. destruct (Qeq_bool (period + 1) 0) eqn:E.
      - apply Qeq_bool_eq in E. exfalso. apply Hp. lra.
      - eexists. reflexivity. }
    destruct Hk as (m & ->).
    destruct (ema_run_finite m rest (close c)
                [mkPoint (time c) (Fin (close c))] 1%nat ltac:(lia))
      as (e' & points & -> & Hlen & Hfin & Hconst).
    exists points. cbn [snd app]. auto. }
  destruct Hcalc as (points & -> & Hlen & Hfin & Hconst).
  split; [simpl; lia|]. split.
  - intros c' [= <-]. reflexivity.
  - intros k Hall. inversion Hall as [|? ? Hc Hrest]; subst.
    constructor; [exists (close c); auto | now apply Hconst].
Qed.

Lemma ema_of_constant_closes_is_constant_witness :
  Forall (fun p => exists v, p_value p = Fin v /\ v == 100)
         (EMARenderer.calculateEMA
            20 [flat_candle; mkOHLC 3600000 100 101 99 100 None;
                mkOHLC 7200000 99 102 98 100 None]).
Proof.
  apply (proj2 (proj2
           (ema_of_constant_closes_is_constant
              20 [flat_candle; mkOHLC 3600000 100 101 99 100 None;
                  mkOHLC 7200000 99 102 98 100 None]
              ltac:(discriminate)))).
  repeat constructor.
Defined.

Lemma nonfinite_step (c : Q) (ema : num) :
  (forall e, ema <> Fin e) ->
  forall e, ((Fin c - ema) * PInf + ema)%num <> Fin e.
Proof.
  intros H e. destruct ema as [q| | |]; cbn; try discriminate.
  exfalso. now apply (H q).
Qed.

Lemma ema_run_nonfinite :
  forall (candles : list ChartOHLC) (ema : num) (data : list IndicatorPoint)
         (index : nat),
    (0 < index)%nat ->
    (forall e, ema <> Fin e) ->
    exists ema' points,
      EMARenderer.run PInf (ema, data) candles index = (ema', data ++ points)
      /\ List.length points = List.length candles
      /\ Forall (fun p => forall v, p_value p <> Fin v) points.
Proof.
  induction candles as [|c candles IH]; intros ema data index Hi Hema.
  - exists ema, []. rewrite app_nil_r. repeat split. constructor.
  - cbn [EMARenderer.run]. unfold EMARenderer.step.
    replace (Nat.eqb index 0) with false by (symmetry; apply Nat.eqb_neq; lia).
    pose proof (nonfinite_step (close c) ema Hema) as Hnext.
    destruct (IH _ (data ++ [mkPoint (time c)
                               ((Fin (close c) - ema) * PInf + ema)%num])
                 (S index) ltac:(lia) Hnext) as (e' & points & Hrun & Hlen & Hpts).
    exists e'. eexists (_ :: points).
    rewrite Hrun, <- app_assoc. split; [reflexivity|].
    split; [simpl; lia|]. constructor; [exact Hnext | exact Hpts].
Qed.

(** X10.  The gate of [drawChart] lets the period -1 through ([-1] is
    truthy); the multiplier [2 / (period + 1)] is then [Infinity], and every
    value of [calculateEMA] after the first is NaN or an infinity. *)
Theorem ema_period_minus_one_is_not_finite
        (period : Q) (ohlc : list ChartOHLC) :
  period == -1 ->
  truthy (Some period) = true
  /\ forall i p,
       (0 < i)%nat ->
       nth_error (EMARenderer.calculateEMA period ohlc) i = Some p ->
       forall v, p_value p <> Fin v.
Proof.
  intros Hp. split.
  { change (negb (Qeq_bool period 0) = true).
    destruct (Qeq_bool period 0) eqn:E; [|reflexivity].
    apply Qeq_bool_eq in E. rewrite Hp in E. discriminate E. }
  destruct ohlc as [|c [|c1 rest]].
  { intros [|i] p _ H; discriminate H. }
  { intros [|[|i]] p Hi H; try lia; discriminate H. }
  assert (Hcalc : exists e1 points,
             EMARenderer.calculateEMA period (c :: c1 :: rest)
             = mkPoint (time c) (Fin (close c)) :: mkPoint (time c1) e1 :: points
             /\ (forall e, e1 <> Fin e)
             /\ Forall (fun p => forall v, p_value p <> Fin v) points).
  { unfold EMARenderer.calculateEMA.
    assert (Hm : (Fin 2 / Fin (period + 1))%num = PInf).
    { cbn [ndiv]. replace (Qeq_bool (period + 1) 0) with true; [reflexivity|].
      symmetry. apply Qeq_eq_bool. rewrite Hp. reflexivity. }
    rewrite Hm.
    cbn [EMARenderer.run]. unfold EMARenderer.step. cbn [Nat.eqb app].
    set (e1 := ((Fin (close c1) - Fin (close c)) * PInf + Fin (close c))%num).
    assert (He1 : forall e, e1 <> Fin e).
    { intros e. unfold e1. cbn [nsub nmul].
      destruct (close c1 - close c ?= 0); cbn; discriminate. }
    destruct (ema_run_nonfinite rest e1
                [mkPoint (time c) (Fin (close c)); mkPoint (time c1) e1]
                2%nat ltac:(lia) He1) as (e' & points & -> & _ & Hpts).
    exists e1, points. cbn [snd app]. auto. }
  destruct Hcalc as (e1 & points & -> & He1 & Hpts).
  intros [|[|i]] p Hi H; [lia| |].
  - injection H as <-. exact He1.
  - cbn in H. rewrite Forall_forall in Hpts. apply Hpts.
    eapply nth_error_In, H.
Qed.

Lemma ema_period_minus_one_is_not_finite_witness :
  exists p,
    nth_error (EMARenderer.calculateEMA (-1) two_candles) 1 = Some p
    /\ forall v, p_value p <> Fin v.
Proof.
  eexists. split; [reflexivity|].
  apply (proj2 (ema_period_minus_one_is_not_finite (-1) two_candles (Qeq_refl _))
               1%nat _ (Nat.lt_0_1)).
  reflexivity.
Defined.

(** ** The SMA overlay *)

Lemma Qn_S (n : nat) : Qn (S n) == Qn n + 1.
Proof.
  unfold Qn. rewrite Nat2Z.inj_succ, <- Z.add_1_r, inject_Z_plus. reflexivity.
Qed.

Lemma Qn_pos (n : nat) : (0 < n)%nat -> 0 < Qn n.
Proof.
  intros H. unfold Qn. change 0 with (inject_Z 0). rewrite <- Zlt_Qlt. lia.
Qed.

(** The inner loop of [calculateSMA] adds up the closes of the window. *)
Lemma window_sum_from (ohlc : list ChartOHLC) (period : nat) :
  forall (start : nat) (acc : Q),
    (start + period <= List.length ohlc)%nat ->
    fold_left (fun sum j =>
                 match nth_error ohlc j with
                 | Some candle => sum + close candle
                 | None => sum
                 end)
              (seq start period) acc
    == acc + Qsum (map close (firstn period (skipn start ohlc))).
Proof.
  induction period as [|p IH]; intros start acc Hlen.
  - cbn. ring.
  - cbn [seq fold_left].
    destruct (nth_error ohlc start) as [c|] eqn:Hc.
    2:{ apply nth_error_None in Hc. lia. }
    rewrite IH by lia.
    assert (Hs : skipn start ohlc = c :: skipn (S start) ohlc).
    { clear -Hc. revert ohlc Hc. induction start as [|s IHs]; intros [|x l] Hc;
        try discriminate Hc.
      - now injection Hc as <-.
      - cbn [nth_error] in Hc. cbn [skipn]. now apply IHs. }
    rewrite Hs. cbn [firstn map].
    change (Qsum (close c :: map close (firstn p (skipn (S start) ohlc))))
      with (close c + Qsum (map close (firstn p (skipn (S start) ohlc)))).
    ring.
Qed.

Lemma flat_map_singletons {A B} (f : A -> list B) (g : A -> B) (l : list A) :
  (forall x, In x l -> f x = [g x]) -> flat_map f l = map g l.
Proof.
  induction l as [|x l IH]; intros H; [reflexivity|].
  cbn [flat_map map]. rewrite (H x (or_introl eq_refl)), IH; [reflexivity|].
  intros y Hy. apply H. now right.
Qed.

(** The points of [calculateSMA] for a period of at least 1: point [i] is
    at the time of the last candle of the window that starts at [i], and
    its value is the mean of the closes of that window. *)
Lemma sma_points (period : nat) (ohlc : list ChartOHLC) :
  (0 < period)%nat ->
  exists smaData,
    SMARenderer.calculateSMA period ohlc = Returns smaData
    /\ List.length smaData = (List.length ohlc + 1 - period)%nat
    /\ forall i,
         (i + period <= List.length ohlc)%nat ->
         exists c v,
           nth_error ohlc (i + period - 1) = Some c
           /\ nth_error smaData i = Some (mkPoint (time c) (Fin v))
           /\ v == Qsum (map close (firstn period (skipn i ohlc))) / Qn period.
Proof.
  intros Hp. unfold SMARenderer.calculateSMA.
  destruct period as [|p]; [lia|].
  destruct (Nat.ltb_spec (List.length ohlc) (S p)) as [Hshort|Hlong].
  { exists []. split; [reflexivity|]. split; [simpl; lia|]. intros i Hi. lia. }
  destruct ohlc as [|c0 rest] eqn:Eo; [simpl in Hlong; lia|]. rewrite <- Eo in *.
  set (g := fun i =>
              mkPoint (time (nth i ohlc c0))
                      (Fin (SMARenderer.window_sum ohlc (i + 1 - S p) (S p)
                            / Qn (S p)))).
  eexists. split; [reflexivity|].
  rewrite (flat_map_singletons _ g).
  2:{ intros i Hi. apply in_seq in Hi.
      destruct (nth_error ohlc i) as [c|] eqn:Hc.
      - unfold g. rewrite (nth_error_nth _ _ _ Hc). reflexivity.
      - apply nth_error_None in Hc. lia. }
  split; [rewrite length_map, length_seq; lia|].
  intros i Hi.
  destruct (nth_error ohlc (i + S p - 1)) as [c|] eqn:Hc.
  2:{ apply nth_error_None in Hc. lia. }
  exists c. eexists. split; [reflexivity|]. split.
  - rewrite nth_error_map, nth_error_seq.
    replace (Nat.ltb i (List.length ohlc - (S p - 1))) with true
      by (symmetry; apply Nat.ltb_lt; lia).
    cbn [option_map]. unfold g.
    replace (S p - 1 + i)%nat with (i + S p - 1)%nat by lia.
    rewrite (nth_error_nth _ _ _ Hc). reflexivity.
  - unfold SMARenderer.window_sum.
    replace (i + S p - 1 + 1 - S p)%nat with i by lia.
    rewrite window_sum_from by lia. apply Qdiv_comp; [ring | reflexivity].
Qed.

(** X11.  [calculateSMA] with a period of at least 1 returns
    [length - period + 1] points (none when the series is shorter than the
    period); point [i] carries the time of candle [i + period - 1] and
    the mean of the closes of the [period] candles from [i].  With the
    period 0 it throws. *)
Theorem sma_is_windowed_mean (period : nat) (ohlc : list ChartOHLC) :
  SMARenderer.calculateSMA 0 ohlc = Throws
  /\ ((0 < period)%nat ->
      exists smaData,
        SMARenderer.calculateSMA period ohlc = Returns smaData
        /\ List.length smaData = (List.length ohlc + 1 - period)%nat
        /\ forall i,
             (i + period <= List.length ohlc)%nat ->
             exists c v,
               nth_error ohlc (i + period - 1) = Some c
               /\ nth_error smaData i = Some (mkPoint (time c) (Fin v))
               /\ v == Qsum (map close (firstn period (skipn i ohlc)))
                       / Qn period).
Proof.
  split; [reflexivity | apply sma_points].
Qed.

Lemma sma_is_windowed_mean_witness :
  exists smaData,
    SMARenderer.calculateSMA 2 two_candles = Returns smaData
    /\ List.length smaData = 1%nat.
Proof.
  destruct (proj2 (sma_is_windowed_mean 2 two_candles) ltac:(lia))
    as (smaData & H & Hlen & _).
  exists smaData. split; [exact H | exact Hlen].
Defined.

(** ** Charts in the cells of a comparison *)

Lemma or_else_nonzero (q d : Q) : ~ q == 0 -> or_else (Some q) d = q.
Proof.
  intros H. unfold or_else, truthy, Truthy_option, truthy, Truthy_Q.
  destruct (Qeq_bool q 0) eqn:E; [|reflexivity].
  apply Qeq_bool_iff in E. contradiction.
Qed.

Lemma or_else_floor (v f d : Q) : 0 < f -> or_else (Some (Qmax v f)) d = Qmax v f.
Proof.
  intros Hf. apply or_else_nonzero. pose proof (Q.le_max_r v f). lra.
Qed.

Lemma cell_dimensions_fields (chartData : NodeChartData) (w h : Q) :
  let m := ComparisonRenderer.adjustMargins (margin (config chartData)) w h in
  exists t b l r,
    top m = Some t /\ bottom m = Some b /\ left m = Some l /\ right m = Some r
    /\ 20 <= t /\ 15 <= b /\ 20 <= l /\ 15 <= r
    /\ cell_dimensions chartData w h = mkDimensions w h t b l r (w - l - r) (h - t - b).
Proof.
  cbn zeta. unfold ComparisonRenderer.adjustMargins.
  set (scale := Qmin (w / 800) (h / 600)).
  set (m := match margin (config chartData) with
            | Some m => m
            | None => mkMargin (Some 60) (Some 40) (Some 60) (Some 40)
            end).
  do 4 eexists. cbn [top bottom left right].
  repeat (split; [reflexivity|]).
  repeat (split; [apply Q.le_max_r|]).
  unfold cell_dimensions, NodeChartRenderer.dimensions_of,
    ComparisonRenderer.adjustedData, ComparisonRenderer.adjustMargins.
  cbn [config margin top bottom left right].
  fold scale. fold m.
  rewrite !or_else_floor by reflexivity. reflexivity.
Qed.

(** X14.  A chart drawn in a cell of a comparison has margins of at least
    20 pixels at the top and on the left and of at least 15 pixels at the
    bottom and on the right, whatever margins it was given and however
    small the cell is: its plot area is at least 35 pixels narrower and
    lower than the cell. *)
Theorem cell_margins_have_floors (chartData : NodeChartData) (w h : Q) :
  let dimensions := cell_dimensions chartData w h in
  20 <= margin_top dimensions /\ 15 <= margin_bottom dimensions
  /\ 20 <= margin_left dimensions /\ 15 <= margin_right dimensions
  /\ chartWidth dimensions <= w - 35 /\ chartHeight dimensions <= h - 35.
Proof.
  cbn zeta.
  destruct (cell_dimensions_fields chartData w h)
    as (t & b & l & r & _ & _ & _ & _ & Ht & Hb & Hl & Hr & ->).
  cbn [margin_top margin_bottom margin_left margin_right chartWidth chartHeight].
  repeat split; lra.
Qed.

(** X15.  With the default margins the plot area of a chart in a cell is
    not empty as soon as the cell is wider and higher than 35 pixels. *)
Theorem cell_plot_area_is_positive (chartData : NodeChartData) (w h : Q) :
  margin (config chartData) = None ->
  35 < w -> 35 < h ->
  let dimensions := cell_dimensions chartData w h in
  0 < chartWidth dimensions /\ 0 < chartHeight dimensions.
Proof.
  intros Hm Hw Hh. cbn zeta.
  unfold cell_dimensions, NodeChartRenderer.dimensions_of,
    ComparisonRenderer.adjustedData, ComparisonRenderer.adjustMargins.
  cbn [config margin top bottom left right]. rewrite Hm.
  cbn [top bottom left right].
  rewrite !or_else_floor by reflexivity.
  rewrite !(or_else_nonzero _ _) by discriminate.
  cbn [chartWidth chartHeight].
  assert (E8 : w / 800 == w * (1 # 800)) by (field).
  assert (E6 : h / 600 == h * (1 # 600)) by (field).
  set (scale := Qmin (w / 800) (h / 600)).
  assert (Hs1 : scale <= w * (1 # 800)) by (rewrite <- E8; apply Q.le_min_l).
  assert (Hs2 : scale <= h * (1 # 600)) by (rewrite <- E6; apply Q.le_min_r).
  split.
  - destruct (Q.max_spec (60 * scale) 20) as [[_ ->]|[_ ->]];
      destruct (Q.max_spec (40 * scale) 15) as [[_ ->]|[_ ->]]; lra.
  - destruct (Q.max_spec (60 * scale) 20) as [[_ ->]|[_ ->]];
      destruct (Q.max_spec (40 * scale) 15) as [[_ ->]|[_ ->]]; lra.
Qed.

Lemma cell_plot_area_is_positive_witness :
  let dimensions := cell_dimensions (mkData two_candles None no_options) 790 800 in
  0 < chartWidth dimensions /\ 0 < chartHeight dimensions.
Proof.
  apply (cell_plot_area_is_positive (mkData two_candles None no_options) 790 800);
    reflexivity.
Defined.

(** ** Where the charts of a comparison are placed *)

(** X16.  In a side-by-side comparison the chart with index [i >= 2]
    (the third chart and every later one) is placed at
    [x = i * ((width - gap) / i + gap)]; with a gap of at least one pixel
    this is at or beyond the right edge of the canvas. *)
Theorem side_by_side_shows_two_charts (width height : Q)
        (layout : ComparisonLayout) (chartsData : list NodeChartData) (i : nat)
        (chart : ComparisonRenderer.ComparisonChart) :
  layout_type layout = side_by_side ->
  (2 <= i)%nat ->
  nth_error (ComparisonRenderer.addCharts width height layout chartsData) i
  = Some chart ->
  let gap := or_else (gap layout) 10 in
  let x := Qn i * ((width - gap) / Qn i + gap) in
  pos_x (ComparisonRenderer.position chart) = Fin x
  /\ (1 <= gap -> width <= x).
Proof.
  intros Hside Hi Hnth. cbn zeta.
  rewrite (side_by_side_position width height layout chartsData i chart Hside Hnth).
  cbn [pos_x]. replace (Nat.max i 2) with i by lia.
  split; [reflexivity|].
  set (g := or_else (gap layout) 10).
  assert (Hn : 2 <= Qn i).
  { unfold Qn. change 2 with (inject_Z 2). rewrite <- Zle_Qle. lia. }
  assert (E : Qn i * ((width - g) / Qn i + g) == width + (Qn i - 1) * g).
  { field. lra. }
  intros Hg. rewrite E.
  assert (0 <= (Qn i - 1) * g) by (apply Qmult_le_0_compat; lra). lra.
Qed.

Lemma side_by_side_shows_two_charts_witness :
  pos_x (ComparisonRenderer.position
           (ComparisonRenderer.mkChart
              (mkData [] None no_options)
              (mkPosition (Fin (2 * ((1600 - 20) / 2 + 20))) (Fin 0)
                          (Fin ((1600 - 20) / 2)) (Fin 800))))
  = Fin (Qn 2 * ((1600 - 20) / Qn 2 + 20))
  /\ (1 <= 20 -> 1600 <= Qn 2 * ((1600 - 20) / Qn 2 + 20)).
Proof.
  apply (side_by_side_shows_two_charts
           1600 800 (mkLayout side_by_side None None (Some 20))
           [mkData [] None no_options; mkData [] None no_options;
            mkData [] None no_options] 2).
  - reflexivity.
  - lia.
  - reflexivity.
Defined.


Lemma addCharts_two (width height : Q) (layout : ComparisonLayout)
      (d0 d1 : NodeChartData) :
  ComparisonRenderer.addCharts width height layout [d0; d1]
  = let c0 := ComparisonRenderer.mkChart
                d0 (ComparisonRenderer.calculatePosition
                      width height layout [] 0 (Some 1%nat)) in
    [c0;
     ComparisonRenderer.mkChart
       d1 (ComparisonRenderer.calculatePosition
             width height layout [c0] 1 (Some 2%nat))].
Proof.
  reflexivity.
Qed.

(** X17.  A grid of two charts with two columns (the default, and what
    any larger column count is cut down to) places them as the
    side-by-side layout with the same gap does: both of the full height,
    each [(width - gap) / 2] wide, the second one gap to the right of
    the first. *)
Theorem grid_of_two_charts_is_side_by_side (width height : Q)
        (cols rows : option Z) (g : option Q) (d0 d1 : NodeChartData) :
  (2 <= or_else cols 2)%Z ->
  Forall2
    (fun a b =>
       ComparisonRenderer.data a = ComparisonRenderer.data b
       /\ num_eq (pos_x (ComparisonRenderer.position a))
                 (pos_x (ComparisonRenderer.position b))
       /\ num_eq (pos_y (ComparisonRenderer.position a))
                 (pos_y (ComparisonRenderer.position b))
       /\ num_eq (pos_width (ComparisonRenderer.position a))
                 (pos_width (ComparisonRenderer.position b))
       /\ num_eq (pos_height (ComparisonRenderer.position a))
                 (pos_height (ComparisonRenderer.position b)))
    (ComparisonRenderer.addCharts width height
                                  (mkLayout grid_layout cols rows g) [d0; d1])
    (ComparisonRenderer.addCharts width height
                                  (mkLayout side_by_side None None g) [d0; d1]).
Proof.
  intros Hc. rewrite !addCharts_two. cbn zeta.
  unfold ComparisonRenderer.calculatePosition.
  cbn [layout_type columns gap List.length Nat.max Nat.min].
  replace (Z.min (or_else cols 2%Z) 2) with 2%Z by lia.
  set (gp := or_else g 10).
  change (Qceiling (inject_Z (Z.of_nat 1) / inject_Z 2)) with 1%Z.
  change (Qceiling (inject_Z (Z.of_nat 2) / inject_Z 2)) with 1%Z.
  change (Qfloor (Qn 0 / inject_Z 2)) with 0%Z.
  change (Qfloor (Qn 1 / inject_Z 2)) with 0%Z.
  cbn [Z.eqb Z.rem Z.of_nat Z.quotrem Pos.of_succ_nat].
  change (Z.rem 0 2) with 0%Z. change (Z.rem 1 2) with 1%Z.
  cbn [nmul nadd ComparisonRenderer.position ComparisonRenderer.data
       pos_x pos_y pos_width pos_height num_eq].
  constructor; [|constructor; [|constructor]];
    (split; [reflexivity|]);
    cbn [ComparisonRenderer.position pos_x pos_y pos_width pos_height num_eq];
    change (inject_Z (2 - 1)) with 1; change (inject_Z (1 - 1)) with 0;
    change (inject_Z 0) with 0; change (inject_Z 1) with 1;
    change (inject_Z 2) with 2;
    change (Qn 0) with 0; change (Qn 1) with 1; change (Qn 2) with 2;
    repeat split; field.
Qed.

Lemma grid_of_two_charts_is_side_by_side_witness :
  Forall2
    (fun a b =>
       ComparisonRenderer.data a = ComparisonRenderer.data b
       /\ num_eq (pos_x (ComparisonRenderer.position a))
                 (pos_x (ComparisonRenderer.position b))
       /\ num_eq (pos_y (ComparisonRenderer.position a))
                 (pos_y (ComparisonRenderer.position b))
       /\ num_eq (pos_width (ComparisonRenderer.position a))
                 (pos_width (ComparisonRenderer.position b))
       /\ num_eq (pos_height (ComparisonRenderer.position a))
                 (pos_height (ComparisonRenderer.position b)))
    (ComparisonRenderer.addCharts
       1600 800 (mkLayout grid_layout (Some 2%Z) None (Some 15))
       [mkData [] None no_options; mkData two_candles None no_options])
    (ComparisonRenderer.addCharts
       1600 800 (mkLayout side_by_side None None (Some 15))
       [mkData [] None no_options; mkData two_candles None no_options]).
Proof.
  apply (grid_of_two_charts_is_side_by_side
           1600 800 (Some 2%Z) None (Some 15)
           (mkData [] None no_options) (mkData two_candles None no_options)).
  vm_compute. discriminate.
Defined.

(** X18.  In a grid of one column the first chart is given the whole
    canvas, because the row count is computed from the one chart that is
    there when it is added; the second chart is given the lower half and is
    drawn over it. *)
Theorem one_column_grid_overlaps (width height : Q) (rows : option Z)
        (g : option Q) (d0 d1 : NodeChartData) :
  let gp := or_else g 10 in
  exists p0 p1,
    ComparisonRenderer.addCharts width height
                                 (mkLayout grid_layout (Some 1%Z) rows g) [d0; d1]
    = [ComparisonRenderer.mkChart d0 p0; ComparisonRenderer.mkChart d1 p1]
    /\ num_eq (pos_x p0) (Fin 0) /\ num_eq (pos_y p0) (Fin 0)
    /\ num_eq (pos_width p0) (Fin width) /\ num_eq (pos_height p0) (Fin height)
    /\ num_eq (pos_x p1) (Fin 0)
    /\ num_eq (pos_y p1) (Fin ((height + gp) / 2))
    /\ num_eq (pos_width p1) (Fin width)
    /\ num_eq (pos_height p1) (Fin ((height - gp) / 2)).
Proof.
  cbn zeta. rewrite addCharts_two. cbn zeta. do 2 eexists.
  split; [reflexivity|].
  unfold ComparisonRenderer.calculatePosition.
  cbn [layout_type columns gap List.length Nat.max Nat.min].
  change (or_else (Some 1%Z) 2%Z) with 1%Z.
  change (Z.min 1 2) with 1%Z.
  set (gp := or_else g 10).
  change (Qceiling (inject_Z (Z.of_nat 1) / inject_Z 1)) with 1%Z.
  change (Qceiling (inject_Z (Z.of_nat 2) / inject_Z 1)) with 2%Z.
  change (Qfloor (Qn 0 / inject_Z 1)) with 0%Z.
  change (Qfloor (Qn 1 / inject_Z 1)) with 1%Z.
  change (Z.eqb 1 0) with false. change (Z.eqb 2 0) with false.
  change (Z.rem (Z.of_nat 0) 1) with 0%Z. change (Z.rem (Z.of_nat 1) 1) with 0%Z.
  cbn [nmul nadd pos_x pos_y pos_width pos_height num_eq].
  change (inject_Z (1 - 1)) with 0. change (inject_Z (2 - 1)) with 1.
  change (inject_Z 0) with 0. change (inject_Z 1) with 1.
  change (inject_Z 2) with 2.
  repeat split; field.
Qed.


(** ** Which charts the comparison service adds *)

Lemma addSymbolCharts_generated
      (gen : string -> option string -> option NodeChartData)
      (width height : Q) (layout : ComparisonLayout) (symbols : list string) :
  forall charts,
    ComparisonService.addSymbolCharts gen width height layout charts symbols
    = fold_left (fun charts chartData =>
                   ComparisonRenderer.addChart width height layout charts
                                               chartData None)
                (generated gen symbols) charts.
Proof.
  unfold ComparisonService.addSymbolCharts, generated.
  induction symbols as [|s rest IH]; intros charts; [reflexivity|].
  cbn [fold_left flat_map]. rewrite IH, fold_left_app.
  unfold ComparisonService.add_if_generated.
  destruct (gen s None); reflexivity.
Qed.

(** X19.  Without timeframes the comparison service adds one chart for
    every symbol whose chart data could be generated, in the order of the
    symbols, and places them as if the other symbols had not been asked
    for: a symbol that fails is skipped and does not leave a gap. *)
Theorem symbol_charts_skip_failures
        (gen : string -> option string -> option NodeChartData)
        (width height : Q) (layout : ComparisonLayout) (symbols : list string) :
  ComparisonService.addChartsToRenderer gen width height layout None symbols
  = ComparisonRenderer.addCharts width height layout (generated gen symbols)
  /\ ComparisonService.addChartsToRenderer gen width height layout (Some [])
                                           symbols
     = ComparisonRenderer.addCharts width height layout (generated gen symbols)
  /\ List.length
       (ComparisonService.addChartsToRenderer gen width height layout None
                                              symbols)
     = List.length
         (filter (fun symbol => match gen symbol None with
                                | Some _ => true
                                | None => false
                                end) symbols).
Proof.
  unfold ComparisonService.addChartsToRenderer.
  rewrite addSymbolCharts_generated. fold (ComparisonRenderer.addCharts width height layout (generated gen symbols)).
  split; [reflexivity|]. split; [reflexivity|].
  rewrite addCharts_length. unfold generated.
  induction symbols as [|s rest IH]; [reflexivity|].
  cbn [flat_map filter]. rewrite length_app, IH.
  destruct (gen s None); reflexivity.
Qed.

(** X20.  [timeframeComparison] renders at most one chart however many
    timeframes it is given: the loop over the timeframes stops at the
    number of symbols, which is one.  The chart is that of the first
    timeframe.  (The extra configuration is one that does not replace the
    symbols or the timeframes.) *)
Theorem timeframe_comparison_keeps_one_timeframe
        (gen : string -> option string -> option NodeChartData)
        (symbol : string) (timeframes : list string) (outputPath : string)
        (config : option ComparisonService.PartialConfig) :
  (forall c, config = Some c ->
             ComparisonService.symbols c = None
             /\ ComparisonService.timeframes c = None) ->
  let charts :=
    ComparisonService.comparison_charts
      gen
      (ComparisonService.timeframeComparison_config symbol timeframes
                                                    outputPath config) in
  (List.length charts <= 1)%nat
  /\ forall first others,
       timeframes = first :: others ->
       map ComparisonRenderer.data charts
       = match gen symbol (Some first) with
         | Some d => [d]
         | None => []
         end.
Proof.
  intros Hc. cbn zeta.
  unfold ComparisonService.comparison_charts,
    ComparisonService.timeframeComparison_config, ComparisonService.spread.
  cbn [ComparisonService.symbols ComparisonService.timeframes
       ComparisonService.cfg_width ComparisonService.cfg_height
       ComparisonService.layout].
  assert (Hs : ComparisonService.symbols
                 (match config with
                  | Some c => c
                  | None => ComparisonService.empty_config
                  end) = None
               /\ ComparisonService.timeframes
                    (match config with
                     | Some c => c
                     | None => ComparisonService.empty_config
                     end) = None).
  { destruct config as [c|]; [apply (Hc c eq_refl) | split; reflexivity]. }
  destruct Hs as [-> ->]. cbn [ComparisonService.over].
  set (w := match ComparisonService.over _ _ with Some w => w | None => 1600 end).
  set (h := match ComparisonService.over _ _ with Some h => h | None => 800 end).
  set (l := match ComparisonService.over _ _ with Some l => l | None => _ end).
  unfold ComparisonService.addChartsToRenderer.
  destruct timeframes as [|t ts].
  - unfold ComparisonService.addSymbolCharts. cbn [fold_left].
    unfold ComparisonService.add_if_generated.
    split; [|intros first others H; discriminate H].
    destruct (gen symbol None); cbn; lia.
  - unfold ComparisonService.addTimeframeCharts.
    cbn [List.length Nat.min seq fold_left nth_error].
    unfold ComparisonService.add_if_generated.
    split.
    + destruct (gen symbol (Some t)); cbn; lia.
    + intros first others H. injection H as <- <-.
      destruct (gen symbol (Some t)); reflexivity.
Qed.

Lemma timeframe_comparison_keeps_one_timeframe_witness :
  (List.length
     (ComparisonService.comparison_charts
        (fun _ _ => Some (mkData two_candles None no_options))
        (ComparisonService.timeframeComparison_config
           "BTC/USDT" ["1h"; "4h"; "1d"] "out.png" None)) <= 1)%nat.
Proof.
  apply (proj1 (timeframe_comparison_keeps_one_timeframe
                  (fun _ _ => Some (mkData two_candles None no_options))
                  "BTC/USDT" ["1h"; "4h"; "1d"] "out.png" None
                  ltac:(intros c H; discriminate H))).
Defined.


(** ** The time axis *)







(** ** Candles in the plot area *)

Lemma forEach_from_Forall {A} (P : Cmd -> Prop) (f : A -> nat -> list Cmd)
      (xs : list A) :
  forall k,
    (forall i a, nth_error xs i = Some a -> Forall P (f a (k + i)%nat)) ->
    Forall P (forEach_from f xs k).
Proof.
  induction xs as [|a rest IH]; intros k H; [constructor|].
  cbn [forEach_from]. apply Forall_app. split.
  - specialize (H 0%nat a eq_refl). now rewrite Nat.add_0_r in H.
  - apply IH. intros i b Hb. specialize (H (S i) b Hb).
    now replace (S k + i)%nat with (k + S i)%nat by lia.
Qed.

Lemma ndiv_fin (a b : Q) : ~ b == 0 -> (Fin a / Fin b)%num = Fin (a / b).
Proof.
  intros Hb. unfold ndiv. destruct (Qeq_bool b 0) eqn:E; [|reflexivity].
  apply Qeq_bool_iff in E. contradiction.
Qed.

(** The pixel row of a price within the range lies between the top and
    the bottom of the plot area. *)
Lemma priceY_in_range (dimensions : ChartDimensions) (range : PriceRange) (v : Q) :
  0 < priceRange range ->
  priceRange range == maxPrice range - minPrice range ->
  0 <= chartHeight dimensions ->
  minPrice range <= v -> v <= maxPrice range ->
  exists y,
    priceY dimensions (maxPrice range) (priceRange range) (Fin v) = Fin y
    /\ margin_top dimensions <= y
    /\ y <= margin_top dimensions + chartHeight dimensions.
Proof.
  intros Hpos Hpr Hch Hlo Hhi. unfold priceY. cbn [nsub].
  rewrite ndiv_fin by lra. cbn [nmul nadd]. eexists. split; [reflexivity|].
  set (t := (maxPrice range - v) / priceRange range).
  assert (Ht0 : 0 <= t).
  { unfold t. apply Qle_shift_div_l; lra. }
  assert (Ht1 : t <= 1).
  { unfold t. apply Qle_shift_div_r; lra. }
  assert (0 <= t * chartHeight dimensions) by (apply Qmult_le_0_compat; lra).
  assert (0 <= (1 - t) * chartHeight dimensions)
    by (apply Qmult_le_0_compat; lra).
  split; lra.
Qed.

Lemma Qn_le (a b : nat) : (a <= b)%nat -> Qn a <= Qn b.
Proof.
  intros H. unfold Qn. rewrite <- Zle_Qle. lia.
Qed.

(** The range of [calculatePriceRange] without multipliers and clamps
    holds every price of the series. *)
Lemma unscaled_range_covers (ohlc : list ChartOHLC) (config : ChartOptions)
      (range : PriceRange) :
  truthy (scale_field scale_x config) = false ->
  truthy (scale_field scale_y config) = false ->
  scale_field minScale config = None ->
  scale_field maxScale config = None ->
  calculatePriceRange ohlc config = Some range ->
  priceRange range = maxPrice range - minPrice range
  /\ forall c, In c ohlc ->
               minPrice range <= low c /\ low c <= maxPrice range
               /\ minPrice range <= high c /\ high c <= maxPrice range.
Proof.
  intros Hx Hy Hmin Hmax Hr.
  destruct (Math_min (prices_of ohlc)) as [lo|] eqn:Elo.
  2:{ unfold calculatePriceRange in Hr. rewrite Elo in Hr. discriminate Hr. }
  destruct (Math_max (prices_of ohlc)) as [hi|] eqn:Ehi.
  2:{ unfold calculatePriceRange in Hr. rewrite Elo, Ehi in Hr. discriminate Hr. }
  rewrite (calculatePriceRange_stages ohlc config lo hi Elo Ehi) in Hr.
  cbn zeta in Hr. rewrite Hmin, Hmax in Hr.
  assert (Hmx : forall b, multiplied (scale_field scale_x config) b = b).
  { intros b. unfold multiplied. now rewrite Hx. }
  assert (Hmy : forall b, multiplied (scale_field scale_y config) b = b).
  { intros b. unfold multiplied. now rewrite Hy. }
  rewrite Hmx, Hmy in Hr. injection Hr as <-. cbn [priceRange maxPrice minPrice].
  split; [reflexivity|].
  intros c Hc.
  destruct (Math_min_spec _ _ Elo) as [_ Hle].
  destruct (Math_max_spec _ _ Ehi) as [_ Hge].
  assert (Hh : In (high c) (prices_of ohlc))
    by (apply prices_of_in; exists c; auto).
  assert (Hl : In (low c) (prices_of ohlc))
    by (apply prices_of_in; exists c; auto).
  pose proof (Hle _ Hh) as H1. pose proof (Hle _ Hl) as H2.
  pose proof (Hge _ Hh) as H3. pose proof (Hge _ Hl) as H4.
  destruct (truthy (scale_field autoScale config)); cbn [pad fst snd].
  - assert (0 <= (hi - lo) * 0.05) by (apply Qmult_le_0_compat; lra).
    repeat split; lra.
  - repeat split; lra.
Qed.


(** X22.  When the price range is computed without multipliers and
    clamps and is not zero, and the plot area has a width and a height that
    are not negative, the candlestick renderer draws the wick of every
    candle inside the plot area: its end points lie between the left and
    the right margin and between the top and the bottom of the plot
    area. *)
Theorem candle_wicks_stay_in_plot_area (dimensions : ChartDimensions)
        (config : ChartOptions) (ohlc : list ChartOHLC) (range : PriceRange) :
  truthy (scale_field scale_x config) = false ->
  truthy (scale_field scale_y config) = false ->
  scale_field minScale config = None ->
  scale_field maxScale config = None ->
  calculatePriceRange ohlc config = Some range ->
  0 < priceRange range ->
  0 <= chartWidth dimensions ->
  0 <= chartHeight dimensions ->
  vertices_in_plot_area dimensions
                        (CandlestickRenderer.render dimensions range config ohlc).
Proof.
  intros Hx Hy Hmin Hmax Hr Hpos Hcw Hch.
  destruct (unscaled_range_covers ohlc config range Hx Hy Hmin Hmax Hr)
    as [Hpr Hcover].
  assert (Hpr' : priceRange range == maxPrice range - minPrice range)
    by (rewrite Hpr; reflexivity).
  unfold vertices_in_plot_area, CandlestickRenderer.render, forEach.
  apply forEach_from_Forall. intros i c Hc. cbn [Nat.add].
  assert (Hi : (i < List.length ohlc)%nat) by (apply nth_error_Some; congruence).
  destruct (Hcover c (nth_error_In _ _ Hc)) as (L1 & L2 & H1 & H2).
  destruct (priceY_in_range dimensions range (high c) Hpos Hpr' Hch H1 H2)
    as (yh & Eh & Hh1 & Hh2).
  destruct (priceY_in_range dimensions range (low c) Hpos Hpr' Hch L1 L2)
    as (yl & El & Hl1 & Hl2).
  assert (Hn : 0 < Qn (List.length ohlc)) by (apply Qn_pos; lia).
  unfold candle_shape. rewrite Eh, El.
  rewrite !ndiv_fin by lra. cbn [nmul nadd nsub].
  set (n := Qn (List.length ohlc)) in *.
  set (s := chartWidth dimensions / n).
  assert (Hs : 0 <= s) by (apply Qle_shift_div_l; lra).
  assert (Hi1 : Qn i + 1 <= n).
  { unfold n. rewrite <- Qn_S. apply Qn_le. lia. }
  assert (Hi0 : 0 <= Qn i) by (apply (Qn_le 0); lia).
  assert (Es : s * n == chartWidth dimensions) by (unfold s; field; lra).
  assert (E2 : s / 2 == s * (1 # 2)) by field.
  assert (Hxin : margin_left dimensions
                 <= margin_left dimensions + Qn i * s + s / 2
                 /\ margin_left dimensions + Qn i * s + s / 2
                    <= margin_left dimensions + chartWidth dimensions).
  { rewrite E2.
    assert (0 <= Qn i * s) by (apply Qmult_le_0_compat; lra).
    assert (0 <= (n - Qn i - 1) * s) by (apply Qmult_le_0_compat; lra).
    split; lra. }
  destruct Hxin as [Hx1 Hx2].
  apply Forall_app. split.
  - repeat constructor; assumption.
  - destruct (true && truthy (bar_color border config)); repeat constructor.
Qed.

Lemma candle_wicks_stay_in_plot_area_witness :
  vertices_in_plot_area
    (mkDimensions 800 600 60 40 60 40 680 500)
    (CandlestickRenderer.render (mkDimensions 800 600 60 40 60 40 680 500)
                                (mkPriceRange 90 120 (120 - 90))
                                no_options
                                [mkOHLC 0 100 110 90 105 None;
                                 mkOHLC 60000 105 120 95 100 None]).
Proof.
  apply (candle_wicks_stay_in_plot_area
           (mkDimensions 800 600 60 40 60 40 680 500) no_options
           [mkOHLC 0 100 110 90 105 None; mkOHLC 60000 105 120 95 100 None]
           (mkPriceRange 90 120 (120 - 90)));
    try reflexivity; discriminate.
Defined.


(** ** A series of one candle *)

(** X23.  For a series of one candle the line renderer and the time axis
    divide by [length - 1 = 0]: the only vertex of the line and the only
    time label get the x coordinate NaN, so neither is drawn at a place
    of the canvas. *)
Theorem single_candle_has_no_x (clock : Clock) (dimensions : ChartDimensions)
        (range : PriceRange) (config : ChartOptions) (candle : ChartOHLC) :
  (exists y,
      LineRenderer.render dimensions range config [candle]
      = [strokeStyle (or_else (bar_color bullish config) "#26a69a");
         lineWidth 2; beginPath; moveTo NaN y; stroke])
  /\ (not_false (showTimeAxis config) = true ->
      exists label y,
        In (fillText label NaN y)
           (AxesRenderer.drawTimeLabels clock dimensions config [candle])
        /\ texts_drawn
             (AxesRenderer.drawTimeLabels clock dimensions config [candle])
           = 1%nat).
Proof.
  split.
  - eexists. unfold LineRenderer.render, close_path, forEach.
    cbn [List.length forEach_from Nat.eqb app].
    change (Qn 1 - 1) with (1 - 1).
    assert (E : (Fin (margin_left dimensions)
                 + Fin (Qn 0) * (Fin (chartWidth dimensions) / Fin (1 - 1)))%num
                = NaN).
    { change (Fin (1 - 1)) with (Fin 0) at 1.
      cbn. destruct (chartWidth dimensions ?= 0); reflexivity. }
    rewrite E. reflexivity.
  - intros Hshow. unfold AxesRenderer.drawTimeLabels.
    cbn [List.length Nat.eqb]. rewrite Hshow. cbn [negb].
    cbn [Nat.div Nat.max AxesRenderer.stepped Nat.ltb Nat.leb flat_map
         nth_error app].
    do 2 eexists. split.
    + right. right. right. left.
      assert (E : (Fin (margin_left dimensions)
                   + (Fin (Qn 0) / Fin (Qn 1 - 1))
                     * Fin (chartWidth dimensions))%num = NaN) by reflexivity.
      rewrite E. reflexivity.
    + reflexivity.
Qed.

Lemma single_candle_has_no_x_witness :
  exists label y,
    In (fillText label NaN y)
       (AxesRenderer.drawTimeLabels
          (mkClock 0 0) (mkDimensions 800 600 60 40 60 40 680 500)
          no_options [flat_candle])
    /\ texts_drawn
         (AxesRenderer.drawTimeLabels
            (mkClock 0 0) (mkDimensions 800 600 60 40 60 40 680 500)
            no_options [flat_candle])
       = 1%nat.
Proof.
  apply (proj2 (single_candle_has_no_x
                  (mkClock 0 0) (mkDimensions 800 600 60 40 60 40 680 500)
                  (mkPriceRange 100 100 0) no_options flat_candle)).
  reflexivity.
Defined.


(** ** Price labels and grid lines *)

(** X24.  When the range is not zero, the lowest price label shows the
    minimum of the range and its tick is drawn at the bottom of the plot
    area, [margin.top + chartHeight], which is also where the lowest
    horizontal grid line is drawn. *)
Theorem lowest_price_tick_sits_on_the_bottom_line
        (dimensions : ChartDimensions) (ohlc : list ChartOHLC)
        (config : ChartOptions) (range : PriceRange) :
  calculatePriceRange ohlc config = Some range ->
  ~ priceRange range == 0 ->
  not_false (showGrid config) = true ->
  exists price y row,
    In (fillText (formatPrice price) (Fin (margin_left dimensions - 10))
                 (Fin (y + 4)))
       (AxesRenderer.drawPriceLabels dimensions range config)
    /\ In (moveTo (Fin (margin_left dimensions - 5)) (Fin y))
          (AxesRenderer.drawPriceLabels dimensions range config)
    /\ In (moveTo (Fin (margin_left dimensions)) (Fin row))
          (GridRenderer.render dimensions config)
    /\ price == minPrice range
    /\ y == margin_top dimensions + chartHeight dimensions
    /\ row == margin_top dimensions + chartHeight dimensions.
Proof.
  intros Hr Hnz Hgrid.
  assert (Hpr : priceRange range = maxPrice range - minPrice range).
  { destruct (Math_min (prices_of ohlc)) as [lo|] eqn:Elo.
    2:{ unfold calculatePriceRange in Hr. rewrite Elo in Hr. discriminate Hr. }
    destruct (Math_max (prices_of ohlc)) as [hi|] eqn:Ehi.
    2:{ unfold calculatePriceRange in Hr. rewrite Elo, Ehi in Hr.
        discriminate Hr. }
    rewrite (calculatePriceRange_stages ohlc config lo hi Elo Ehi) in Hr.
    cbn zeta in Hr. injection Hr as <-. reflexivity. }
  set (price := minPrice range + (Qn 0 / Qn 5) * priceRange range).
  exists price,
         (margin_top dimensions
          + ((maxPrice range - price) / priceRange range)
            * chartHeight dimensions),
         (margin_top dimensions + (Qn 5 / 5) * chartHeight dimensions).
  assert (Ey : priceY dimensions (maxPrice range) (priceRange range) (Fin price)
               = Fin (margin_top dimensions
                      + ((maxPrice range - price) / priceRange range)
                        * chartHeight dimensions)).
  { unfold priceY. cbn [nsub]. rewrite ndiv_fin by assumption. reflexivity. }
  assert (Hlabel :
            forall cmd,
              In cmd [fillText (formatPrice price)
                               (Fin (margin_left dimensions - 10))
                               (priceY dimensions (maxPrice range)
                                       (priceRange range) (Fin price)
                                + Fin 4)%num;
                      strokeStyle (or_else (gridColor config) "#2b2b43");
                      lineWidth 0.5;
                      beginPath;
                      moveTo (Fin (margin_left dimensions - 5))
                             (priceY dimensions (maxPrice range)
                                     (priceRange range) (Fin price));
                      lineTo (Fin (margin_left dimensions))
                             (priceY dimensions (maxPrice range)
                                     (priceRange range) (Fin price));
                      stroke] ->
              In cmd (AxesRenderer.drawPriceLabels dimensions range config)).
  { intros cmd Hcmd. unfold AxesRenderer.drawPriceLabels.
    apply in_or_app. right. apply in_flat_map. exists 0%nat. split.
    - apply in_seq. lia.
    - exact Hcmd. }
  assert (Eprice : price == minPrice range).
  { unfold price. change (Qn 0 / Qn 5) with (0 / 5). field. }
  split; [|split; [|split; [|split; [|split]]]].
  - apply Hlabel. left. rewrite Ey. reflexivity.
  - apply Hlabel. do 4 right. left. rewrite Ey. reflexivity.
  - unfold GridRenderer.render. rewrite Hgrid. cbn [negb].
    apply in_or_app. right. apply in_or_app. right.
    apply in_flat_map. exists 5%nat. split.
    + apply in_seq. lia.
    + right. left. reflexivity.
  - exact Eprice.
  - rewrite Eprice, Hpr. field. rewrite <- Hpr. exact Hnz.
  - change (Qn 5 / 5) with (5 / 5). field.
Qed.

Lemma lowest_price_tick_sits_on_the_bottom_line_witness :
  exists price y row,
    In (fillText (formatPrice price) (Fin (60 - 10)) (Fin (y + 4)))
       (AxesRenderer.drawPriceLabels
          (mkDimensions 800 600 60 40 60 40 680 500)
          (mkPriceRange 90 120 (120 - 90)) no_options)
    /\ In (moveTo (Fin (60 - 5)) (Fin y))
          (AxesRenderer.drawPriceLabels
             (mkDimensions 800 600 60 40 60 40 680 500)
             (mkPriceRange 90 120 (120 - 90)) no_options)
    /\ In (moveTo (Fin 60) (Fin row))
          (GridRenderer.render (mkDimensions 800 600 60 40 60 40 680 500)
                               no_options)
    /\ price == 90 /\ y == 60 + 500 /\ row == 60 + 500.
Proof.
  apply (lowest_price_tick_sits_on_the_bottom_line
           (mkDimensions 800 600 60 40 60 40 680 500)
           [mkOHLC 0 100 110 90 105 None; mkOHLC 60000 105 120 95 100 None]
           no_options (mkPriceRange 90 120 (120 - 90))).
  - reflexivity.
  - discriminate.
  - reflexivity.
Defined.

(** ** The watermark *)

(** X25.  A watermark is never drawn fully transparent and never with a
    font of size 0: an opacity or a font size of 0 is replaced by the
    default.  The renderer writes one text and sets the opacity of the
    canvas back to 1. *)
Theorem watermark_is_never_invisible (width height : Q)
        (watermark : string + WatermarkConfig) :
  exists opacity color fontSize align text x y,
    WatermarkRenderer.render width height watermark
    = [globalAlpha opacity; fillStyle color;
       font (Template "" fontSize "px Arial"); textAlign align;
       fillText text x y; globalAlpha 1]
    /\ ~ opacity == 0 /\ ~ fontSize == 0.
Proof.
  assert (Hor : forall (v : option Q) d, ~ d == 0 -> ~ or_else v d == 0).
  { intros v d Hd. unfold or_else, truthy, Truthy_option, truthy, Truthy_Q.
    destruct v as [q|]; [|exact Hd].
    destruct (Qeq_bool q 0) eqn:E; cbn [negb]; [exact Hd|].
    intros H. apply Qeq_bool_iff in H. congruence. }
  unfold WatermarkRenderer.render.
  destruct watermark as [s|w].
  - cbn zeta. do 7 eexists. split; [reflexivity|]. split; discriminate.
  - cbn zeta.
    destruct (match wm_position w with Some p => p | None => bottom_right end);
      do 7 eexists; (split; [reflexivity|]);
      split; apply Hor; discriminate.
Qed.


(** ** Overlays and the candles they belong to *)

Lemma forEach_from_ext {A} (f g : A -> nat -> list Cmd) (xs : list A) :
  forall k,
    (forall i a, nth_error xs i = Some a -> f a (k + i)%nat = g a (k + i)%nat) ->
    forEach_from f xs k = forEach_from g xs k.
Proof.
  induction xs as [|a rest IH]; intros k H; [reflexivity|].
  cbn [forEach_from]. f_equal.
  - specialize (H 0%nat a eq_refl). now rewrite Nat.add_0_r in H.
  - apply IH. intros i b Hb. specialize (H (S i) b Hb).
    now replace (S k + i)%nat with (k + S i)%nat by lia.
Qed.

(** With distinct timestamps the search for the candle of a timestamp finds
    the candle itself. *)
Lemma findIndex_from_distinct (l : list ChartOHLC) :
  NoDup (map time l) ->
  forall i c k,
    nth_error l i = Some c ->
    findIndex_from (fun candle => Z.eqb (time candle) (time c)) l k
    = Some (k + i)%nat.
Proof.
  induction l as [|c0 l IH]; intros Hnd i c k Hc.
  - destruct i; discriminate Hc.
  - cbn [map] in Hnd. inversion Hnd as [|? ? Hnotin Hnd']; subst.
    cbn [findIndex_from]. destruct i as [|i].
    + injection Hc as <-. rewrite Z.eqb_refl. f_equal. lia.
    + cbn [nth_error] in Hc.
      destruct (Z.eqb_spec (time c0) (time c)) as [E|_].
      * exfalso. apply Hnotin. rewrite E. apply in_map.
        eapply nth_error_In, Hc.
      * rewrite (IH Hnd' i c (S k) Hc). f_equal. lia.
Qed.

Lemma overlay_path_by_index (dimensions : ChartDimensions) (range : PriceRange)
      (ohlc : list ChartOHLC) (spacing : num) (points : list IndicatorPoint) :
  NoDup (map time ohlc) ->
  map p_time points = map time ohlc ->
  overlay_path dimensions range ohlc spacing points
  = forEach (vertex_at dimensions range spacing) points.
Proof.
  intros Hnd Htimes. unfold overlay_path, forEach.
  apply forEach_from_ext. intros i p Hp. cbn [Nat.add].
  assert (Ht : nth_error (map time ohlc) i = Some (p_time p)).
  { rewrite <- Htimes, nth_error_map, Hp. reflexivity. }
  rewrite nth_error_map in Ht.
  destruct (nth_error ohlc i) as [c|] eqn:Hc; [|discriminate Ht].
  injection Ht as Ht. rewrite <- Ht. unfold findIndex.
  rewrite (findIndex_from_distinct ohlc Hnd i c 0%nat Hc). reflexivity.
Qed.

Lemma vwap_times (ohlc : list ChartOHLC) :
  map p_time (VWAPRenderer.calculateVWAP ohlc) = map time ohlc.
Proof.
  unfold VWAPRenderer.calculateVWAP.
  destruct ohlc as [|c0 rest] eqn:Eo; [reflexivity|]. rewrite <- Eo.
  replace (Nat.eqb (List.length ohlc) 0) with false by (rewrite Eo; reflexivity).
  destruct (fold_left VWAPRenderer.step ohlc (0, 0, [])) as [[a' b'] d'] eqn:F.
  destruct (vwap_fold ohlc 0 0 [] a' b' d' F) as (Hlen & _ & Hpts).
  cbn [snd]. cbn [List.length Nat.add] in Hlen.
  apply nth_error_ext. intros i. rewrite !nth_error_map.
  destruct (nth_error ohlc i) as [c|] eqn:Hc.
  - destruct (Hpts i c Hc) as (v & Hv & _). cbn [List.length Nat.add] in Hv.
    rewrite Hv. reflexivity.
  - apply nth_error_None in Hc.
    replace (nth_error d' i) with (@None IndicatorPoint); [reflexivity|].
    symmetry. apply nth_error_None. lia.
Qed.

(** X26.  When the timestamps of the series are distinct, the VWAP overlay
    has one vertex for every candle, in the order of the candles, at the
    centre of the slot of that candle: the lookup of the candle by its
    timestamp finds the index of the point. *)
Theorem vwap_overlay_follows_candles (dimensions : ChartDimensions)
        (range : PriceRange) (ohlc : list ChartOHLC) (spacing : num) :
  NoDup (map time ohlc) ->
  overlay_path dimensions range ohlc spacing (VWAPRenderer.calculateVWAP ohlc)
  = forEach (vertex_at dimensions range spacing)
            (VWAPRenderer.calculateVWAP ohlc)
  /\ List.length (VWAPRenderer.calculateVWAP ohlc) = List.length ohlc.
Proof.
  intros Hnd. split.
  - apply overlay_path_by_index; [exact Hnd | apply vwap_times].
  - rewrite <- (length_map p_time), vwap_times. apply length_map.
Qed.

Lemma vwap_overlay_follows_candles_witness :
  overlay_path (mkDimensions 800 600 60 40 60 40 680 500)
               (mkPriceRange 90 120 30) two_candles (Fin 340)
               (VWAPRenderer.calculateVWAP two_candles)
  = forEach (vertex_at (mkDimensions 800 600 60 40 60 40 680 500)
                       (mkPriceRange 90 120 30) (Fin 340))
            (VWAPRenderer.calculateVWAP two_candles).
Proof.
  apply (proj1 (vwap_overlay_follows_candles
                  (mkDimensions 800 600 60 40 60 40 680 500)
                  (mkPriceRange 90 120 30) two_candles (Fin 340)
                  ltac:(repeat constructor; cbn; intuition discriminate))).
Defined.


(** ** The chart utilities and the overlays *)

Lemma Forall2_by_index {A B} (R : A -> B -> Prop) (l : list A) :
  forall l' : list B,
    List.length l = List.length l' ->
    (forall i a b, nth_error l i = Some a -> nth_error l' i = Some b -> R a b) ->
    Forall2 R l l'.
Proof.
  induction l as [|a l IH]; intros [|b l'] Hlen H; try discriminate Hlen.
  - constructor.
  - constructor.
    + apply (H 0%nat); reflexivity.
    + apply IH; [now injection Hlen|].
      intros i x y Hx Hy. apply (H (S i)); assumption.
Qed.

Lemma fold_left_Qplus (l : list Q) : forall a, fold_left Qplus l a == a + Qsum l.
Proof.
  induction l as [|x l IH]; intros a.
  - change (Qsum []) with 0. cbn. ring.
  - cbn [fold_left]. rewrite IH. change (Qsum (x :: l)) with (x + Qsum l). ring.
Qed.

(** X27.  For a period of at least 1 the values of the SMA overlay are
    those of the utility [calculateMovingAverage] on the closes. *)
Theorem sma_overlay_is_the_moving_average (period : nat)
        (ohlc : list ChartOHLC) (smaData : list IndicatorPoint) :
  (0 < period)%nat ->
  SMARenderer.calculateSMA period ohlc = Returns smaData ->
  Forall2 num_eq
          (map p_value smaData)
          (ChartUtils.calculateMovingAverage (map close ohlc) period).
Proof.
  intros Hp Hsma.
  destruct (sma_points period ohlc Hp) as (d & Hd & Hlen & Hpts).
  rewrite Hd in Hsma. injection Hsma as <-.
  unfold ChartUtils.calculateMovingAverage. rewrite length_map.
  destruct period as [|p]; [lia|].
  destruct (Nat.ltb_spec (List.length ohlc) (S p)) as [Hshort|Hlong].
  { destruct d; [constructor | simpl in Hlen; lia]. }
  apply Forall2_by_index.
  - rewrite !length_map, length_seq. lia.
  - intros i a b Ha Hb.
    rewrite nth_error_map in Ha.
    destruct (nth_error d i) as [pt|] eqn:Hpt; [|discriminate Ha].
    injection Ha as <-.
    assert (Hi : (i < List.length d)%nat) by (apply nth_error_Some; congruence).
    destruct (Hpts i ltac:(lia)) as (c & v & _ & Hnth & Hv).
    rewrite Hnth in Hpt. injection Hpt as <-. cbn [p_value].
    rewrite nth_error_map, nth_error_seq in Hb.
    replace (Nat.ltb i (List.length ohlc - p)) with true in Hb
      by (symmetry; apply Nat.ltb_lt; lia).
    cbn [option_map] in Hb. injection Hb as <-.
    cbn [num_eq]. rewrite Hv. apply Qdiv_comp; [|reflexivity].
    rewrite fold_left_Qplus. unfold ChartUtils.slice.
    replace (p + i - p)%nat with i by lia.
    replace (p + i + 1 - i)%nat with (S p) by lia.
    rewrite skipn_map, firstn_map. ring.
Qed.

Lemma sma_overlay_is_the_moving_average_witness :
  exists smaData,
    SMARenderer.calculateSMA 2 two_candles = Returns smaData
    /\ Forall2 num_eq
               (map p_value smaData)
               (ChartUtils.calculateMovingAverage (map close two_candles) 2).
Proof.
  eexists. split; [reflexivity|].
  apply (sma_overlay_is_the_moving_average 2 two_candles); [lia | reflexivity].
Defined.


Lemma utility_vwap_fold (data : list ChartData) :
  forall a b a' b',
    fold_left
      (fun '(totalVolume, totalVolumePrice) item =>
         let volume := or_else (cd_volume item) 0 in
         let typicalPrice := (cd_high item + cd_low item + cd_close item) / 3 in
         (totalVolume + volume, totalVolumePrice + volume * typicalPrice))
      data (a, b) = (a', b') ->
    a' == a + Qsum (map volume_or_zero (ComparisonService.createChartData_ohlc data))
    /\ b' == b + Qsum (map (fun c => volume_or_zero c * VWAPRenderer.typicalPrice c)
                           (ComparisonService.createChartData_ohlc data)).
Proof.
  induction data as [|item data IH]; intros a b a' b' H.
  - cbn in H. injection H as <- <-. change (Qsum _) with 0. split; ring.
  - cbn [fold_left] in H. apply IH in H. destruct H as [Ha Hb].
    cbn [ComparisonService.createChartData_ohlc map].
    fold (ComparisonService.createChartData_ohlc data).
    set (c := mkOHLC _ _ _ _ _ _).
    change (Qsum (volume_or_zero c :: ?l)) with (volume_or_zero c + Qsum l).
    pose proof (or_else_volume c) as Hv. cbn [volume c] in Hv.
    rewrite Ha, Hb.
    change (Qsum (volume_or_zero c
                  :: map volume_or_zero
                         (ComparisonService.createChartData_ohlc data)))
      with (volume_or_zero c
            + Qsum (map volume_or_zero
                        (ComparisonService.createChartData_ohlc data))).
    change (Qsum (volume_or_zero c * VWAPRenderer.typicalPrice c
                  :: map (fun c => volume_or_zero c * VWAPRenderer.typicalPrice c)
                         (ComparisonService.createChartData_ohlc data)))
      with (volume_or_zero c * VWAPRenderer.typicalPrice c
            + Qsum (map (fun c => volume_or_zero c * VWAPRenderer.typicalPrice c)
                        (ComparisonService.createChartData_ohlc data))).
    rewrite Hv.
    change ((cd_high item + cd_low item + cd_close item) / 3)
      with (VWAPRenderer.typicalPrice c).
    split; ring.
Qed.

(** X28.  When the total volume of a series is positive, the utility
    [calculateVWAP] returns the value of the last point of the VWAP
    overlay drawn for the same candles; when it is not, the utility
    returns 0. *)
Theorem series_vwap_is_last_overlay_point (data : list ChartData) :
  let ohlc := ComparisonService.createChartData_ohlc data in
  (0 < Qsum (map volume_or_zero ohlc) ->
   exists t v,
     nth_error (VWAPRenderer.calculateVWAP ohlc) (List.length data - 1)
     = Some (mkPoint t (Fin v))
     /\ v == ChartUtils.calculateVWAP data)
  /\ (Qsum (map volume_or_zero ohlc) <= 0 -> ChartUtils.calculateVWAP data = 0).
Proof.
  cbn zeta. unfold ChartUtils.calculateVWAP.
  assert (Hlen : List.length (ComparisonService.createChartData_ohlc data)
                 = List.length data)
    by (unfold ComparisonService.createChartData_ohlc; apply length_map).
  destruct (Nat.eqb_spec (List.length data) 0) as [E0|Hne].
  { destruct (ComparisonService.createChartData_ohlc data);
      [|simpl in Hlen; lia].
    split; [intros H; vm_compute in H; discriminate H | reflexivity]. }
  destruct (fold_left _ data (0, 0)) as [tv tvp] eqn:F.
  destruct (utility_vwap_fold data 0 0 tv tvp F) as [Htv Htvp].
  set (ohlc := ComparisonService.createChartData_ohlc data) in *.
  split.
  - intros Hpos.
    assert (Hb : Qltb 0 tv = true) by (apply Qltb_lt; rewrite Htv; lra).
    rewrite Hb.
    unfold VWAPRenderer.calculateVWAP.
    replace (Nat.eqb (List.length ohlc) 0) with false
      by (symmetry; apply Nat.eqb_neq; lia).
    destruct (fold_left VWAPRenderer.step ohlc (0, 0, [])) as [[a' b'] d']
      eqn:G.
    destruct (vwap_fold ohlc 0 0 [] a' b' d' G) as (_ & _ & Hpts).
    destruct (nth_error ohlc (List.length data - 1)) as [c|] eqn:Hc.
    2:{ apply nth_error_None in Hc. lia. }
    destruct (Hpts _ c Hc) as (v & Hv & Hq & _).
    cbn [List.length Nat.add] in Hv. cbn [snd].
    exists (time c), v. split; [exact Hv|].
    cbn zeta in Hq.
    replace (S (List.length data - 1)) with (List.length ohlc) in Hq by lia.
    rewrite firstn_all in Hq.
    rewrite Hq by lra. rewrite Htv, Htvp. reflexivity.
  - intros Hneg.
    assert (Hb : Qltb 0 tv = false) by (apply Qltb_nlt; rewrite Htv; lra).
    rewrite Hb. reflexivity.
Qed.

Lemma series_vwap_is_last_overlay_point_witness :
  exists t v,
    nth_error (VWAPRenderer.calculateVWAP
                 (ComparisonService.createChartData_ohlc
                    [mkChartData 1 100 110 90 100 (Some 5);
                     mkChartData 2 100 120 95 100 (Some 7)]))
              (2 - 1)
    = Some (mkPoint t (Fin v))
    /\ v == ChartUtils.calculateVWAP
              [mkChartData 1 100 110 90 100 (Some 5);
               mkChartData 2 100 120 95 100 (Some 7)].
Proof.
  apply (proj1 (series_vwap_is_last_overlay_point
                  [mkChartData 1 100 110 90 100 (Some 5);
                   mkChartData 2 100 120 95 100 (Some 7)])).
  reflexivity.
Defined.


(** ** The RSI *)

Lemma rsi_sums_nonnegative (data : list Q) (indices : list nat) :
  forall gains losses gains' losses',
    0 <= gains -> 0 <= losses ->
    fold_left
      (fun '(gains, losses) i =>
         let change := nth i data 0 - nth (i - 1) data 0 in
         if Qltb 0 change then (gains + change, losses)
         else (gains, losses - change))
      indices (gains, losses) = (gains', losses') ->
    0 <= gains' /\ 0 <= losses'.
Proof.
  induction indices as [|i rest IH]; intros g l g' l' Hg Hl H.
  - cbn in H. injection H as <- <-. split; assumption.
  - cbn [fold_left] in H. cbn zeta in H.
    destruct (Qltb 0 (nth i data 0 - nth (i - 1) data 0)) eqn:E.
    + apply Qltb_lt in E. apply (IH _ _ _ _) in H; [exact H | lra | exact Hl].
    + apply Qltb_nlt in E. apply (IH _ _ _ _) in H; [exact H | exact Hg | lra].
Qed.

Lemma rsi_value_bounds (data : list Q) (index period : nat) :
  (0 < period)%nat ->
  exists v,
    ChartUtils.calculateRSIForPeriod data index period = Fin v
    /\ 0 <= v /\ v <= 100.
Proof.
  intros Hp. unfold ChartUtils.calculateRSIForPeriod.
  destruct (fold_left _ (seq (index + 1 - period) period) (0, 0))
    as [gains losses] eqn:F.
  destruct (rsi_sums_nonnegative data _ 0 0 gains losses
                                 ltac:(lra) ltac:(lra) F) as [Hg Hl].
  pose proof (Qn_pos period Hp) as Hn.
  rewrite !(ndiv_fin _ (Qn period)) by lra.
  destruct (Qeq_bool (losses / Qn period) 0) eqn:E.
  - exists 100. repeat split; lra.
  - assert (Hnz : ~ losses / Qn period == 0).
    { intros H. apply Qeq_bool_iff in H. congruence. }
    rewrite ndiv_fin by exact Hnz. cbn [nadd].
    set (rs := gains / Qn period / (losses / Qn period)).
    assert (Hal : 0 < losses / Qn period).
    { assert (0 <= losses / Qn period) by (apply Qle_shift_div_l; lra). lra. }
    assert (Hrs : 0 <= rs).
    { unfold rs. apply Qle_shift_div_l; [exact Hal|].
      assert (0 <= gains / Qn period) by (apply Qle_shift_div_l; lra). lra. }
    rewrite ndiv_fin by lra. cbn [nsub]. eexists. split; [reflexivity|].
    assert (H0 : 0 <= 100 / (1 + rs)) by (apply Qle_shift_div_l; lra).
    assert (H1 : 100 / (1 + rs) <= 100) by (apply Qle_shift_div_r; lra).
    split; lra.
Qed.

(** X29.  For a period of at least 1 [calculateRSI] returns
    [length - period] values (none for a series of at most [period]
    prices), each a finite number between 0 and 100. *)
Theorem rsi_stays_between_0_and_100 (data : list Q) (period : nat) :
  (0 < period)%nat ->
  let rsiValues := ChartUtils.calculateRSI data period in
  List.length rsiValues = (List.length data - period)%nat
  /\ Forall (fun rsi => exists v, rsi = Fin v /\ 0 <= v /\ v <= 100) rsiValues.
Proof.
  intros Hp. cbn zeta. unfold ChartUtils.calculateRSI.
  destruct (Nat.ltb_spec (List.length data) (period + 1)) as [Hshort|Hlong].
  - split; [simpl; lia | constructor].
  - split; [rewrite length_map, length_seq; reflexivity|].
    apply Forall_map, Forall_forall. intros i _.
    apply rsi_value_bounds, Hp.
Qed.

Lemma rsi_stays_between_0_and_100_witness :
  let rsiValues := ChartUtils.calculateRSI [100; 102; 101; 105] 2 in
  List.length rsiValues = (List.length [100; 102; 101; 105] - 2)%nat
  /\ Forall (fun rsi => exists v, rsi = Fin v /\ 0 <= v /\ v <= 100) rsiValues.
Proof.
  apply (rsi_stays_between_0_and_100 [100; 102; 101; 105] 2). lia.
Defined.
